(** * Runnable resolution of coc-wgsl-analyzer: [runSingle] and [debugSingle]

    A shallow embedding of the run and debug commands of [src/downloader.ts]
    (functions [fetchRunnable], [pickRunnable], [run], [debug],
    [debugSingle], [runSingle]) together with the [Runnable] declarations of
    [src/lsp_ext.ts].

    JavaScript strings are embedded as [string], arrays as [list] and
    exceptions as the left summand of [Exn + _]; the module-level
    [terminal] variable and the effects on the host editor are an explicit
    [World] passed through the commands, and the caller's runnable object is
    returned as it is left by a command. *)

From stdpp Require Import base option list strings gmap.
From Stdlib Require Import ZArith Lia Ascii.

Open Scope string_scope.
Open Scope list_scope.

(** ** Data model ([lsp_ext.ts]) *)

Record Position := { line : nat; character : nat }.
Record Range := { range_start : Position; range_end : Position }.

Record LocationLink := {
  targetUri : string;
  targetRange : Range;
  targetSelectionRange : Range
}.

Record CommonRunnableArgs := {
  environment : option (gmap string string);
  cwd : string
}.

Record ShellRunnableArgs := {
  shell_kind : string;
  program : string;
  args : list string;
  shell_common : CommonRunnableArgs
}.

Record WebbyRunnableArgs := {
  workspaceRoot : option string;
  executableArgs : list string;
  webbyArgs : list string;
  overrideWebby : option string;
  webby_common : CommonRunnableArgs
}.

(** [Runnable = { label; location? } & (RunnableWebby | RunnableShell)]:
    the [kind] discriminant selects the shape of [args]. *)
Inductive RunnableVariant :=
  | RunnableWebby (a : WebbyRunnableArgs)
  | RunnableShell (a : ShellRunnableArgs).

Record Runnable := {
  label : string;
  location : option LocationLink;
  variant : RunnableVariant
}.

(** [runnable.kind] *)
Definition kind (r : Runnable) : string :=
  match variant r with
  | RunnableWebby _ => "webby"
  | RunnableShell _ => "shell"
  end.

(** [runnable.args.cwd] *)
Definition runnable_cwd (r : Runnable) : string :=
  match variant r with
  | RunnableWebby a => cwd (webby_common a)
  | RunnableShell a => cwd (shell_common a)
  end.

Definition set_executableArgs (l : list string) (a : WebbyRunnableArgs)
  : WebbyRunnableArgs :=
  {| workspaceRoot := workspaceRoot a;
     executableArgs := l;
     webbyArgs := webbyArgs a;
     overrideWebby := overrideWebby a;
     webby_common := webby_common a |}.

Definition set_variant (v : RunnableVariant) (r : Runnable) : Runnable :=
  {| label := label r; location := location r; variant := v |}.

(** ** String helpers *)

(** The template literal [`'${s}'`]. *)
Definition single_quoted (s : string) : string := "'" +:+ s +:+ "'".

(** [Array.prototype.join] on an array of strings. *)
Fixpoint join (sep : string) (l : list string) : string :=
  match l with
  | [] => ""
  | [x] => x
  | x :: rest => x +:+ sep +:+ join sep rest
  end.

(** ** Argument construction shared by [runSingle] and [debugSingle]

    <<
    let args: string[] = [];
    if (runnable.kind === 'webby') {
      args = [...runnable.args.webbyArgs];
      if (runnable.args.executableArgs.length > 0) {
        runnable.args['executableArgs'][0] = `'${runnable.args['executableArgs'][0]}'`;
        args.push('--', ...runnable.args.executableArgs);
      }
    } else {
      args = [...runnable.args.args];
    }
    >>

    The assignment to element 0 writes into the caller's runnable object, so
    the function returns the runnable as it is afterwards together with the
    fresh [args] array. *)
Definition construct_args (r : Runnable) : Runnable * list string :=
  match variant r with
  | RunnableWebby a =>
      let args := webbyArgs a in
      match executableArgs a !! 0%nat with
      | Some first =>
          let a' :=
            set_executableArgs (<[0%nat := single_quoted first]> (executableArgs a)) a in
          (set_variant (RunnableWebby a') r, args ++ "--" :: executableArgs a')
      | None => (r, args)
      end
  | RunnableShell a => (r, args a)
  end.

(** [const cmd = `${runnable.kind} ${args.join(' ')}`] *)
Definition command_line (r : Runnable) (args : list string) : string :=
  kind r +:+ " " +:+ join " " args.

(** ** JavaScript values

    What [JSON.parse] can return, plus [undefined] for absent properties.
    A number is kept as its IEEE-754 binary64 encoding; an object as the list
    of its own properties (keys are distinct in a parsed object). *)
#[warnings="-register-all"]
Inductive JSValue :=
  | JUndefined
  | JNull
  | JBool (b : bool)
  | JNumber (bits : Z)
  | JString (s : string)
  | JArray (elements : list JSValue)
  | JObject (properties : list (string * JSValue)).

Inductive Exn :=
  | Error (message : string)
  | TypeError.

(** [+0], [-0] and [NaN] are the falsy numbers. *)
Definition number_truthy (bits : Z) : bool :=
  let magnitude := Z.land bits (2 ^ 63 - 1) in
  negb (magnitude =? 0)%Z && (magnitude <=? 2047 * 2 ^ 52)%Z.

(** ToBoolean, as applied by [if (v)] and [!v]. *)
Definition truthy (v : JSValue) : bool :=
  match v with
  | JUndefined | JNull => false
  | JBool b => b
  | JNumber bits => number_truthy bits
  | JString s => negb (String.eqb s "")
  | JArray _ | JObject _ => true
  end.

Fixpoint own_property (k : string) (properties : list (string * JSValue))
  : option JSValue :=
  match properties with
  | [] => None
  | (k', v) :: rest => if String.eqb k' k then Some v else own_property k rest
  end.

(** [v[k]] for the keys read by [debugSingle] ([reason], [target], [kind],
    [name], [executable]): none of them is an array index, [length], or a
    member of a built-in prototype, so only an object can carry them.
    Reading a property of [null] or [undefined] throws. *)
Definition get_property (v : JSValue) (k : string) : Exn + JSValue :=
  match v with
  | JUndefined | JNull => inl TypeError
  | JObject properties => inr (default JUndefined (own_property k properties))
  | JBool _ | JNumber _ | JString _ | JArray _ => inr JUndefined
  end.

(** [v === s] and [v !== s] against a string. *)
Definition strict_equals_string (v : JSValue) (s : string) : bool :=
  match v with
  | JString t => String.eqb t s
  | _ => false
  end.

(** [String.prototype.includes]: substring test. *)
Fixpoint string_includes (haystack needle : string) : bool :=
  String.prefix needle haystack ||
  match haystack with
  | EmptyString => false
  | String _ rest => string_includes rest needle
  end.

(** [v.includes(s)]: [Array.prototype.includes] on an array,
    [String.prototype.includes] on a string; on anything else [includes] is
    not a function (or the receiver is [undefined]/[null]) and the call
    throws. *)
Definition includes (v : JSValue) (s : string) : Exn + bool :=
  match v with
  | JArray elements => inr (existsb (fun e => strict_equals_string e s) elements)
  | JString t => inr (string_includes t s)
  | JUndefined | JNull | JBool _ | JNumber _ | JObject _ => inl TypeError
  end.

(** Whether the string conversion of a template literal, [`${v}`], throws.
    Of the values [JSON.parse] returns it does so on an object that carries
    a property named [toString]: the property hides
    [Object.prototype.toString], no parsed value is callable, and the
    [valueOf] tried next gives back the object, not a primitive.  An array
    is converted by converting its elements ([null] elements give the empty
    string), so it throws when it holds such a value. *)
Fixpoint conversion_throws (v : JSValue) : bool :=
  match v with
  | JObject properties =>
      match own_property "toString" properties with
      | Some _ => true
      | None => false
      end
  | JArray elements => existsb conversion_throws elements
  | JUndefined | JNull | JBool _ | JNumber _ | JString _ => false
  end.

(** Sequencing of computations that may throw. *)
Definition bind_exn {A B} (c : Exn + A) (k : A -> Exn + B) : Exn + B :=
  match c with
  | inl e => inl e
  | inr a => k a
  end.

Notation "x <- c ;; k" := (bind_exn c (fun x => k))
  (at level 100, c at next level, right associativity).

(** The conversion of [v] inside the argument of a [console] call: nothing
    is recorded of the call, but the conversion may throw. *)
Definition template_literal (v : JSValue) : Exn + unit :=
  if conversion_throws v then inl TypeError else inr tt.

(** ** The host editor

    The effects of a command are recorded, in order, in a trace; the
    module-level variable [let terminal: Terminal | undefined] is the
    [terminal] field.  Terminal handles are allocated by the host
    ([window.createTerminal]); [fresh] is the next unused handle.
    Calls to [console.debug], [console.info] and [console.error] are not
    recorded. *)
Definition Terminal := nat.

Record TerminalOptions := { opt_name : string; opt_cwd : string }.

(** The [configuration] object passed to [vimspector#LaunchWithSettings]. *)
Record VimspectorSettings := {
  vs_configuration : option string;
  vs_Executable : JSValue;
  vs_Args : string
}.

Inductive Event :=
  | ShowInformationMessage (msg : string)
  | SendRequestRunnables (uri : string)
  | ShowQuickpick (labels : list string)
  | TerminalDispose (t : Terminal)
  | CreateTerminal (opt : TerminalOptions) (t : Terminal)
  | TerminalSendText (t : Terminal) (text : string)
  | NvimCommand (cmd : string)
  | NvimCall (fn : string) (settings : VimspectorSettings)
  | NvimLua (code : string)
  | Spawn (command : string) (spawn_args : list string).

Record World := {
  terminal : option Terminal;
  fresh : Terminal;
  trace : list Event
}.

(** State when the module is loaded. *)
Definition initial_world : World :=
  {| terminal := None; fresh := 0; trace := [] |}.

Definition emit (e : Event) (w : World) : World :=
  {| terminal := terminal w; fresh := fresh w; trace := trace w ++ [e] |}.

Definition set_terminal (t : option Terminal) (w : World) : World :=
  {| terminal := t; fresh := fresh w; trace := trace w |}.

(** [await window.createTerminal(opt)] *)
Definition createTerminal (opt : TerminalOptions) (w : World) : Terminal * World :=
  let t := fresh w in
  (t, {| terminal := terminal w; fresh := S t;
         trace := trace w ++ [CreateTerminal opt t] |}).

Record TextDocument := { uri : string; languageId : string }.

(** [isWgslDocument] of [ctx.ts] *)
Definition isWgslDocument (document : TextDocument) : bool :=
  String.eqb (languageId document) "wgsl".

(** [ctx.config.debug] and [ctx.config.terminal]; a setting that is not
    configured reads as [undefined]. *)
Record Config := {
  debug_runtime : option string;
  vimspectorConfiguration_name : option string;
  nvimdapConfiguration_template : option string;
  terminal_startinsert : bool
}.

(** What the command leaves behind: how it completed, the caller's runnable
    object as it is afterwards, and the host. *)
Record Completion := {
  outcome : Exn + unit;
  runnable_after : option Runnable;
  world_after : World
}.

(** ** [runSingle] *)
Definition runSingle (config : Config) (document : TextDocument)
    (runnable : option Runnable) (w : World) : Completion :=
  match runnable with
  | None => {| outcome := inr tt; runnable_after := None; world_after := w |}
  | Some r =>
      if negb (isWgslDocument document) then
        {| outcome := inr tt; runnable_after := Some r; world_after := w |}
      else
        let '(r', args) := construct_args r in
        let cmd := command_line r' args in
        let opt := {| opt_name := label r'; opt_cwd := runnable_cwd r' |} in
        let w1 :=
          match terminal w with
          | Some old => set_terminal None (emit (TerminalDispose old) w)
          | None => w
          end in
        let '(t, w2) := createTerminal opt w1 in
        let w3 := set_terminal (Some t) w2 in
        let w4 := emit (TerminalSendText t cmd) w3 in
        let w5 := if terminal_startinsert config
                  then emit (NvimCommand "startinsert") w4 else w4 in
        {| outcome := inr tt; runnable_after := Some r'; world_after := w5 |}
  end.

(** ** [fetchRunnable] and [pickRunnable] *)

(** [server] is the reply of the language server to the [runnables] request
    (a rejected request throws). *)
Definition fetchRunnable (document : TextDocument)
    (server : Exn + list Runnable) (w : World) : (Exn + list Runnable) * World :=
  if negb (isWgslDocument document) then (inr [], w)
  else
    let w1 := emit (ShowInformationMessage "Fetching runnable...") w in
    let w2 := emit (SendRequestRunnables (uri document)) w1 in
    (server, w2).

(** [picked] is the index returned by [window.showQuickpick], [-1] when the
    user cancels.  [items[idx].runnable] on an index outside the list reads a
    property of [undefined]. *)
Definition pickRunnable (document : TextDocument)
    (server : Exn + list Runnable) (picked : Z) (w : World)
  : (Exn + option Runnable) * World :=
  match fetchRunnable document server w with
  | (inl e, w1) => (inl e, w1)
  | (inr runnables, w1) =>
      if Nat.eqb (length runnables) 0 then (inr None, w1)
      else
        let items := runnables in
        let w2 := emit (ShowQuickpick (map label items)) w1 in
        if (picked =? -1)%Z then (inr None, w2)
        else if (picked <? 0)%Z then (inl TypeError, w2)
        else match items !! Z.to_nat picked with
             | Some r => (inr (Some r), w2)
             | None => (inl TypeError, w2)
             end
  end.

(** [run]: pick, then [runSingle]. *)
Definition run (config : Config) (document : TextDocument)
    (server : Exn + list Runnable) (picked : Z) (w : World) : Completion :=
  match pickRunnable document server picked w with
  | (inl e, w1) => {| outcome := inl e; runnable_after := None; world_after := w1 |}
  | (inr None, w1) => {| outcome := inr tt; runnable_after := None; world_after := w1 |}
  | (inr (Some r), w1) => runSingle config document (Some r) w1
  end.

(** ** [debugSingle] *)

(** [args[0] === tok] *)
Definition first_is (tok : string) (args : list string) : bool :=
  match args !! 0%nat with
  | Some a => String.eqb a tok
  | None => false
  end.

(** The rewrites between argument construction and [spawn]:
    <<
    if (args[0] === 'test') { args.push('--no-run'); }
    if (args[0] === 'run') { args[0] = 'build'; }
    args.push('--message-format=json');
    >> *)
Definition debug_args (args : list string) : list string :=
  let args1 := if first_is "test" args then args ++ ["--no-run"] else args in
  let args2 := if first_is "run" args1 then <[0%nat := "build"]> args1 else args1 in
  args2 ++ ["--message-format=json"].

(** The [switch (arg)] of the first loop: the value [expectedKind] has
    after it, starting from [undefined]. *)
Definition kind_of_flag (arg : string) : option string :=
  if String.eqb arg "--bin" then Some "bin"
  else if String.eqb arg "--lib" then Some "lib"
  else if String.eqb arg "--test" then Some "test"
  else if String.eqb arg "--example" then Some "example"
  else if String.eqb arg "--bench" then Some "bench"
  else None.

(** First loop over [webbyArgs]; returns [(expectedKind, expectedName)] as
    they are when the loop is left. *)
Fixpoint kind_scan (expectedKind : option string) (webbyArgs : list string)
  : option string * option string :=
  match webbyArgs with
  | [] => (expectedKind, None)
  | arg :: rest =>
      match expectedKind with
      | None => kind_scan (kind_of_flag arg) rest
      | Some k =>
          (Some k, if negb (String.eqb k "lib") then Some arg else None)
      end
  end.

(** Second loop, entered when [expectedName === undefined]. *)
Fixpoint package_scan (foundPackageArgument : bool) (webbyArgs : list string)
  : option string :=
  match webbyArgs with
  | [] => None
  | arg :: rest =>
      if foundPackageArgument then Some arg
      else package_scan (String.eqb arg "--package") rest
  end.

Definition expected_filter (webbyArgs : list string)
  : option string * option string :=
  let '(expectedKind, expectedName) := kind_scan None webbyArgs in
  match expectedName with
  | Some name => (expectedKind, Some name)
  | None => (expectedKind, package_scan false webbyArgs)
  end.

(** The character U+0022. *)
Definition dquote : string := String (Ascii.ascii_of_nat 34) EmptyString.

(** The template literal [`"${s}"`]. *)
Definition double_quoted (s : string) : string := dquote +:+ s +:+ dquote.

(** [s.split(' ')] *)
Fixpoint split_spaces (s : string) : list string :=
  match s with
  | EmptyString => [""]
  | String c rest =>
      if Ascii.eqb c " "%char then "" :: split_spaces rest
      else match split_spaces rest with
           | word :: words => String c word :: words
           | [] => [String c ""]
           end
  end.

(** [executableArgs.split(' ').filter((s) => s !== '').map((s) => `"${s}"`).join(',')] *)
Definition nvim_dap_args (executableArgs : string) : string :=
  join "," (map double_quoted
              (filter (fun s => s <> "") (split_spaces executableArgs))).

(** [runnable.kind === 'webby' ? runnable.args.webbyArgs : []] *)
Definition webbyArgs_or_empty (r : Runnable) : list string :=
  match variant r with
  | RunnableWebby a => webbyArgs a
  | RunnableShell _ => []
  end.

(** [runnable.kind === 'webby' ? runnable.args.executableArgs.join(' ') : ''] *)
Definition joined_executableArgs (r : Runnable) : string :=
  match variant r with
  | RunnableWebby a => join " " (executableArgs a)
  | RunnableShell _ => ""
  end.

Inductive LineResult :=
  | Continue
  | Break (executable : JSValue).

Section DebugSingle.

(** Platform functions: [JSON.parse] ([None] when it throws a
    [SyntaxError]), the text the string conversion of template literals
    gives where it does not throw (it throws exactly on the values of
    [conversion_throws]), and [String.prototype.replace] with a string
    pattern. *)
Variable JSON_parse : string -> option JSValue.
Variable ToString : JSValue -> string.
Variable String_replace : string -> string -> string -> string.

(** One iteration of [for await (const line of rl)].  After a successful
    parse the body goes on to [webbyMessage['reason']] whatever the message
    is: [if (!webbyMessage) { console.debug(...) }] only logs, and what it
    logs is a falsy value, whose conversion does not throw.  The three
    [console.debug] calls before a [continue] convert the value they
    report. *)
Definition scan_line (expectedKind expectedName : option string)
    (line : string) : Exn + LineResult :=
  if String.eqb line "" then inr Continue
  else
    match JSON_parse line with
    | None => inr Continue
    | Some webbyMessage =>
        reason <- get_property webbyMessage "reason" ;;
        if negb (strict_equals_string reason "compiler-artifact")
        then
          reason <- get_property webbyMessage "reason" ;;
          _ <- template_literal reason ;;
          inr Continue
        else
          wrong_kind <-
            match expectedKind with
            | None => inr false
            | Some k =>
                target <- get_property webbyMessage "target" ;;
                target_kind <- get_property target "kind" ;;
                found <- includes target_kind k ;;
                inr (negb found)
            end ;;
          if (wrong_kind : bool) then
            target <- get_property webbyMessage "target" ;;
            target_kind <- get_property target "kind" ;;
            _ <- template_literal target_kind ;;
            inr Continue
          else
            wrong_name <-
              match expectedName with
              | None => inr false
              | Some n =>
                  target <- get_property webbyMessage "target" ;;
                  target_name <- get_property target "name" ;;
                  inr (negb (strict_equals_string target_name n))
              end ;;
            if (wrong_name : bool) then
              target <- get_property webbyMessage "target" ;;
              target_name <- get_property target "name" ;;
              _ <- template_literal target_name ;;
              inr Continue
            else
              executable <- get_property webbyMessage "executable" ;;
              if truthy executable then inr (Break executable)
              else inr Continue
    end.

(** The loop over the lines of [proc.stdout].  Returns the value of
    [executable] when the loop is left ([null] if no line broke out of it)
    and the lines that were not read. *)
Fixpoint scan_stdout (expectedKind expectedName : option string)
    (lines : list string) : Exn + (JSValue * list string) :=
  match lines with
  | [] => inr (JNull, [])
  | line :: rest =>
      match scan_line expectedKind expectedName line with
      | inl e => inl e
      | inr Continue => scan_stdout expectedKind expectedName rest
      | inr (Break executable) => inr (executable, rest)
      end
  end.

(** The loop followed by
    [if (!executable) throw new Error('Could not find executable')]. *)
Definition resolve_executable (expectedKind expectedName : option string)
    (lines : list string) : Exn + (JSValue * list string) :=
  found <- scan_stdout expectedKind expectedName lines ;;
  if negb (truthy (fst found))
  then inl (Error "Could not find executable")
  else inr found.

Definition runtime_is (config : Config) (name : string) : bool :=
  match debug_runtime config with
  | Some r => String.eqb r name
  | None => false
  end.

(** From [const runtime = ctx.config.debug.runtime] to the end. *)
Definition launch (config : Config) (executable : JSValue)
    (executableArgs : string) (w : World) : (Exn + unit) * World :=
  if runtime_is config "termdebug" then
    (inr tt,
     emit (NvimCommand ("TermdebugCommand " +:+ ToString executable
                          +:+ " " +:+ executableArgs)) w)
  else if runtime_is config "vimspector" then
    let name := vimspectorConfiguration_name config in
    (inr tt,
     emit (NvimCall "vimspector#LaunchWithSettings"
             {| vs_configuration := name;
                vs_Executable := executable;
                vs_Args := executableArgs |}) w)
  else if runtime_is config "nvim-dap" then
    let template := nvimdapConfiguration_template config in
    let args := nvim_dap_args executableArgs in
    let configuration :=
      (fun t =>
         String_replace
           (String_replace t "$exe" (double_quoted (ToString executable)))
           "$args" ("{" +:+ args +:+ "}")) <$> template in
    (inr tt,
     emit (NvimLua ("require(" +:+ double_quoted "dap" +:+ ").run("
                      +:+ default "undefined" configuration +:+ ")")) w)
  else
    (inl (Error ("Invalid debug runtime: "
                   +:+ default "undefined" (debug_runtime config))), w).

(** [stdout] is what the spawned build tool prints, line by line.  The
    reader of [proc.stderr], which only reports progress, is left out. *)
Definition debugSingle (config : Config) (document : TextDocument)
    (runnable : option Runnable) (stdout : list string) (w : World)
  : Completion :=
  match runnable with
  | None => {| outcome := inr tt; runnable_after := None; world_after := w |}
  | Some r =>
      if negb (isWgslDocument document) then
        {| outcome := inr tt; runnable_after := Some r; world_after := w |}
      else
        let '(r', args0) := construct_args r in
        let args := debug_args args0 in
        let '(expectedKind, expectedName) :=
          expected_filter (webbyArgs_or_empty r') in
        let w1 := emit (Spawn (kind r') args) w in
        match resolve_executable expectedKind expectedName stdout with
        | inl e =>
            {| outcome := inl e; runnable_after := Some r'; world_after := w1 |}
        | inr (executable, _) =>
            let executableArgs := joined_executableArgs r' in
            (* console.info(`Debugging executable: ${executable} ${executableArgs}`) *)
            match template_literal executable with
            | inl e =>
                {| outcome := inl e; runnable_after := Some r'; world_after := w1 |}
            | inr _ =>
                let '(result, w2) := launch config executable executableArgs w1 in
                {| outcome := result; runnable_after := Some r'; world_after := w2 |}
            end
        end
  end.

(** [debug]: pick, then [debugSingle]. *)
Definition debug (config : Config) (document : TextDocument)
    (server : Exn + list Runnable) (picked : Z) (stdout : list string)
    (w : World) : Completion :=
  match pickRunnable document server picked w with
  | (inl e, w1) => {| outcome := inl e; runnable_after := None; world_after := w1 |}
  | (inr None, w1) => {| outcome := inr tt; runnable_after := None; world_after := w1 |}
  | (inr (Some r), w1) => debugSingle config document (Some r) stdout w1
  end.

End DebugSingle.

(** ** Reference definitions

    The behaviour as the specification words it, for comparison with the
    definitions above. *)

(** [executableArgs] "with its first element wrapped in single quotes and
    all other elements unchanged". *)
Definition quote_first (l : list string) : list string :=
  match l with
  | [] => []
  | first :: others => single_quoted first :: others
  end.

(** "[webbyArgs] exactly" when [executableArgs] is empty, otherwise
    "[webbyArgs + ['--'] + executableArgs']". *)
Definition spec_webby_args (a : WebbyRunnableArgs) : list string :=
  match executableArgs a with
  | [] => webbyArgs a
  | _ :: _ => webbyArgs a ++ ["--"] ++ quote_first (executableArgs a)
  end.

(** "[program] followed by [args] joined with single spaces". *)
Definition spec_shell_command (a : ShellRunnableArgs) : string :=
  program a +:+ " " +:+ join " " (args a).

(** The runnable object after an in-place quoting of [executableArgs[0]]. *)
Definition quoted_in_place (r : Runnable) : Runnable :=
  match variant r with
  | RunnableWebby a =>
      set_variant
        (RunnableWebby (set_executableArgs (quote_first (executableArgs a)) a)) r
  | RunnableShell _ => r
  end.

(** The two debug rewrites, by cases on the first token. *)
Definition rewritten (args : list string) : list string :=
  match args with
  | [] => []
  | first :: others =>
      if String.eqb first "test" then first :: others ++ ["--no-run"]
      else if String.eqb first "run" then "build" :: others
      else first :: others
  end.

(** "applied only for [webby] runnables": a [shell] runnable's [args] would
    reach the build tool with only the output flag appended. *)
Definition spec_debug_args (r : Runnable) : list string :=
  match variant r with
  | RunnableWebby a => rewritten (spec_webby_args a) ++ ["--message-format=json"]
  | RunnableShell a => args a ++ ["--message-format=json"]
  end.

(** Texts typed into terminals, and commands spawned, along a trace. *)
Definition sent_texts (tr : list Event) : list string :=
  omap (fun e => match e with TerminalSendText _ text => Some text | _ => None end) tr.

Definition spawned (tr : list Event) : list (string * list string) :=
  omap (fun e => match e with Spawn c a => Some (c, a) | _ => None end) tr.

(** *** The expected-kind/expected-name filter, as the specification words it *)






(** *** Build-tool messages, as the specification words them *)

(** [m.a.b...], [undefined] as soon as a step is absent. *)
Fixpoint field (m : JSValue) (path : list string) : JSValue :=
  match path with
  | [] => m
  | k :: rest =>
      match m with
      | JObject properties => field (default JUndefined (own_property k properties)) rest
      | _ => JUndefined
      end
  end.

Definition is_artifact (m : JSValue) : bool :=
  strict_equals_string (field m ["reason"]) "compiler-artifact".

(** "[target.kind] contains [expectedKind]". *)
Definition contains (v : JSValue) (s : string) : bool :=
  match v with
  | JArray elements => existsb (fun e => strict_equals_string e s) elements
  | JString t => string_includes t s
  | _ => false
  end.

Definition passes_kind (expectedKind : option string) (m : JSValue) : bool :=
  match expectedKind with
  | None => true
  | Some k => contains (field m ["target"; "kind"]) k
  end.

Definition passes_name (expectedName : option string) (m : JSValue) : bool :=
  match expectedName with
  | None => true
  | Some n => strict_equals_string (field m ["target"; "name"]) n
  end.

(** An artifact message that passes both filters and carries a non-empty
    [executable]. *)
Definition qualifies (expectedKind expectedName : option string) (m : JSValue) : bool :=
  is_artifact m && passes_kind expectedKind m && passes_name expectedName m
  && truthy (field m ["executable"]).

Definition nullish (v : JSValue) : bool :=
  match v with
  | JUndefined | JNull => true
  | _ => false
  end.

Definition is_object (v : JSValue) : bool :=
  match v with
  | JObject _ => true
  | _ => false
  end.

Definition array_or_string (v : JSValue) : bool :=
  match v with
  | JArray _ | JString _ => true
  | _ => false
  end.

(** The value an iteration converts to a string when it skips a message
    with a log entry: the [reason] of a message that is not an artifact,
    the [target.kind] of an artifact of another kind, the [target.name] of
    an artifact of another name. *)
Definition logged_value (expectedKind expectedName : option string) (m : JSValue)
  : option JSValue :=
  if negb (is_artifact m) then Some (field m ["reason"])
  else if negb (passes_kind expectedKind m) then Some (field m ["target"; "kind"])
  else if negb (passes_name expectedName m) then Some (field m ["target"; "name"])
  else None.

(** The parsed values on which an iteration of the scan throws: [null]; an
    artifact message whose [target.kind] is not an array or string while a
    kind filter is set, or whose [target] is absent or [null] while only a
    name filter is set; and a message skipped with a log entry whose logged
    value cannot be converted to a string. *)
Definition throws_on (expectedKind expectedName : option string) (m : JSValue) : bool :=
  nullish m ||
  (is_artifact m &&
   match expectedKind, expectedName with
   | Some _, _ => negb (array_or_string (field m ["target"; "kind"]))
   | None, Some _ => nullish (field m ["target"])
   | None, None => false
   end) ||
  match logged_value expectedKind expectedName m with
  | Some v => conversion_throws v
  | None => false
  end.

(** "a compiler-artifact message lacking a [target] object". *)
Definition lacks_target_object (m : JSValue) : bool :=
  is_artifact m && negb (is_object (field m ["target"])).

Section StreamSpecification.

Variable JSON_parse : string -> option JSValue.

(** The executable a line contributes, if its message qualifies. *)
Definition line_executable (expectedKind expectedName : option string)
    (line : string) : option JSValue :=
  if String.eqb line "" then None
  else
    m ← JSON_parse line;
    if qualifies expectedKind expectedName m
    then Some (field m ["executable"]) else None.

(** A line on which the scan throws. *)
Definition line_throws (expectedKind expectedName : option string)
    (line : string) : bool :=
  negb (String.eqb line "") &&
  match JSON_parse line with
  | Some m => throws_on expectedKind expectedName m
  | None => false
  end.

(** The lines before the first qualifying one (all of them if there is
    none): the lines the scan has to get past. *)
Fixpoint lines_before (expectedKind expectedName : option string)
    (lines : list string) : list string :=
  match lines with
  | [] => []
  | line :: rest =>
      match line_executable expectedKind expectedName line with
      | Some _ => []
      | None => line :: lines_before expectedKind expectedName rest
      end
  end.

(** "The first artifact message that passes both filters and carries a
    non-empty [executable] terminates the scan; if the stream ends with no
    qualifying message, the operation fails fatally". *)
Fixpoint spec_resolution (expectedKind expectedName : option string)
    (lines : list string) : Exn + (JSValue * list string) :=
  match lines with
  | [] => inl (Error "Could not find executable")
  | line :: rest =>
      match line_executable expectedKind expectedName line with
      | Some executable => inr (executable, rest)
      | None => spec_resolution expectedKind expectedName rest
      end
  end.

End StreamSpecification.

(** *** Debug runtimes *)

Inductive Strategy :=
  | Termdebug
  | Vimspector
  | NvimDap.


(** The strategy an editor call belongs to. *)
Definition strategy_of_event (e : Event) : option Strategy :=
  match e with
  | NvimCommand _ => Some Termdebug
  | NvimCall _ _ => Some Vimspector
  | NvimLua _ => Some NvimDap
  | _ => None
  end.

(** *** The run-terminal slot *)

(** Terminals created and not yet disposed after a trace. *)
Definition step_open (open : list Terminal) (e : Event) : list Terminal :=
  match e with
  | CreateTerminal _ t => open ++ [t]
  | TerminalDispose t => filter (fun u => u <> t) open
  | _ => open
  end.

Definition open_terminals (tr : list Event) : list Terminal :=
  fold_left step_open tr [].

(** How many times [t] is disposed along a trace. *)
Definition is_dispose_of (t : Terminal) (e : Event) : bool :=
  match e with
  | TerminalDispose u => Nat.eqb u t
  | _ => false
  end.

Definition disposals (t : Terminal) (tr : list Event) : nat :=
  length (List.filter (is_dispose_of t) tr).

Record Invocation := {
  inv_config : Config;
  inv_document : TextDocument;
  inv_runnable : option Runnable
}.

(** Successive invocations of [runSingle], each run to completion. *)
Definition run_all (invocations : list Invocation) (w : World) : World :=
  fold_left
    (fun w i => world_after (runSingle (inv_config i) (inv_document i) (inv_runnable i) w))
    invocations w.

(** The events one completed [runSingle] adds to the trace. *)
Definition run_events (config : Config) (r : Runnable) (w : World) : list Event :=
  match terminal w with Some old => [TerminalDispose old] | None => [] end
  ++ [CreateTerminal {| opt_name := label r; opt_cwd := runnable_cwd r |} (fresh w);
      TerminalSendText (fresh w)
        (command_line r (snd (construct_args r)))]
  ++ (if terminal_startinsert config then [NvimCommand "startinsert"] else []).

(** *** Preconditions of the commands *)

(** "wrong document type, empty runnable list, user cancelled picker". *)
Definition precondition_not_met (document : TextDocument)
    (server : Exn + list Runnable) (picked : Z) : Prop :=
  isWgslDocument document = false
  \/ server = inr []
  \/ ((exists runnables, server = inr runnables) /\ picked = (-1)%Z).

(** Pickers presented, and error messages shown, along a trace.  No command
    modelled here calls [window.showErrorMessage], so no event stands for
    it. *)
Definition presented (tr : list Event) : list (list string) :=
  omap (fun e => match e with ShowQuickpick labels => Some labels | _ => None end) tr.



(** No line of the stream carries a qualifying message. *)
Definition none_qualifies (JSON_parse : string -> option JSValue)
    (expectedKind expectedName : option string) (lines : list string) : bool :=
  forallb
    (fun line =>
       match line_executable JSON_parse expectedKind expectedName line with
       | Some _ => false
       | None => true
       end) lines.

(** No line that the scan has to get past makes it throw. *)
Definition readable (JSON_parse : string -> option JSValue)
    (expectedKind expectedName : option string) (lines : list string) : bool :=
  forallb (fun line => negb (line_throws JSON_parse expectedKind expectedName line))
    (lines_before JSON_parse expectedKind expectedName lines).

(** At every point along [tr], started with the terminals [open], at most
    one terminal is open. *)
Fixpoint always_at_most_one (open : list Terminal) (tr : list Event) : Prop :=
  length open <= 1 /\
  match tr with
  | [] => True
  | e :: rest => always_at_most_one (step_open open e) rest
  end.

(** The handles mentioned along a trace were allocated before [bound]. *)
Definition handles_below (bound : Terminal) (tr : list Event) : Prop :=
  Forall
    (fun e =>
       match e with
       | CreateTerminal _ t | TerminalDispose t | TerminalSendText t _ => t < bound
       | _ => True
       end) tr.

(** What holds of the host between two invocations of [runSingle]. *)
Record consistent (w : World) : Prop := {
  slot_is_open : open_terminals (trace w) = option_list (terminal w);
  slot_allocated : forall t, terminal w = Some t -> t < fresh w;
  handles_allocated : handles_below (fresh w) (trace w);
  at_most_one_open :
    forall p, p `prefix_of` trace w -> length (open_terminals p) <= 1;
  disposed_at_most_once : forall t, disposals t (trace w) <= 1;
  slot_not_disposed : forall t, terminal w = Some t -> disposals t (trace w) = 0
}.

(** *** Invocations of [runSingle] that overlap

    [runSingle] is an async function.  It is suspended at
    [await window.createTerminal(opt)], after the slot was cleared and the
    host was asked for a terminal and before the result is assigned to
    [terminal]; while it is suspended another invocation can run. *)

(** What a suspended invocation goes on with when it is resumed: the
    terminal the host made for it, the command line and the configuration. *)
Record Suspended := {
  suspended_terminal : Terminal;
  suspended_cmd : string;
  suspended_config : Config
}.

(** [runSingle] up to the [await] of [window.createTerminal(opt)]; [None]
    when it returned before. *)
Definition runSingle_start (config : Config) (document : TextDocument)
    (runnable : option Runnable) (w : World) : option Suspended * World :=
  match runnable with
  | None => (None, w)
  | Some r =>
      if negb (isWgslDocument document) then (None, w)
      else
        let '(r', args) := construct_args r in
        let cmd := command_line r' args in
        let opt := {| opt_name := label r'; opt_cwd := runnable_cwd r' |} in
        let w1 :=
          match terminal w with
          | Some old => set_terminal None (emit (TerminalDispose old) w)
          | None => w
          end in
        let '(t, w2) := createTerminal opt w1 in
        (Some {| suspended_terminal := t; suspended_cmd := cmd;
                 suspended_config := config |}, w2)
  end.

(** [runSingle] from the assignment [terminal = ...] to its end. *)
Definition runSingle_resume (s : Suspended) (w : World) : World :=
  let t := suspended_terminal s in
  let w3 := set_terminal (Some t) w in
  let w4 := emit (TerminalSendText t (suspended_cmd s)) w3 in
  if terminal_startinsert (suspended_config s)
  then emit (NvimCommand "startinsert") w4 else w4.

(** A step of the event loop: an invocation starts and runs up to its
    [await], or the [k]-th of the suspended invocations, the oldest being
    number 0, is resumed. *)
Inductive Step :=
  | Start (i : Invocation)
  | Resume (k : nat).

Definition step (state : World * list Suspended) (s : Step)
  : World * list Suspended :=
  let '(w, suspended) := state in
  match s with
  | Start i =>
      match runSingle_start (inv_config i) (inv_document i) (inv_runnable i) w with
      | (Some p, w') => (w', suspended ++ [p])
      | (None, w') => (w', suspended)
      end
  | Resume k =>
      match suspended !! k with
      | Some p => (runSingle_resume p w, delete k suspended)
      | None => (w, suspended)
      end
  end.

Definition schedule (steps : list Step) (w : World) : World * list Suspended :=
  fold_left step steps (w, []).

(** The schedule in which no two invocations overlap. *)
Definition one_by_one (invocations : list Invocation) : list Step :=
  flat_map (fun i => [Start i; Resume 0]) invocations.

(** ** Concrete inputs used in examples *)

Definition wgsl_document : TextDocument :=
  {| uri := "file:///shader.wgsl"; languageId := "wgsl" |}.

Definition toml_document : TextDocument :=
  {| uri := "file:///webby.toml"; languageId := "toml" |}.

Definition default_config : Config :=
  {| debug_runtime := Some "termdebug";
     vimspectorConfiguration_name := Some "launch";
     nvimdapConfiguration_template := Some "";
     terminal_startinsert := false |}.

Definition common_args : CommonRunnableArgs :=
  {| environment := None; cwd := "/work" |}.

Definition webby_runnable (webby exe : list string) : Runnable :=
  {| label := "webby run"; location := None;
     variant := RunnableWebby
       {| workspaceRoot := None; executableArgs := exe; webbyArgs := webby;
          overrideWebby := None; webby_common := common_args |} |}.

Definition shell_args (prog : string) (l : list string) : ShellRunnableArgs :=
  {| shell_kind := "shell"; program := prog; args := l;
     shell_common := common_args |}.

Definition shell_runnable (prog : string) (l : list string) : Runnable :=
  {| label := "shell"; location := None;
     variant := RunnableShell (shell_args prog l) |}.

(** The lines of the specification's example stream, and some others. *)
Definition line_other : string :=
  "{" +:+ double_quoted "reason" +:+ ":" +:+ double_quoted "other" +:+ "}".

Definition line_artifact : string :=
  "{" +:+ double_quoted "reason" +:+ ":" +:+ double_quoted "compiler-artifact"
  +:+ "," +:+ double_quoted "target" +:+ ":{"
  +:+ double_quoted "kind" +:+ ":[" +:+ double_quoted "bin" +:+ "],"
  +:+ double_quoted "name" +:+ ":" +:+ double_quoted "foo" +:+ "},"
  +:+ double_quoted "executable" +:+ ":" +:+ double_quoted "/x" +:+ "}".

Definition line_artifact_without_target : string :=
  "{" +:+ double_quoted "reason" +:+ ":" +:+ double_quoted "compiler-artifact"
  +:+ "," +:+ double_quoted "executable" +:+ ":" +:+ double_quoted "/x" +:+ "}".

Definition message_other : JSValue :=
  JObject [("reason", JString "other")].

Definition message_artifact : JSValue :=
  JObject [("reason", JString "compiler-artifact");
           ("target", JObject [("kind", JArray [JString "bin"]);
                               ("name", JString "foo")]);
           ("executable", JString "/x")].

Definition message_artifact_without_target : JSValue :=
  JObject [("reason", JString "compiler-artifact");
           ("executable", JString "/x")].

(** An artifact message whose [executable] is an object with a property
    named [toString], and a message whose [reason] is such an object. *)
Definition line_artifact_unprintable : string :=
  "{" +:+ double_quoted "reason" +:+ ":" +:+ double_quoted "compiler-artifact"
  +:+ "," +:+ double_quoted "target" +:+ ":{"
  +:+ double_quoted "kind" +:+ ":[" +:+ double_quoted "bin" +:+ "],"
  +:+ double_quoted "name" +:+ ":" +:+ double_quoted "foo" +:+ "},"
  +:+ double_quoted "executable" +:+ ":{" +:+ double_quoted "toString" +:+ ":0}}".

Definition message_artifact_unprintable : JSValue :=
  JObject [("reason", JString "compiler-artifact");
           ("target", JObject [("kind", JArray [JString "bin"]);
                               ("name", JString "foo")]);
           ("executable", JObject [("toString", JNumber 0)])].

Definition line_unprintable_reason : string :=
  "{" +:+ double_quoted "reason" +:+ ":{" +:+ double_quoted "toString" +:+ ":0}}".

Definition message_unprintable_reason : JSValue :=
  JObject [("reason", JObject [("toString", JNumber 0)])].

(** [JSON.parse] on the lines used in the examples; every other line that
    occurs in them is not JSON. *)
Definition JSON_parse_examples (line : string) : option JSValue :=
  if String.eqb line "null" then Some JNull
  else if String.eqb line "true" then Some (JBool true)
  else if String.eqb line line_other then Some message_other
  else if String.eqb line line_artifact then Some message_artifact
  else if String.eqb line line_artifact_without_target
       then Some message_artifact_without_target
  else if String.eqb line line_artifact_unprintable
       then Some message_artifact_unprintable
  else if String.eqb line line_unprintable_reason
       then Some message_unprintable_reason
  else None.

(** The text of the string conversion on the values the examples convert:
    no example converts a number or an array. *)
Definition ToString_examples (v : JSValue) : string :=
  match v with
  | JString s => s
  | JUndefined => "undefined"
  | JNull => "null"
  | JBool true => "true"
  | JBool false => "false"
  | JObject _ => "[object Object]"
  | JNumber _ | JArray _ => ""
  end.

(** [GetSubstitution] of [String.prototype.replace] for a string pattern:
    there are no captures, so of the [$] patterns of the replacement only
    [$$], [$&], [$`] and [$'] are expanded, to a dollar sign, the matched
    text, the text before the match and the text after it; a [$] followed
    by anything else stands for itself. *)
Fixpoint GetSubstitution (matched before after replacement : string) : string :=
  match replacement with
  | EmptyString => EmptyString
  | String c tail =>
      if Ascii.eqb c "$" then
        match tail with
        | String d rest =>
            if Ascii.eqb d "$"
            then String "$" (GetSubstitution matched before after rest)
            else if Ascii.eqb d "&"
            then matched +:+ GetSubstitution matched before after rest
            else if Ascii.eqb d "`"
            then before +:+ GetSubstitution matched before after rest
            else if Ascii.eqb d "'"
            then after +:+ GetSubstitution matched before after rest
            else String c (GetSubstitution matched before after tail)
        | EmptyString => String c EmptyString
        end
      else String c (GetSubstitution matched before after tail)
  end.

(** [String.prototype.replace] for a string pattern: the first occurrence
    is replaced by the substitution; [before] is the text already passed. *)
Fixpoint replace_from (before s pattern replacement : string) : string :=
  if String.prefix pattern s
  then
    let after :=
      String.substring (String.length pattern)
        (String.length s - String.length pattern) s in
    GetSubstitution pattern before after replacement +:+ after
  else match s with
       | EmptyString => EmptyString
       | String c rest =>
           String c (replace_from (before +:+ String c EmptyString) rest
                       pattern replacement)
       end.

Definition replace_first (s pattern replacement : string) : string :=
  replace_from EmptyString s pattern replacement.

Definition gdb_config : Config :=
  {| debug_runtime := Some "gdb";
     vimspectorConfiguration_name := Some "launch";
     nvimdapConfiguration_template := Some "";
     terminal_startinsert := false |}.

Definition nvim_dap_config : Config :=
  {| debug_runtime := Some "nvim-dap";
     vimspectorConfiguration_name := None;
     nvimdapConfiguration_template := Some "{program=$exe, args=$args}";
     terminal_startinsert := false |}.

(** An invocation on a WGSL document with the runnable [r]. *)
Definition invoke (config : Config) (r : Runnable) : Invocation :=
  {| inv_config := config; inv_document := wgsl_document; inv_runnable := Some r |}.

(** ** Further commands of the same file *)

(** [testCurrent]: run the first runnable whose label starts with
    [webby test]. *)
Definition is_test_runnable (r : Runnable) : bool :=
  String.prefix "webby test" (label r).

Definition testCurrent (config : Config) (document : TextDocument)
    (server : Exn + list Runnable) (w : World) : Completion :=
  match fetchRunnable document server w with
  | (inl e, w1) => {| outcome := inl e; runnable_after := None; world_after := w1 |}
  | (inr runnables, w1) =>
      if Nat.eqb (length runnables) 0 then
        {| outcome := inr tt; runnable_after := None;
           world_after := emit (ShowInformationMessage "No runnables found") w1 |}
      else
        match List.find is_test_runnable runnables with
        | None => {| outcome := inr tt; runnable_after := None; world_after := w1 |}
        | Some testRunnable => runSingle config document (Some testRunnable) w1
        end
  end.

(** [echoRunCommandLine]: besides the host and the runnable object, the
    calls to [window.echoLines] are returned. *)
Record Echo := {
  echo_outcome : Exn + unit;
  echo_lines : list (list string);
  echo_runnable_after : option Runnable;
  echo_world_after : World
}.

Definition echoRunCommandLine (document : TextDocument)
    (server : Exn + list Runnable) (picked : Z) (w : World) : Echo :=
  match pickRunnable document server picked w with
  | (inl e, w1) =>
      {| echo_outcome := inl e; echo_lines := [];
         echo_runnable_after := None; echo_world_after := w1 |}
  | (inr None, w1) =>
      {| echo_outcome := inr tt; echo_lines := [];
         echo_runnable_after := None; echo_world_after := w1 |}
  | (inr (Some r), w1) =>
      let '(r', args) := construct_args r in
      let commandLine := join " " ("webby" :: args) in
      {| echo_outcome := inr tt; echo_lines := [[commandLine]];
         echo_runnable_after := Some r'; echo_world_after := w1 |}
  end.

(** A token that a join with spaces followed by a split on spaces and the
    removal of empty pieces gives back: not empty and free of spaces. *)
Fixpoint has_space (s : string) : bool :=
  match s with
  | EmptyString => false
  | String c rest => Ascii.eqb c " "%char || has_space rest
  end.

Definition plain_token (s : string) : bool :=
  negb (String.eqb s "") && negb (has_space s).

(** The tags the first loop can assign. *)
Definition kind_tags : list string := ["bin"; "lib"; "test"; "example"; "bench"].

(** ** Release lookup and download ([downloader.ts])

    [process.arch], [process.platform] and the standard error of
    [ldd --version] are the [Host]; [fetch] is the network. *)
Module Release.

Record Asset := { asset_name : string; browser_download_url : string }.

Record GithubRelease := {
  tag_name : string;
  published_at : string;
  assets : list Asset
}.

Record ReleaseTag := {
  tag : string;
  url : string;
  name : string;
  asset : option Asset
}.

Record Host := {
  arch : string;
  platform : string;
  ldd_stderr : option string
}.

(** [isMusl]: [result.stderr != null && result.stderr.indexOf('musl libc') >= 0] *)
Definition isMusl (h : Host) : bool :=
  match ldd_stderr h with
  | Some err => string_includes err "musl libc"
  | None => false
  end.

Definition platforms : list (string * string) :=
  [("ia32 win32", "x86_64-pc-windows-msvc");
   ("x64 win32", "x86_64-pc-windows-msvc");
   ("x64 linux", "x86_64-unknown-linux-gnu");
   ("x64 darwin", "x86_64-apple-darwin");
   ("arm linux", "arm-unknown-linux-gnueabihf");
   ("arm64 win32", "aarch64-pc-windows-msvc");
   ("arm64 linux", "aarch64-unknown-linux-gnu");
   ("arm64 darwin", "aarch64-apple-darwin")].

(** [platforms[key]] *)
Definition platforms_get (key : string) : option string :=
  snd <$> List.find (fun entry => String.eqb (fst entry) key) platforms.

Definition getPlatform (h : Host) : option string :=
  match platforms_get (arch h +:+ " " +:+ platform h) with
  | Some p =>
      if String.eqb p "x86_64-unknown-linux-gnu" && isMusl h
      then Some "x86_64-unknown-linux-musl"
      else Some p
  | None => None
  end.

(** [String.prototype.endsWith] *)
Fixpoint endsWith (s suffix : string) : bool :=
  String.eqb s suffix ||
  match s with
  | EmptyString => false
  | String _ rest => endsWith rest suffix
  end.

(** What [fetch] resolves to: [response.ok], and the results of
    [await response.text()] and [await response.json()], either of which
    can be rejected. *)
Record Response := {
  ok : bool;
  text : Exn + string;
  json : Exn + GithubRelease
}.

Definition releaseURL (updatesChannel : string) : string :=
  if String.eqb updatesChannel "nightly"
  then "https://api.github.com/repos/wgsl-analyzer/wgsl-analyzer/releases/tags/nightly"
  else "https://api.github.com/repos/wgsl-analyzer/wgsl-analyzer/releases/latest".

Definition suffix_of (h : Host) : string :=
  if String.eqb (platform h) "win32" then "zip" else "gz".

Definition getLatestRelease (h : Host) (fetch : string -> Exn + Response)
    (updatesChannel : string) : Exn + option ReleaseTag :=
  response <- fetch (releaseURL updatesChannel) ;;
  if negb (ok response) then
    (* console.error(await response.text()); return; *)
    _ <- text response ;;
    inr None
  else
    release <- json response ;;
    match getPlatform h with
    | None => inr None
    | Some p =>
        let suffix := suffix_of h in
        match List.find
                (fun val => endsWith (browser_download_url val) (p +:+ "." +:+ suffix))
                (assets release) with
        | None => inr None
        | Some a =>
            let t :=
              if String.eqb updatesChannel "nightly"
              then tag_name release +:+ " "
                   +:+ String.substring 0 10 (published_at release)
              else tag_name release in
            let n := if String.eqb (platform h) "win32"
                     then "wgsl-analyzer.exe" else "wgsl-analyzer" in
            inr (Some {| asset := Some a; tag := t;
                         url := browser_download_url a; name := n |})
        end
    end.

End Release.

(** A host, a release and a network for the examples. *)
Definition musl_host : Release.Host :=
  {| Release.arch := "x64"; Release.platform := "linux";
     Release.ldd_stderr := Some "musl libc (x86_64)" |}.

Definition windows_asset : Release.Asset :=
  {| Release.asset_name := "wgsl-analyzer-x86_64-pc-windows-msvc.zip";
     Release.browser_download_url :=
       "https://example.org/wgsl-analyzer-x86_64-pc-windows-msvc.zip" |}.

Definition musl_asset : Release.Asset :=
  {| Release.asset_name := "wgsl-analyzer-x86_64-unknown-linux-musl.gz";
     Release.browser_download_url :=
       "https://example.org/wgsl-analyzer-x86_64-unknown-linux-musl.gz" |}.

Definition example_release : Release.GithubRelease :=
  {| Release.tag_name := "nightly";
     Release.published_at := "2025-03-04T05:06:07Z";
     Release.assets := [windows_asset; musl_asset] |}.

Definition example_fetch (_ : string) : Exn + Release.Response :=
  inr {| Release.ok := true; Release.text := inr "";
         Release.json := inr example_release |}.

Definition example_latest : Release.ReleaseTag :=
  {| Release.tag := "nightly 2025-03-04";
     Release.url := "https://example.org/wgsl-analyzer-x86_64-unknown-linux-musl.gz";
     Release.name := "wgsl-analyzer";
     Release.asset := Some musl_asset |}.

(** ** Server resolution and updates ([Ctx] of [ctx.ts])

    [installServerFromGitHub], [checkUpdate] and [resolveBin], called by the
    [install], [upgrade] and [serverVersion] commands.  The calls on the
    language client, the editor and the extension's global state are logged
    in order. *)
Module Ctx.

(** [updates.prompt]: [true], [false] or ['neverDownload']. *)
Inductive Prompt :=
  | PromptTrue
  | PromptFalse
  | NeverDownload.

Record Settings := {
  serverPath : option string;
  checkOnStartup : bool;
  prompt : Prompt;
  channel : string
}.

Inductive Event :=
  | GetLatestRelease (updatesChannel : string)
  | ShowInformationMessage (msg : string) (severity : option string)
  | ShowQuickpick (items : list string) (title : string)
  | ClientStop
  | ClientStart
  | DownloadServer (tag : string)
  | VscodeOpen (target : string)
  | GlobalStateUpdate (tag : string).

(** [usingSystemServer], the value stored under [release] in the global
    state, and the log. *)
Record State := {
  usingSystemServer : bool;
  stored_release : option string;
  log : list Event
}.

Definition emit (e : Event) (st : State) : State :=
  {| usingSystemServer := usingSystemServer st;
     stored_release := stored_release st;
     log := log st ++ [e] |}.

(** [globalState.update('release', tag)] *)
Definition update_release (t : string) (st : State) : State :=
  {| usingSystemServer := usingSystemServer st;
     stored_release := Some t;
     log := log st ++ [GlobalStateUpdate t] |}.

(** Truthiness of a string setting: set and not empty. *)
Definition set_string (s : option string) : bool :=
  match s with
  | Some t => negb (String.eqb t "")
  | None => false
  end.

(** What makes [downloadServer] throw: the [code] of the error, if any. *)
Record Failure := { code : option string }.

(** [downloadServer] as its callers see it.  The network and file-system
    steps are summarised by [failed], the error they end in if any; they all
    precede [globalState.update('release', release.tag)], which only the
    path for platforms other than win32 reaches. *)
Definition downloadServer (h : Release.Host) (failed : option Failure)
    (release : Release.ReleaseTag) (st : State) : (Failure + unit) * State :=
  let st1 := emit (DownloadServer (Release.tag release)) st in
  match failed with
  | Some failure => (inl failure, st1)
  | None =>
      (inr tt,
       if String.eqb (Release.platform h) "win32" then st1
       else update_release (Release.tag release) st1)
  end.

Definition busy (f : Failure) : bool :=
  match code f with
  | Some c => String.eqb c "EBUSY" || String.eqb c "ETXTBSY" || String.eqb c "EPERM"
  | None => false
  end.

Definition failure_message (verb : string) (f : Failure) : string :=
  if busy f
  then verb +:+ " wgsl-analyzer failed, other Vim instances might be using it, you should close them and try again"
  else verb +:+ " wgsl-analyzer failed, please try again".

Section Update.

Variable h : Release.Host.
Variable fetch : string -> Exn + Release.Response.
(** The error, if any, in which downloading a release ends. *)
Variable download : Release.ReleaseTag -> option Failure.

Definition installServerFromGitHub (settings : Settings) (st : State)
  : (Exn + unit) * State :=
  let st0 := emit (GetLatestRelease (channel settings)) st in
  match Release.getLatestRelease h fetch (channel settings) with
  | inl e => (inl e, st0)
  | inr None => (inr tt, st0)
  | inr (Some latest) =>
      let st1 := if String.eqb (Release.platform h) "win32"
                 then emit ClientStop st0 else st0 in
      match downloadServer h (download latest) latest st1 with
      | (inl failure, st2) =>
          (inr tt,
           emit (ShowInformationMessage (failure_message "Install" failure)
                   (Some "error")) st2)
      | (inr _, st2) =>
          (inr tt,
           update_release (Release.tag latest) (emit ClientStart (emit ClientStop st2)))
      end
  end.

(** [globalState.get('release') || 'unknown release'] *)
Definition old_release (st : State) : string :=
  if set_string (stored_release st)
  then default "unknown release" (stored_release st)
  else "unknown release".

(** [picked] is the answer of the picker, when it is shown. *)
Definition checkUpdate (settings : Settings) (picked : Z) (auto : bool)
    (st : State) : (Exn + unit) * State :=
  if set_string (serverPath settings) || usingSystemServer st then (inr tt, st)
  else if auto && negb (checkOnStartup settings) then (inr tt, st)
  else
    let st0 := emit (GetLatestRelease (channel settings)) st in
    match Release.getLatestRelease h fetch (channel settings) with
    | inl e => (inl e, st0)
    | inr None => (inr tt, st0)
    | inr (Some latest) =>
        let old := old_release st0 in
        if String.eqb old (Release.tag latest) then
          (inr tt,
           if negb auto
           then emit (ShowInformationMessage
                        "Your wgsl-analyzer release is updated" None) st0
           else st0)
        else
          let msg :=
            "wgsl-analyzer has a new release: " +:+ Release.tag latest
            +:+ ", you're using " +:+ old
            +:+ ". Would you like to download from GitHub" in
          let '(ret, st1) :=
            match prompt settings with
            | PromptTrue =>
                (picked,
                 emit (ShowQuickpick
                         ["Yes, download the latest wgsl-analyzer";
                          "Check GitHub releases"; "Cancel"] msg) st0)
            | PromptFalse | NeverDownload => (0%Z, st0)
            end in
          if (ret =? 0)%Z then
            let st2 := if String.eqb (Release.platform h) "win32"
                       then emit ClientStop st1 else st1 in
            match downloadServer h (download latest) latest st2 with
            | (inl failure, st3) =>
                (inr tt,
                 emit (ShowInformationMessage (failure_message "Upgrade" failure)
                         (Some "error")) st3)
            | (inr _, st3) =>
                (inr tt,
                 update_release (Release.tag latest)
                   (emit ClientStart (emit ClientStop st3)))
            end
          else if (ret =? 1)%Z then
            (inr tt,
             emit (VscodeOpen
                     "https://github.com/wgsl-analyzer/wgsl-analyzer/releases") st1)
          else (inr tt, st1)
    end.

End Update.

(** The file system and the [PATH], as [resolveBin] sees them. *)
Record Files := {
  storagePath : string;
  path_join : string -> string -> string;
  expand : string -> string;
  which : string -> option string;
  existsSync : string -> bool;
  version_stderr : string -> string;
  trim : string -> string
}.

Definition executableName (h : Release.Host) : string :=
  if String.eqb (Release.platform h) "win32"
  then "wgsl-analyzer.exe" else "wgsl-analyzer".

(** The value of [bin] before [existsSync(bin)]: the configured server when
    [which] finds it, the bundled one otherwise. *)
Definition candidate (h : Release.Host) (fs : Files) (settings : Settings) : string :=
  let bin := path_join fs (storagePath fs) (executableName h) in
  match serverPath settings with
  | Some configured =>
      if negb (String.eqb configured "") then
        match which fs (expand fs configured) with
        | Some found => if negb (String.eqb found "") then found else bin
        | None => bin
        end
      else bin
  | None => bin
  end.

Definition resolveBin (h : Release.Host) (fs : Files) (settings : Settings)
    (st : State) : option string * State :=
  let bin := candidate h fs settings in
  if existsSync fs bin then (Some bin, st)
  else
    match which fs (executableName h) with
    | Some systemBin =>
        if negb (String.eqb systemBin "") then
          if (0 <? String.length (trim fs (version_stderr fs systemBin)))%nat
          then (None, st)
          else (Some systemBin,
                {| usingSystemServer := true;
                   stored_release := stored_release st;
                   log := log st |})
        else (None, st)
    | None => (None, st)
    end.

End Ctx.

(** Tags whose download was started along a log. *)
Definition downloads (l : list Ctx.Event) : list string :=
  omap (fun e => match e with Ctx.DownloadServer t => Some t | _ => None end) l.

Definition example_settings : Ctx.Settings :=
  {| Ctx.serverPath := None; Ctx.checkOnStartup := true;
     Ctx.prompt := Ctx.PromptTrue; Ctx.channel := "nightly" |}.

Definition fresh_state : Ctx.State :=
  {| Ctx.usingSystemServer := false; Ctx.stored_release := None; Ctx.log := [] |}.

Definition download_succeeds (_ : Release.ReleaseTag) : option Ctx.Failure := None.

Definition download_busy (_ : Release.ReleaseTag) : option Ctx.Failure :=
  Some {| Ctx.code := Some "ETXTBSY" |}.

(** A machine with no bundled server and a system-wide one on the [PATH]. *)
Definition system_files : Ctx.Files :=
  {| Ctx.storagePath := "/data";
     Ctx.path_join := fun a b => a +:+ "/" +:+ b;
     Ctx.expand := fun p => p;
     Ctx.which := fun n => if String.eqb n "wgsl-analyzer"
                           then Some "/usr/bin/wgsl-analyzer" else None;
     Ctx.existsSync := fun _ => false;
     Ctx.version_stderr := fun _ => "";
     Ctx.trim := fun s => s |}.

(** ** The configuration generator (the script that fills [package.json])

    The settings are a map from setting names to their JSON descriptions;
    [schema] is the parsed output of [wgsl-analyzer --print-config-schema],
    each item given by its [properties]. *)
Module Generate.

Definition not_supported : list string :=
  ["wgsl-analyzer.hover.actions.debug.enable";
   "wgsl-analyzer.hover.actions.enable";
   "wgsl-analyzer.hover.actions.gotoTypeDef.enable";
   "wgsl-analyzer.hover.actions.implementations.enable";
   "wgsl-analyzer.hover.actions.references.enable";
   "wgsl-analyzer.hover.actions.run.enable"].

(** The object [coc_ra_config]: its own properties, which are what
    [Object.keys] and [JSON.stringify] see, and its prototype, which
    starts as [Object.prototype] and can be replaced by an assignment to
    the key [__proto__]. *)
Inductive Prototype :=
  | ObjectPrototype
  | NullPrototype
  | ValuePrototype (v : JSValue).

Record Settings := { own : gmap string JSValue; prototype : Prototype }.

(** Whether a data property named [__proto__] is found on the prototype
    chain before the accessor of [Object.prototype]: a parsed object can
    carry one as an own property, an array cannot. *)
Definition shadows_accessor (proto : Prototype) : bool :=
  match proto with
  | ValuePrototype (JObject properties) =>
      match own_property "__proto__" properties with
      | Some _ => true
      | None => false
      end
  | _ => false
  end.

(** [o[key] = value].  Every property an assignment can meet on the
    prototype chain is a writable data property, so the assignment creates
    or updates an own property, except for [Object.prototype.__proto__],
    an accessor: when the key is [__proto__], the object has no such own
    property and none shadows the accessor, the setter is called, which
    replaces the prototype when the value is an object, an array or [null]
    and does nothing otherwise.  With a [null] prototype nothing is
    inherited and the assignment creates the own property. *)
Definition assign (key : string) (value : JSValue) (o : Settings) : Settings :=
  let created := {| own := <[key := value]> (own o); prototype := prototype o |} in
  if negb (String.eqb key "__proto__") then created
  else
    match own o !! key with
    | Some _ => created
    | None =>
        if shadows_accessor (prototype o) then created
        else
          match prototype o with
          | NullPrototype => created
          | ObjectPrototype | ValuePrototype _ =>
              match value with
              | JObject _ | JArray _ =>
                  {| own := own o; prototype := ValuePrototype value |}
              | JNull => {| own := own o; prototype := NullPrototype |}
              | JUndefined | JBool _ | JNumber _ | JString _ => o
              end
          end
    end.

(** [for (const key in p) { if (!not_supported.includes(key)) coc_ra_config[key] = p[key]; }] *)
Definition merge_item (coc_ra_config : Settings) (p : gmap string JSValue) : Settings :=
  map_fold
    (fun key value config =>
       if bool_decide (key ∈ not_supported) then config
       else assign key value config)
    coc_ra_config p.

(** [for (const item of schema) { ... }], from the configuration as it is
    loaded; the result is its own properties afterwards. *)
Definition merge (schema : list (gmap string JSValue))
    (coc_ra_config : gmap string JSValue) : gmap string JSValue :=
  own (foldl merge_item
         {| own := coc_ra_config; prototype := ObjectPrototype |} schema).

(** The description the schema gives for a setting: that of the last item
    that has it. *)
Definition described (schema : list (gmap string JSValue)) (key : string)
  : option JSValue :=
  foldl (fun found p => match p !! key with Some v => Some v | None => found end)
    None schema.

End Generate.

(** ** [applySnippetWorkspaceEdit] and [countLines]

    The JavaScript string methods used here ([indexOf], [lastIndexOf],
    [length], [substring]) count UTF-16 code units.  A [string] stands for
    a text one character per code unit, which it does for the texts of
    [ascii_text]; a position computed here is the position the source
    computes for such texts only. *)
Module Snippet.

Definition newline : ascii := Ascii.ascii_of_nat 10.

(** [countLines]: [(text.match(/\n/g) || []).length] *)
Fixpoint countLines (text : string) : nat :=
  match text with
  | EmptyString => 0
  | String c rest =>
      (if Ascii.eqb c newline then 1 else 0) + countLines rest
  end.

(** [s.indexOf(pattern)], [None] for [-1]. *)
Fixpoint indexOf (pattern s : string) : option nat :=
  if String.prefix pattern s then Some 0
  else match s with
       | EmptyString => None
       | String _ rest => S <$> indexOf pattern rest
       end.

(** [s.lastIndexOf('\n')], [None] for [-1]. *)
Fixpoint lastIndexOf_newline (s : string) : option nat :=
  match s with
  | EmptyString => None
  | String c rest =>
      match lastIndexOf_newline rest with
      | Some i => Some (S i)
      | None => if Ascii.eqb c newline then Some 0 else None
      end
  end.

(** [s.replaceAll(pattern, replacement)] for a non-empty string [pattern]
    and a [replacement] free of [$] patterns: occurrences are taken from
    left to right and do not overlap.  [skip] counts the characters of an
    occurrence still to be passed over. *)
Fixpoint replaceAll_from (pattern replacement : string) (skip : nat) (s : string)
  : string :=
  match s with
  | EmptyString => EmptyString
  | String c rest =>
      match skip with
      | S k => replaceAll_from pattern replacement k rest
      | O =>
          if String.prefix pattern s
          then replacement
               +:+ replaceAll_from pattern replacement (String.length pattern - 1) rest
          else String c (replaceAll_from pattern replacement 0 rest)
      end
  end.

Definition replaceAll (pattern replacement s : string) : string :=
  replaceAll_from pattern replacement 0 s.

Definition is_digit (c : ascii) : bool :=
  let n := Ascii.nat_of_ascii c in (48 <=? n)%nat && (n <=? 57)%nat.

(** Longest prefix of characters satisfying [p], and what follows it. *)
Fixpoint span (p : ascii -> bool) (s : string) : string * string :=
  match s with
  | EmptyString => (EmptyString, EmptyString)
  | String c rest =>
      if p c then let '(taken, remaining) := span p rest in (String c taken, remaining)
      else (EmptyString, s)
  end.

(** A match of [/\$\{[0-9]+:([^\}]+)\}/] at the start of [s]: the text of
    group 1 and the length of the match. *)
Definition placeholder (s : string) : option (string * nat) :=
  match s with
  | String c1 (String c2 rest) =>
      if Ascii.eqb c1 "$" && Ascii.eqb c2 "{" then
        let '(digits, rest1) := span is_digit rest in
        match digits, rest1 with
        | String _ _, String c3 rest2 =>
            if Ascii.eqb c3 ":" then
              let '(body, rest3) := span (fun c => negb (Ascii.eqb c "}")) rest2 in
              match body, rest3 with
              | String _ _, String _ _ =>
                  Some (body, 2 + String.length digits + 1 + String.length body + 1)
              | _, _ => None
              end
            else None
        | _, _ => None
        end
      else None
  | _ => None
  end.

(** [s.replaceAll(/\$\{[0-9]+:([^\}]+)\}/g, '$1')] *)
Fixpoint strip_placeholders_from (skip : nat) (s : string) : string :=
  match s with
  | EmptyString => EmptyString
  | String c rest =>
      match skip with
      | S k => strip_placeholders_from k rest
      | O =>
          match placeholder s with
          | Some (body, matched) => body +:+ strip_placeholders_from (matched - 1) rest
          | None => String c (strip_placeholders_from 0 rest)
          end
      end
  end.

Definition strip_placeholders (s : string) : string := strip_placeholders_from 0 s.

Record TextEdit := { range : Range; newText : string }.

(** An element of [documentChanges]: a [TextDocumentEdit], or a file
    operation ([create], [rename], [delete]). *)
Inductive DocumentChange :=
  | TextDocumentEdit (textDocument_uri : string) (edits : list TextEdit)
  | FileOperation (kind : string).

Record WorkspaceEdit := { documentChanges : option (list DocumentChange) }.

Inductive Event :=
  | LoadFile (uri : string)
  | JumpTo (uri : string)
  | ApplyEdit (uri : string) (edits : list TextEdit)
  | MoveTo (position : Position).

(** [indel.newText.replaceAll('\\}', '}').replaceAll(/\$\{[0-9]+:([^\}]+)\}/g, '$1')] *)
Definition parsed (indel : TextEdit) : string :=
  strip_placeholders (replaceAll "\}" "}" (newText indel)).

(** The position assigned in one iteration over [change.edits], if any. *)
Definition cursor (indel : TextEdit) : option Position :=
  match indexOf "$0" (parsed indel) with
  | Some index0 =>
      let prefix := String.substring 0 index0 (parsed indel) in
      let lastNewline := lastIndexOf_newline prefix in
      let l := line (range_start (range indel)) + countLines prefix in
      let col :=
        match lastNewline with
        | None => character (range_start (range indel)) + index0
        | Some n => String.length prefix - n - 1
        end in
      Some {| line := l; character := col |}
  | None => None
  end.

Definition new_edit (indel : TextEdit) : TextEdit :=
  {| range := range indel; newText := replaceAll "$0" "" (parsed indel) |}.

(** [position] after the loop, from its value before. *)
Definition final_position (position : option Position) (edits : list TextEdit)
  : option Position :=
  foldl (fun position indel =>
           match cursor indel with
           | Some p => Some p
           | None => position
           end) position edits.

(** [current] is the URI of [workspace.document]. *)
Definition applySnippetWorkspaceEdit (current : string) (edit : option WorkspaceEdit)
  : list Event :=
  match edit with
  | None => []
  | Some e =>
      match documentChanges e with
      | None | Some [] => []
      | Some (FileOperation _ :: _) => []
      | Some (TextDocumentEdit uri edits :: _) =>
          (if negb (String.eqb current uri) then [LoadFile uri; JumpTo uri] else [])
          ++ [ApplyEdit uri (map new_edit edits)]
          ++ match final_position None edits with
             | Some p => [MoveTo p]
             | None => []
             end
      end
  end.

(** Where the end of [text] lands when [text] is typed at [p]. *)
Fixpoint advance (p : Position) (text : string) : Position :=
  match text with
  | EmptyString => p
  | String c rest =>
      advance
        (if Ascii.eqb c newline
         then {| line := S (line p); character := 0 |}
         else {| line := line p; character := S (character p) |})
        rest
  end.

(** A text every character of which is below U+0080. *)
Fixpoint ascii_text (s : string) : bool :=
  match s with
  | EmptyString => true
  | String c rest => (Ascii.nat_of_ascii c <? 128)%nat && ascii_text rest
  end.

End Snippet.

(** An edit that inserts a function skeleton at line 3, column 4. *)
Definition snippet_edit : Snippet.TextEdit :=
  {| Snippet.range :=
       {| range_start := {| line := 3; character := 4 |};
          range_end := {| line := 3; character := 4 |} |};
     Snippet.newText :=
       "fn ${1:name}() {" +:+ String Snippet.newline "    $0"
       +:+ String Snippet.newline "}" |}.

(** Whether the character [c] occurs in [s]. *)
Fixpoint has_char (c : ascii) (s : string) : bool :=
  match s with
  | EmptyString => false
  | String c' rest => Ascii.eqb c' c || has_char c rest
  end.

(** An edit without a marker. *)
Definition comment_edit : Snippet.TextEdit :=
  {| Snippet.range :=
       {| range_start := {| line := 0; character := 0 |};
          range_end := {| line := 0; character := 0 |} |};
     Snippet.newText := "// generated" |}.

(** Two edits of one document, the first without a marker, and a further
    document change behind them. *)
Definition snippet_changes : list Snippet.DocumentChange :=
  [ Snippet.TextDocumentEdit "file:///shader.wgsl" [comment_edit; snippet_edit];
    Snippet.FileOperation "create" ].

(** ** [explainError] and [isInRange] *)
Module Explain.

(** The character test compares the position's character with the range's
    end _line_, as the source does. *)
Definition isInRange (range : Range) (position : Position) : bool :=
  let lineWithin :=
    (line (range_start range) <=? line position)%nat
    && (line position <=? line (range_end range))%nat in
  let charWithin :=
    (character (range_start range) <=? character position)%nat
    && (character position <=? line (range_end range))%nat in
  lineWithin && charWithin.

(** [code] is a number or a string when present. *)
Record Diagnostic := { range : Range; code : option JSValue }.

Record Documentation := { content : string; filetype : string }.

Inductive Event :=
  | SpawnSync (command : string) (arguments : list string)
  | FloatShow (docs : list Documentation).

(** [s.split(sep)] for a non-empty string [sep]: occurrences of [sep] are
    taken from left to right and do not overlap.  [skip] counts the
    characters of an occurrence still to be passed over. *)
Fixpoint split_from (sep : string) (skip : nat) (s : string) : list string :=
  match s with
  | EmptyString => [EmptyString]
  | String c rest =>
      match skip with
      | S k => split_from sep k rest
      | O =>
          if String.prefix sep s
          then EmptyString :: split_from sep (String.length sep - 1) rest
          else match split_from sep 0 rest with
               | piece :: more => String c piece :: more
               | [] => [String c EmptyString]
               end
      end
  end.

Definition split (sep s : string) : list string := split_from sep 0 s.

(** The separator [```\n]. *)
Definition fence : string := String "`" (String "`" (String "`" (String Snippet.newline EmptyString))).

(** The loop over the parts, from the value of [isCode] before it. *)
Fixpoint documentation (isCode : bool) (parts : list string) : list Documentation :=
  match parts with
  | [] => []
  | part :: rest =>
      {| content := part; filetype := if isCode then "wgsl" else "markdown" |}
      :: documentation (negb isCode) rest
  end.

Section ExplainError.

(** The template literal [`${code}`] on a number. *)
Variable ToString : JSValue -> string.

(** [spawnSync('wgpu', arguments, ...).stdout]; [None] is the [null] left
    when the process could not be started. *)
Variable stdout : list string -> option string.

Definition code_text (c : JSValue) : string :=
  match c with
  | JString s => s
  | _ => ToString c
  end.

(** [diagnostics] is [ctx.client.diagnostics?.get(document.uri)].  The
    result is the trace and the exception the command ends with, if any. *)
Definition explainError (document : TextDocument) (position : Position)
    (diagnostics : option (list Diagnostic)) : list Event * option Exn :=
  if negb (isWgslDocument document) then ([], None)
  else
    match diagnostics with
    | None => ([], None)
    | Some all =>
        match List.find (fun diagnostic => isInRange (range diagnostic) position) all with
        | None => ([], None)
        | Some diag =>
            match code diag with
            | None => ([], None)
            | Some c =>
                if truthy c then
                  let arguments := ["--explain"; code_text c] in
                  match stdout arguments with
                  | None => ([SpawnSync "wgpu" arguments], Some TypeError)
                  | Some explanation =>
                      ([SpawnSync "wgpu" arguments;
                        FloatShow (documentation false (split fence explanation))],
                       None)
                  end
                else ([], None)
            end
        end
    end.

End ExplainError.

End Explain.

(** A diagnostic on line 2, columns 5 to 9, with the code [E0308]. *)
Definition example_diagnostic : Explain.Diagnostic :=
  {| Explain.range :=
       {| range_start := {| line := 2; character := 5 |};
          range_end := {| line := 2; character := 9 |} |};
     Explain.code := Some (JString "E0308") |}.

Definition example_explanation : string :=
  "Mismatched types." +:+ String Snippet.newline Explain.fence
  +:+ "let x: u32 = 1.0;" +:+ String Snippet.newline Explain.fence
  +:+ "Use a literal of the declared type.".

(** A diagnostic that spans lines 2 to 6, from column 0. *)
Definition low_diagnostic : Explain.Diagnostic :=
  {| Explain.range :=
       {| range_start := {| line := 2; character := 0 |};
          range_end := {| line := 6; character := 1 |} |};
     Explain.code := Some (JString "E0308") |}.

(** ** [resolveCodeAction] *)
Module Resolve.

Record CodeAction := { edit : option Snippet.WorkspaceEdit }.

Inductive Event :=
  | SendRequest (method : string)
  | WorkspaceApplyEdit (documentChanges : option (list Snippet.DocumentChange))
  | Snippet (e : Snippet.Event).

(** ['kind' in change] *)
Definition has_kind (change : Snippet.DocumentChange) : bool :=
  match change with
  | Snippet.FileOperation _ => true
  | Snippet.TextDocumentEdit _ _ => false
  end.

(** [item] is the server's answer to the resolve request and [current] the
    URI of [workspace.document]. *)
Definition resolveCodeAction (current : string) (item : option CodeAction)
  : list Event :=
  [SendRequest "codeAction/resolve"]
  ++ match item with
     | None => []
     | Some i =>
         match edit i with
         | None => []
         | Some e =>
             [WorkspaceApplyEdit (List.filter has_kind <$> Snippet.documentChanges e)]
             ++ map Snippet (Snippet.applySnippetWorkspaceEdit current (Some e))
         end
     end.

End Resolve.

(** ** [Config.onConfigChange] *)
Module Configuration.

Definition rootSection : string := "wgsl-analyzer".

Definition requiresReloadOpts : list string :=
  map (fun option => rootSection +:+ "." +:+ option)
      ["server"; "webby"; "files"; "updates"; "lens"; "inlayHints"].

Inductive Event :=
  | ShowPrompt (title : string)
  | ExecuteCommand (command : string).

(** [affects] is [event.affectsConfiguration], [restart] the setting
    [restartServerOnConfigChange] and [answer] what the user answers to a
    prompt. *)
Definition onConfigChange (affects : string -> bool) (restart : option bool)
    (answer : string -> bool) : list Event :=
  match List.find affects requiresReloadOpts with
  | None => []
  | Some requiresReloadOption =>
      let reload := match restart with Some b => b | None => false end in
      let title :=
        "Changing " +:+ String (Ascii.ascii_of_nat 34) EmptyString
        +:+ requiresReloadOption +:+ String (Ascii.ascii_of_nat 34) EmptyString
        +:+ " requires a reload" +:+ ". Reload now?" in
      let asked := if reload then [] else [ShowPrompt title] in
      let reload := if reload then true else answer title in
      asked ++ (if reload then [ExecuteCommand "wgsl-analyzer.reload"] else [])
  end.

End Configuration.

(** A code action that creates a file, edits two documents and renames a
    file. *)
Definition example_code_action : Resolve.CodeAction :=
  {| Resolve.edit :=
       Some {| Snippet.documentChanges :=
                 Some [ Snippet.FileOperation "create";
                        Snippet.TextDocumentEdit "file:///shader.wgsl" [snippet_edit];
                        Snippet.TextDocumentEdit "file:///main.wgsl" [comment_edit];
                        Snippet.FileOperation "rename" ] |} |}.

(** A schema item that describes a setting and the key [__proto__], and a
    configuration that has the setting. *)
Definition example_schema_item : gmap string JSValue :=
  {[ "wgsl-analyzer.enable" := JString "described";
     "__proto__" := JObject [("markdownDescription", JString "prototype")] ]}.

Definition example_schema : list (gmap string JSValue) := [example_schema_item].

Definition example_configuration : gmap string JSValue :=
  {[ "wgsl-analyzer.enable" := JString "own" ]}.

(** * Properties *)

(** ** Argument and command-line construction *)

Lemma construct_args_webby lbl loc a :
  construct_args {| label := lbl; location := loc; variant := RunnableWebby a |}
  = (quoted_in_place {| label := lbl; location := loc; variant := RunnableWebby a |},
     spec_webby_args a).
Proof.
  unfold construct_args, quoted_in_place, spec_webby_args; simpl.
  destruct a as [root exe webby over common]; simpl.
  destruct exe as [|first others]; reflexivity.
Qed.

Lemma construct_args_shell lbl loc a :
  construct_args {| label := lbl; location := loc; variant := RunnableShell a |}
  = ({| label := lbl; location := loc; variant := RunnableShell a |}, args a).
Proof. reflexivity. Qed.

Lemma construct_args_fst r : fst (construct_args r) = quoted_in_place r.
Proof.
  destruct r as [lbl loc [a|a]].
  - now rewrite construct_args_webby.
  - reflexivity.
Qed.

Lemma quoted_in_place_kind r : kind (quoted_in_place r) = kind r.
Proof. destruct r as [lbl loc [a|a]]; reflexivity. Qed.

Lemma quoted_in_place_label r : label (quoted_in_place r) = label r.
Proof. destruct r as [lbl loc [a|a]]; reflexivity. Qed.

Lemma quoted_in_place_cwd r : runnable_cwd (quoted_in_place r) = runnable_cwd r.
Proof. destruct r as [lbl loc [a|a]]; reflexivity. Qed.

Lemma runSingle_wgsl config document r w :
  isWgslDocument document = true ->
  runSingle config document (Some r) w =
  {| outcome := inr tt;
     runnable_after := Some (quoted_in_place r);
     world_after :=
       {| terminal := Some (fresh w); fresh := S (fresh w);
          trace := trace w ++ run_events config r w |} |}.
Proof.
  intros Hdoc. unfold runSingle, run_events. rewrite Hdoc. simpl.
  rewrite (surjective_pairing (construct_args r)), construct_args_fst.
  unfold command_line.
  rewrite quoted_in_place_kind, quoted_in_place_label, quoted_in_place_cwd.
  destruct w as [[old|] n tr]; destruct (terminal_startinsert config);
    unfold emit, set_terminal, createTerminal; simpl;
    do 2 f_equal; rewrite <- ?app_assoc; reflexivity.
Qed.

Lemma runSingle_not_wgsl config document r w :
  isWgslDocument document = false ->
  runSingle config document (Some r) w =
  {| outcome := inr tt; runnable_after := Some r; world_after := w |}.
Proof. intros Hdoc. unfold runSingle. now rewrite Hdoc. Qed.

Lemma sent_texts_app tr1 tr2 : sent_texts (tr1 ++ tr2) = sent_texts tr1 ++ sent_texts tr2.
Proof. unfold sent_texts. apply omap_app. Qed.

Lemma sent_texts_run_events config r w :
  sent_texts (run_events config r w) = [command_line r (snd (construct_args r))].
Proof.
  unfold run_events.
  destruct (terminal w), (terminal_startinsert config); reflexivity.
Qed.

Lemma quoted_in_place_webbyArgs r :
  webbyArgs_or_empty (quoted_in_place r) = webbyArgs_or_empty r.
Proof. destruct r as [lbl loc [a|a]]; reflexivity. Qed.

(** C3: for a [webby] runnable the argument list built by [runSingle] is
    [webbyArgs] itself when [executableArgs] is empty, and otherwise
    [webbyArgs], the token [--], then [executableArgs] with its first element
    in single quotes and the others as they are; the text typed into the
    terminal is [webby] followed by that list joined with spaces. *)
Theorem runSingle_webby_argument_list config document w lbl loc a :
  isWgslDocument document = true ->
  let r := {| label := lbl; location := loc; variant := RunnableWebby a |} in
  let constructed := snd (construct_args r) in
  constructed =
    match executableArgs a with
    | [] => webbyArgs a
    | first :: others => webbyArgs a ++ ["--"] ++ single_quoted first :: others
    end
  /\ sent_texts (trace (world_after (runSingle config document (Some r) w)))
     = sent_texts (trace w) ++ ["webby " +:+ join " " constructed].
Proof.
  intros Hdoc r constructed. split.
  - subst constructed r. rewrite construct_args_webby. simpl.
    unfold spec_webby_args. destruct (executableArgs a); reflexivity.
  - rewrite (runSingle_wgsl _ _ _ _ Hdoc). simpl.
    rewrite sent_texts_app, sent_texts_run_events. reflexivity.
Qed.

Lemma runSingle_webby_argument_list_witness :
  snd (construct_args (webby_runnable ["run"] ["a b"; "c"]))
    = ["run"; "--"; "'a b'"; "c"]
  /\ sent_texts (trace (world_after
        (runSingle default_config wgsl_document
           (Some (webby_runnable ["run"] ["a b"; "c"])) initial_world)))
     = ["webby run -- 'a b' c"].
Proof.
  exact (runSingle_webby_argument_list default_config wgsl_document
           initial_world _ _ _ eq_refl).
Defined.

(** C4, as stated, fails: for the [shell] runnable with program [echo] and
    args [hi], [runSingle] types [shell hi], not [echo hi]. *)
Lemma runSingle_shell_program_not_used :
  let typed :=
    sent_texts (trace (world_after
      (runSingle default_config wgsl_document
         (Some (shell_runnable "echo" ["hi"])) initial_world))) in
  typed = ["shell hi"]
  /\ typed <> [spec_shell_command (shell_args "echo" ["hi"])].
Proof. split; [reflexivity | discriminate]. Qed.

(** C4, amended: for a [shell] runnable the argument list is the runnable's
    [args] verbatim (no [--], no quoting), and the command line is the
    runnable's [kind], that is the word [shell], followed by a space and the
    args joined with single spaces; the [program] field is not read. *)
Theorem runSingle_shell_command_line config document w lbl loc a :
  isWgslDocument document = true ->
  let r := {| label := lbl; location := loc; variant := RunnableShell a |} in
  snd (construct_args r) = args a
  /\ sent_texts (trace (world_after (runSingle config document (Some r) w)))
     = sent_texts (trace w) ++ ["shell " +:+ join " " (args a)].
Proof.
  intros Hdoc r. split; [reflexivity|].
  rewrite (runSingle_wgsl _ _ _ _ Hdoc). simpl.
  rewrite sent_texts_app, sent_texts_run_events. reflexivity.
Qed.

Lemma runSingle_shell_command_line_witness :
  snd (construct_args (shell_runnable "echo" ["hi"; "--"; "'there'"]))
    = ["hi"; "--"; "'there'"]
  /\ sent_texts (trace (world_after
        (runSingle default_config wgsl_document
           (Some (shell_runnable "echo" ["hi"; "--"; "'there'"])) initial_world)))
     = ["shell hi -- 'there'"].
Proof.
  exact (runSingle_shell_command_line default_config wgsl_document
           initial_world _ _ _ eq_refl).
Defined.

(** ** The runnable object after a command *)

Section RunnableAfter.

Variable JSON_parse : string -> option JSValue.
Variable ToString : JSValue -> string.
Variable String_replace : string -> string -> string -> string.

Lemma debugSingle_wgsl config document r stdout w :
  isWgslDocument document = true ->
  let w1 := emit (Spawn (kind r) (debug_args (snd (construct_args r)))) w in
  let filter := expected_filter (webbyArgs_or_empty r) in
  debugSingle JSON_parse ToString String_replace config document (Some r) stdout w =
  match resolve_executable JSON_parse (fst filter) (snd filter) stdout with
  | inl e =>
      {| outcome := inl e; runnable_after := Some (quoted_in_place r);
         world_after := w1 |}
  | inr (executable, _) =>
      if conversion_throws executable then
        {| outcome := inl TypeError; runnable_after := Some (quoted_in_place r);
           world_after := w1 |}
      else
        let l := launch ToString String_replace config executable
                   (joined_executableArgs (quoted_in_place r)) w1 in
        {| outcome := fst l; runnable_after := Some (quoted_in_place r);
           world_after := snd l |}
  end.
Proof.
  intros Hdoc w1 filter. unfold debugSingle. rewrite Hdoc. simpl.
  rewrite (surjective_pairing (construct_args r)), construct_args_fst.
  rewrite quoted_in_place_webbyArgs, quoted_in_place_kind.
  fold filter. rewrite (surjective_pairing filter). fold w1.
  destruct (resolve_executable _ _ _ _) as [e|[executable rest]]; [reflexivity|].
  unfold template_literal. destruct (conversion_throws executable); [reflexivity|].
  simpl. now destruct (launch _ _ _ _ _ _).
Qed.

Lemma debugSingle_runnable_after config document r stdout w :
  runnable_after
    (debugSingle JSON_parse ToString String_replace config document (Some r) stdout w)
  = Some (if isWgslDocument document then quoted_in_place r else r).
Proof.
  destruct (isWgslDocument document) eqn:Hdoc.
  - rewrite (debugSingle_wgsl _ _ _ _ _ Hdoc). simpl.
    destruct (resolve_executable _ _ _ _) as [e|[executable rest]]; [reflexivity|].
    now destruct (conversion_throws executable).
  - unfold debugSingle. now rewrite Hdoc.
Qed.

End RunnableAfter.

(** C5, as stated, fails: after [runSingle] on a [webby] runnable whose
    [executableArgs] is [["a"]], the caller's runnable holds [["'a'"]]. *)
Lemma runSingle_mutates_executableArgs :
  let before := webby_runnable ["run"] ["a"] in
  let after :=
    runnable_after (runSingle default_config wgsl_document (Some before) initial_world) in
  after = Some (webby_runnable ["run"] ["'a'"])
  /\ after <> Some before.
Proof. split; [reflexivity | discriminate]. Qed.

(** C5, amended: [runSingle] and [debugSingle] leave the runnable as it was
    when the document is not a WGSL document, when the runnable is a [shell]
    runnable, or when [executableArgs] is empty; for a [webby] runnable with
    non-empty [executableArgs] in a WGSL document they overwrite the first
    element of [executableArgs] with its single-quoted form and change
    nothing else ([debugSingle] does so whether or not it later throws). *)
Theorem resolver_runnable_after JSON_parse ToString String_replace
    config document r stdout w :
  let after :=
    Some (if isWgslDocument document
          then match variant r with
               | RunnableWebby a =>
                   {| label := label r; location := location r;
                      variant := RunnableWebby
                        {| workspaceRoot := workspaceRoot a;
                           executableArgs :=
                             match executableArgs a with
                             | [] => []
                             | first :: others => single_quoted first :: others
                             end;
                           webbyArgs := webbyArgs a;
                           overrideWebby := overrideWebby a;
                           webby_common := webby_common a |} |}
               | RunnableShell _ => r
               end
          else r) in
  runnable_after (runSingle config document (Some r) w) = after
  /\ runnable_after
       (debugSingle JSON_parse ToString String_replace config document (Some r) stdout w)
     = after.
Proof.
  intros after. split.
  - subst after. destruct (isWgslDocument document) eqn:Hdoc.
    + rewrite (runSingle_wgsl _ _ _ _ Hdoc). simpl.
      destruct r as [lbl loc [a|a]]; reflexivity.
    + now rewrite (runSingle_not_wgsl _ _ _ _ Hdoc).
  - subst after. rewrite debugSingle_runnable_after.
    destruct (isWgslDocument document); [|reflexivity].
    destruct r as [lbl loc [a|a]]; reflexivity.
Qed.

(** ** The debug build command *)

Lemma debug_args_rewritten args :
  debug_args args = rewritten args ++ ["--message-format=json"].
Proof.
  unfold debug_args, first_is, rewritten.
  destruct args as [|first others]; [reflexivity|]. simpl.
  destruct (String.eqb first "test") eqn:Htest.
  - apply String.eqb_eq in Htest. subst first. reflexivity.
  - simpl. now destruct (String.eqb first "run").
Qed.

Lemma spawned_app tr1 tr2 : spawned (tr1 ++ tr2) = spawned tr1 ++ spawned tr2.
Proof. unfold spawned. apply omap_app. Qed.

Lemma launch_trace ToString String_replace config executable executableArgs w :
  let l := launch ToString String_replace config executable executableArgs w in
  (exists e, trace (snd l) = trace w ++ [e] /\ is_Some (strategy_of_event e))
  \/ trace (snd l) = trace w.
Proof.
  unfold launch.
  destruct (runtime_is config "termdebug");
    [left; eexists; split; [reflexivity | now eexists]|].
  destruct (runtime_is config "vimspector");
    [left; eexists; split; [reflexivity | now eexists]|].
  destruct (runtime_is config "nvim-dap");
    [left; eexists; split; [reflexivity | now eexists]|].
  now right.
Qed.

Lemma launch_spawned ToString String_replace config executable executableArgs w :
  spawned (trace (snd (launch ToString String_replace config executable executableArgs w)))
  = spawned (trace w).
Proof.
  destruct (launch_trace ToString String_replace config executable executableArgs w)
    as [(e & -> & He)| ->]; [|reflexivity].
  rewrite spawned_app. destruct e; simpl in *;
    try (destruct He; discriminate); apply app_nil_r.
Qed.

(** C6, as stated, fails: for the [shell] runnable with args [test],
    [debugSingle] spawns [shell test --no-run --message-format=json]; the
    rewrite is applied although the runnable is not a [webby] runnable. *)
Lemma debugSingle_rewrites_shell_args :
  let spawns :=
    spawned (trace (world_after
      (debugSingle JSON_parse_examples ToString_examples replace_first
         default_config wgsl_document
         (Some (shell_runnable "make" ["test"])) [] initial_world))) in
  spawns = [("shell", ["test"; "--no-run"; "--message-format=json"])]
  /\ spawns <> [("shell", spec_debug_args (shell_runnable "make" ["test"]))].
Proof. split; [reflexivity | discriminate]. Qed.

(** C6, amended: for a runnable of either kind, [debugSingle] spawns the
    runnable's [kind] with the constructed arguments rewritten as follows:
    when the first token is [test], [--no-run] is appended; when the first
    token is [run], it is replaced by [build]; and [--message-format=json]
    is always appended last.  Nothing else is spawned. *)
Theorem debugSingle_spawn_arguments JSON_parse ToString String_replace
    config document r stdout w :
  isWgslDocument document = true ->
  let constructed := snd (construct_args r) in
  spawned (trace (world_after
    (debugSingle JSON_parse ToString String_replace config document (Some r) stdout w)))
  = spawned (trace w) ++
    [(kind r,
      match constructed with
      | [] => []
      | first :: others =>
          if String.eqb first "test" then first :: others ++ ["--no-run"]
          else if String.eqb first "run" then "build" :: others
          else first :: others
      end ++ ["--message-format=json"])].
Proof.
  intros Hdoc constructed.
  rewrite (debugSingle_wgsl _ _ _ _ _ _ _ _ Hdoc).
  fold constructed. rewrite debug_args_rewritten. unfold rewritten.
  destruct (resolve_executable _ _ _ _) as [e|[executable rest]]; simpl.
  - now rewrite spawned_app.
  - destruct (conversion_throws executable); simpl.
    + now rewrite spawned_app.
    + rewrite launch_spawned. simpl. now rewrite spawned_app.
Qed.

Lemma debugSingle_spawn_arguments_witness :
  spawned (trace (world_after
    (debugSingle JSON_parse_examples ToString_examples replace_first
       default_config wgsl_document
       (Some (shell_runnable "make" ["run"; "fast"])) [line_artifact] initial_world)))
  = [("shell", ["build"; "fast"; "--message-format=json"])].
Proof.
  exact (debugSingle_spawn_arguments JSON_parse_examples ToString_examples
           replace_first default_config wgsl_document
           (shell_runnable "make" ["run"; "fast"]) [line_artifact] initial_world
           eq_refl).
Defined.

(** ** Debug runtime dispatch *)





(** ** Preconditions that are not met *)

Lemma run_without_selection config document server picked w :
  fst (pickRunnable document server picked w) = inr None ->
  run config document server picked w =
  {| outcome := inr tt; runnable_after := None;
     world_after := snd (pickRunnable document server picked w) |}.
Proof.
  unfold run.
  destruct (pickRunnable document server picked w) as [[e|[r|]] w1];
    simpl; intros H; try discriminate; reflexivity.
Qed.

Lemma debug_without_selection JSON_parse ToString String_replace
    config document server picked stdout w :
  fst (pickRunnable document server picked w) = inr None ->
  debug JSON_parse ToString String_replace config document server picked stdout w =
  {| outcome := inr tt; runnable_after := None;
     world_after := snd (pickRunnable document server picked w) |}.
Proof.
  unfold debug.
  destruct (pickRunnable document server picked w) as [[e|[r|]] w1];
    simpl; intros H; try discriminate; reflexivity.
Qed.

(** C9: when the document is not a WGSL document, when the server returns
    no runnable, or when the user cancels the picker, selection yields no
    runnable and [run] and [debug] return normally having done nothing more;
    the fetcher returns the empty list, untouched host, on a wrong document,
    and no picker is presented for an empty list. *)
Theorem precondition_not_met_is_silent JSON_parse ToString String_replace
    config document server picked stdout w :
  precondition_not_met document server picked ->
  let selection := pickRunnable document server picked w in
  let no_op :=
    {| outcome := inr tt; runnable_after := None; world_after := snd selection |} in
  fst selection = inr None
  /\ run config document server picked w = no_op
  /\ debug JSON_parse ToString String_replace config document server picked stdout w
     = no_op
  /\ terminal (snd selection) = terminal w
  /\ (isWgslDocument document = false ->
      fetchRunnable document server w = (inr [], w) /\ snd selection = w)
  /\ (server = inr [] ->
      presented (trace (snd selection)) = presented (trace w)).
Proof.
  intros Hpre selection no_op.
  assert (Hsel : fst selection = inr None).
  { subst selection. unfold pickRunnable, fetchRunnable.
    destruct (isWgslDocument document) eqn:Hwgsl; simpl; [|reflexivity].
    destruct Hpre as [Hdoc|[->|[[runnables ->] ->]]]; [congruence|reflexivity|].
    simpl. now destruct (length runnables =? 0)%nat. }
  split; [exact Hsel|].
  split; [|split; [|split; [|split]]].
  - now apply run_without_selection.
  - now apply debug_without_selection.
  - subst selection. unfold pickRunnable, fetchRunnable.
    destruct (isWgslDocument document); simpl; [|reflexivity].
    destruct server as [e|runnables]; [reflexivity|].
    destruct (length runnables =? 0)%nat; [reflexivity|].
    destruct (picked =? -1)%Z; [reflexivity|].
    destruct (picked <? 0)%Z; [reflexivity|].
    now destruct (runnables !! Z.to_nat picked).
  - intros Hdoc. subst selection. unfold pickRunnable, fetchRunnable.
    now rewrite Hdoc.
  - intros ->. subst selection. unfold pickRunnable, fetchRunnable.
    destruct (isWgslDocument document); simpl; [|reflexivity].
    unfold presented. rewrite <- !app_assoc, omap_app. simpl. apply app_nil_r.
Qed.

Lemma precondition_not_met_is_silent_witness :
  let selection :=
    pickRunnable wgsl_document (inr [webby_runnable ["run"] []]) (-1) initial_world in
  let no_op :=
    {| outcome := inr tt; runnable_after := None; world_after := snd selection |} in
  fst selection = inr None
  /\ run default_config wgsl_document (inr [webby_runnable ["run"] []]) (-1)
       initial_world = no_op
  /\ debug JSON_parse_examples ToString_examples replace_first default_config
       wgsl_document (inr [webby_runnable ["run"] []]) (-1) [line_artifact]
       initial_world = no_op
  /\ terminal (snd selection) = None
  /\ (isWgslDocument wgsl_document = false ->
      fetchRunnable wgsl_document (inr [webby_runnable ["run"] []]) initial_world
        = (inr [], initial_world)
      /\ snd selection = initial_world)
  /\ (@inr Exn (list Runnable) [webby_runnable ["run"] []] = inr [] ->
      presented (trace (snd selection)) = presented []).
Proof.
  exact (precondition_not_met_is_silent JSON_parse_examples ToString_examples
           replace_first default_config wgsl_document
           (inr [webby_runnable ["run"] []]) (-1) [line_artifact] initial_world
           (or_intror (or_intror
              (conj (ex_intro _ [webby_runnable ["run"] []] eq_refl) eq_refl)))).
Defined.


(** ** The expected-kind/expected-name filter *)

#[local] Arguments String.eqb : simpl never.














(** ** The scan of the build tool's output *)

Lemma field_cons m k rest : field m (k :: rest) = field (field m [k]) rest.
Proof.
  destruct m; try reflexivity; destruct rest; reflexivity.
Qed.

Lemma get_property_field m k :
  get_property m k = if nullish m then inl TypeError else inr (field m [k]).
Proof. destruct m; reflexivity. Qed.

Lemma includes_contains v s :
  includes v s = if array_or_string v then inr (contains v s) else inl TypeError.
Proof. destruct v; reflexivity. Qed.

Lemma array_or_string_field_object m k :
  array_or_string (field m [k]) = true -> nullish m = false.
Proof. destruct m; simpl; congruence. Qed.

Lemma strict_equals_field_object m k s :
  strict_equals_string (field m [k]) s = true -> nullish m = false.
Proof. destruct m; simpl; congruence. Qed.

Lemma contains_array_or_string v s : contains v s = true -> array_or_string v = true.
Proof. destruct v; simpl; congruence. Qed.

#[local] Arguments field : simpl never.

Lemma qualifies_not_logged ek en m :
  qualifies ek en m = true -> logged_value ek en m = None.
Proof.
  unfold qualifies, logged_value. intros H.
  apply andb_prop in H as [H _]. apply andb_prop in H as [H Hname].
  apply andb_prop in H as [Hartifact Hkind].
  now rewrite Hartifact, Hkind, Hname.
Qed.

Lemma qualifies_not_throws ek en m :
  qualifies ek en m = true -> throws_on ek en m = false.
Proof.
  intros Hq. unfold throws_on. rewrite (qualifies_not_logged _ _ _ Hq).
  rewrite orb_false_r. revert Hq. unfold qualifies. intros H.
  apply andb_prop in H as [H Hexe]. apply andb_prop in H as [H Hname].
  apply andb_prop in H as [Hartifact Hkind].
  rewrite (strict_equals_field_object m "reason" _ Hartifact), Hartifact. simpl.
  destruct ek as [k|]; cbn [passes_kind] in Hkind.
  - now rewrite (contains_array_or_string _ _ Hkind).
  - destruct en as [n|]; [|reflexivity]. cbn [passes_name] in Hname.
    rewrite (field_cons m "target" ["name"]) in Hname.
    apply (strict_equals_field_object _ _ _ Hname).
Qed.

Lemma template_literal_cases v (k : Exn + LineResult) :
  (_ <- template_literal v ;; k)
  = if conversion_throws v then inl TypeError else k.
Proof. unfold template_literal. now destruct (conversion_throws v). Qed.

Section Scan.

Variable JSON_parse : string -> option JSValue.

(** What one iteration does with a parsed message. *)
Lemma scan_line_parsed ek en line m :
  String.eqb line "" = false ->
  JSON_parse line = Some m ->
  scan_line JSON_parse ek en line =
  if throws_on ek en m then inl TypeError
  else if qualifies ek en m then inr (Break (field m ["executable"]))
  else inr Continue.
Proof.
  intros Hline Hparse. unfold scan_line. rewrite Hline, Hparse.
  unfold throws_on, qualifies, logged_value.
  rewrite !get_property_field.
  destruct (nullish m) eqn:Hm; [reflexivity|]. cbn [bind_exn orb].
  fold (is_artifact m).
  destruct (is_artifact m) eqn:Hartifact; cbn [negb andb orb];
    [|apply template_literal_cases].
  rewrite ?get_property_field.
  destruct ek as [k|]; cbn [passes_kind].
  - rewrite (field_cons m "target" ["kind"]).
    destruct (nullish (field m ["target"])) eqn:Htarget.
    + cbn [bind_exn].
      destruct (array_or_string (field (field m ["target"]) ["kind"])) eqn:Hk;
        [|reflexivity].
      apply array_or_string_field_object in Hk. congruence.
    + cbn [bind_exn]. rewrite includes_contains.
      destruct (array_or_string (field (field m ["target"]) ["kind"]));
        [|reflexivity].
      cbn [bind_exn negb orb].
      destruct (contains _ k); cbn [negb andb];
        [|apply template_literal_cases].
      destruct en as [n|]; cbn [bind_exn passes_name].
      * rewrite (field_cons m "target" ["name"]).
        destruct (strict_equals_string _ n); cbn [negb andb].
        -- now destruct (truthy _).
        -- apply template_literal_cases.
      * now destruct (truthy _).
  - cbn [bind_exn andb].
    destruct en as [n|]; cbn [bind_exn passes_name andb negb orb].
    + rewrite (field_cons m "target" ["name"]).
      destruct (nullish (field m ["target"])) eqn:Htarget; [reflexivity|].
      cbn [bind_exn orb].
      destruct (strict_equals_string _ n); cbn [negb andb].
      * now destruct (truthy _).
      * apply template_literal_cases.
    + now destruct (truthy _).
Qed.

Lemma scan_line_skipped ek en line :
  String.eqb line "" = true \/ JSON_parse line = None ->
  scan_line JSON_parse ek en line = inr Continue.
Proof.
  unfold scan_line. intros [-> | H]; [reflexivity|].
  destruct (String.eqb line ""); [reflexivity|]. now rewrite H.
Qed.

(** One iteration, in terms of the reference predicates. *)
Lemma scan_line_cases ek en line :
  scan_line JSON_parse ek en line =
  if line_throws JSON_parse ek en line then inl TypeError
  else match line_executable JSON_parse ek en line with
       | Some executable => inr (Break executable)
       | None => inr Continue
       end.
Proof.
  unfold line_throws, line_executable.
  destruct (String.eqb line "") eqn:Hline.
  - apply scan_line_skipped. now left.
  - destruct (JSON_parse line) as [m|] eqn:Hparse.
    + rewrite (scan_line_parsed _ _ _ _ Hline Hparse). simpl.
      destruct (throws_on ek en m); [reflexivity|].
      now destruct (qualifies ek en m).
    + rewrite scan_line_skipped by now right. reflexivity.
Qed.

Lemma line_executable_truthy ek en line executable :
  line_executable JSON_parse ek en line = Some executable ->
  truthy executable = true /\ line_throws JSON_parse ek en line = false.
Proof.
  unfold line_executable, line_throws.
  destruct (String.eqb line ""); [discriminate|].
  destruct (JSON_parse line) as [m|]; [|discriminate]. simpl.
  destruct (qualifies ek en m) eqn:Hq; [|discriminate].
  intros [= <-]. split; [|now apply qualifies_not_throws].
  unfold qualifies in Hq. now apply andb_prop in Hq as [_ Hexe].
Qed.

Lemma resolve_executable_spec ek en lines :
  forallb (fun line => negb (line_throws JSON_parse ek en line))
    (lines_before JSON_parse ek en lines) = true ->
  resolve_executable JSON_parse ek en lines = spec_resolution JSON_parse ek en lines.
Proof.
  unfold resolve_executable.
  induction lines as [|line rest IH]; [reflexivity|].
  cbn [scan_stdout spec_resolution lines_before].
  rewrite scan_line_cases.
  destruct (line_executable JSON_parse ek en line) as [executable|] eqn:Hexe.
  - apply line_executable_truthy in Hexe as [Htruthy ->].
    intros _. cbn [bind_exn fst]. now rewrite Htruthy.
  - cbn [forallb]. intros H. apply andb_prop in H as [Hline Hrest].
    apply negb_true_iff in Hline. rewrite Hline. now apply IH.
Qed.

Lemma resolve_executable_throws ek en line rest :
  line_throws JSON_parse ek en line = true ->
  resolve_executable JSON_parse ek en (line :: rest) = inl TypeError.
Proof.
  intros H. unfold resolve_executable. cbn [scan_stdout].
  now rewrite scan_line_cases, H.
Qed.

End Scan.

Lemma spec_resolution_error JSON_parse ek en lines :
  spec_resolution JSON_parse ek en lines = inl (Error "Could not find executable")
  <-> none_qualifies JSON_parse ek en lines = true.
Proof.
  induction lines as [|line rest IH]; [easy|].
  cbn [spec_resolution none_qualifies forallb].
  destruct (line_executable JSON_parse ek en line); [easy|].
  exact IH.
Qed.

(** C1: on the stream [null] the scan throws a [TypeError] although no
    message qualifies, and on the stream [null] followed by the qualifying
    artifact line it throws instead of skipping the first line and resolving
    to [/x]: after [if (!webbyMessage)] has logged that the message is
    skipped, the iteration goes on and reads [reason] of [null].
    [debugSingle] ends with that [TypeError], the build spawned and no
    debugger called. *)
Lemma scan_throws_on_null_line :
  resolve_executable JSON_parse_examples (Some "bin") (Some "foo") ["null"]
    = inl TypeError
  /\ spec_resolution JSON_parse_examples (Some "bin") (Some "foo") ["null"]
     = inl (Error "Could not find executable")
  /\ resolve_executable JSON_parse_examples (Some "bin") (Some "foo")
       ["null"; line_artifact] = inl TypeError
  /\ spec_resolution JSON_parse_examples (Some "bin") (Some "foo")
       ["null"; line_artifact] = inr (JString "/x", [])
  /\ (let c := debugSingle JSON_parse_examples ToString_examples replace_first
                 default_config wgsl_document
                 (Some (webby_runnable ["run"; "--bin"; "foo"] []))
                 ["null"; line_artifact] initial_world in
      outcome c = inl TypeError
      /\ trace (world_after c)
         = [Spawn "webby" ["build"; "--bin"; "foo"; "--message-format=json"]]).
Proof. repeat split; reflexivity. Qed.

(** X24: on every stream in which no line read before the first qualifying
    message makes the scan throw, the scan skips empty lines, lines that are
    not JSON, messages that are not artifacts and artifacts failing a filter
    or without a non-empty [executable]; it resolves to the [executable] of
    the first qualifying message, leaving the lines after it unread; and it
    fails with [Could not find executable] exactly when no message
    qualifies. *)
Theorem debugSingle_scan_resolution JSON_parse expectedKind expectedName lines :
  readable JSON_parse expectedKind expectedName lines = true ->
  resolve_executable JSON_parse expectedKind expectedName lines
    = spec_resolution JSON_parse expectedKind expectedName lines
  /\ (resolve_executable JSON_parse expectedKind expectedName lines
        = inl (Error "Could not find executable")
      <-> none_qualifies JSON_parse expectedKind expectedName lines = true).
Proof.
  intros Hreadable.
  rewrite (resolve_executable_spec _ _ _ _ Hreadable).
  split; [reflexivity | apply spec_resolution_error].
Qed.

Lemma debugSingle_scan_resolution_witness :
  resolve_executable JSON_parse_examples (Some "bin") (Some "foo")
    ["not-json"; line_other; line_artifact; "null"]
    = inr (JString "/x", ["null"])
  /\ (resolve_executable JSON_parse_examples (Some "bin") (Some "foo")
        ["not-json"; line_other; line_artifact; "null"]
        = inl (Error "Could not find executable")
      <-> none_qualifies JSON_parse_examples (Some "bin") (Some "foo")
            ["not-json"; line_other; line_artifact; "null"] = true).
Proof.
  exact (debugSingle_scan_resolution JSON_parse_examples (Some "bin") (Some "foo")
           ["not-json"; line_other; line_artifact; "null"] eq_refl).
Defined.

Lemma resolve_executable_skips JSON_parse ek en skipped lines :
  Forall (fun l => scan_line JSON_parse ek en l = inr Continue) skipped ->
  resolve_executable JSON_parse ek en (skipped ++ lines)
  = resolve_executable JSON_parse ek en lines.
Proof.
  unfold resolve_executable. intros H.
  induction H as [|l skipped Hl _ IH]; [reflexivity|].
  cbn [app scan_stdout]. rewrite Hl. exact IH.
Qed.

Lemma lacks_target_object_field m :
  lacks_target_object m = true ->
  is_artifact m = true
  /\ field m ["target"; "kind"] = JUndefined
  /\ field m ["target"; "name"] = JUndefined.
Proof.
  unfold lacks_target_object. intros H. apply andb_prop in H as [Hartifact Htarget].
  split; [exact Hartifact|].
  rewrite (field_cons m "target" ["kind"]), (field_cons m "target" ["name"]).
  destruct (field m ["target"]); try discriminate; split; reflexivity.
Qed.

(** C10, as stated, fails: the line [true] parses to a non-object and is
    skipped, the scan ending in [Could not find executable]; and with no
    filter set an artifact message without [target] resolves to its
    executable. *)
Lemma scan_tolerates_non_object_line :
  JSON_parse_examples "true" = Some (JBool true)
  /\ is_object (JBool true) = false
  /\ resolve_executable JSON_parse_examples (Some "bin") (Some "foo") ["true"]
     = inl (Error "Could not find executable")
  /\ JSON_parse_examples line_artifact_without_target
     = Some message_artifact_without_target
  /\ lacks_target_object message_artifact_without_target = true
  /\ resolve_executable JSON_parse_examples None None [line_artifact_without_target]
     = inr (JString "/x", []).
Proof. repeat split; reflexivity. Qed.

(** C10, amended: an iteration of the scan throws nothing but a
    [TypeError], and it does so exactly on a non-empty line that parses to a
    value of [throws_on]: to [null]; to an artifact message whose
    [target.kind] is not an array or string while a kind filter is set, or
    whose [target] is absent or [null] while only a name filter is set; or
    to a message that is skipped with a log entry whose logged value (the
    [reason] of a message that is not an artifact, the [target.kind] or
    [target.name] that fails a filter) cannot be converted to a string.  In
    particular a line that parses to [null] throws; a parsed boolean,
    number, string or array is skipped; an artifact message lacking a
    [target] object throws under a kind filter, throws under a name filter
    alone exactly when [target] is absent or [null], and does not throw
    when no filter is set.  A throwing line aborts [debugSingle] with the
    [TypeError] wherever it stands in the stream, provided the lines before
    it were skipped: the build was spawned and no debugger is called. *)
Theorem debugSingle_scan_type_error JSON_parse ToString String_replace
    expectedKind expectedName line :
  (forall e, scan_line JSON_parse expectedKind expectedName line = inl e ->
             e = TypeError)
  /\ (scan_line JSON_parse expectedKind expectedName line = inl TypeError
      <-> String.eqb line "" = false
          /\ exists m, JSON_parse line = Some m
                       /\ throws_on expectedKind expectedName m = true)
  /\ (forall m, JSON_parse line = Some m ->
        nullish m = false -> is_object m = false ->
        scan_line JSON_parse expectedKind expectedName line = inr Continue)
  /\ (String.eqb line "" = false -> JSON_parse line = Some JNull ->
      scan_line JSON_parse expectedKind expectedName line = inl TypeError)
  /\ (forall m, String.eqb line "" = false -> JSON_parse line = Some m ->
        lacks_target_object m = true ->
        (scan_line JSON_parse expectedKind expectedName line = inl TypeError
         <-> match expectedKind, expectedName with
             | Some _, _ => True
             | None, Some _ => nullish (field m ["target"]) = true
             | None, None => False
             end))
  /\ (forall config document r skipped rest w,
        isWgslDocument document = true ->
        expectedKind = fst (expected_filter (webbyArgs_or_empty r)) ->
        expectedName = snd (expected_filter (webbyArgs_or_empty r)) ->
        Forall (fun l => scan_line JSON_parse expectedKind expectedName l
                         = inr Continue) skipped ->
        scan_line JSON_parse expectedKind expectedName line = inl TypeError ->
        let c := debugSingle JSON_parse ToString String_replace config document
                   (Some r) (skipped ++ line :: rest) w in
        outcome c = inl TypeError
        /\ trace (world_after c)
           = trace w ++ [Spawn (kind r) (debug_args (snd (construct_args r)))]).
Proof.
  assert (Hcases := scan_line_cases JSON_parse expectedKind expectedName line).
  assert (Hiff :
    scan_line JSON_parse expectedKind expectedName line = inl TypeError
    <-> String.eqb line "" = false
        /\ exists m, JSON_parse line = Some m
                     /\ throws_on expectedKind expectedName m = true).
  { rewrite Hcases. unfold line_throws.
    destruct (String.eqb line ""); simpl.
    + split; [|intros [? _]; discriminate].
      now destruct (line_executable _ _ _ _).
    + destruct (JSON_parse line) as [m|].
      * destruct (throws_on expectedKind expectedName m) eqn:Hthrows.
        -- split; [intros _; split; [reflexivity | now exists m] | reflexivity].
        -- split; [now destruct (line_executable _ _ _ _)|].
           intros (_ & m' & [= <-] & Hm). congruence.
      * split; [now destruct (line_executable _ _ _ _)|].
        intros (_ & m' & Hm & _). discriminate. }
  split; [|split; [exact Hiff|split; [|split; [|split]]]].
  - intros e He. rewrite Hcases in He.
    destruct (line_throws _ _ _ _); [congruence|].
    now destruct (line_executable _ _ _ _).
  - intros m Hparse Hnull Hobject. unfold scan_line. rewrite Hparse.
    destruct (String.eqb line ""); [reflexivity|].
    destruct m; try discriminate; reflexivity.
  - intros Hline Hparse. apply Hiff. split; [exact Hline|].
    exists JNull. split; [exact Hparse|reflexivity].
  - intros m Hline Hparse Hlacks.
    destruct (lacks_target_object_field m Hlacks) as (Hartifact & Hkind & Hname).
    assert (Hm : nullish m = false).
    { apply (strict_equals_field_object m "reason" "compiler-artifact").
      exact Hartifact. }
    rewrite Hiff. split.
    + intros (_ & m' & Hparse' & Hthrows).
      rewrite Hparse in Hparse'. injection Hparse' as <-.
      unfold throws_on, logged_value in Hthrows.
      rewrite Hm, Hartifact in Hthrows. cbn [negb orb andb] in Hthrows.
      destruct expectedKind as [k|]; [exact I|].
      destruct expectedName as [n|]; cbn [passes_kind passes_name negb] in Hthrows.
      * rewrite Hname in Hthrows. cbn [strict_equals_string negb] in Hthrows.
        cbn [conversion_throws] in Hthrows.
        now rewrite orb_false_r in Hthrows.
      * discriminate.
    + intros H. split; [exact Hline|]. exists m. split; [exact Hparse|].
      unfold throws_on. rewrite Hm, Hartifact. cbn [orb andb].
      destruct expectedKind as [k|].
      * now rewrite Hkind.
      * destruct expectedName as [n|]; [|contradiction]. now rewrite H.
  - intros config document r skipped rest w Hdoc -> -> Hskipped Hthrow c. subst c.
    rewrite (debugSingle_wgsl _ _ _ _ _ _ _ _ Hdoc).
    rewrite (resolve_executable_skips _ _ _ _ _ Hskipped).
    unfold resolve_executable. cbn [scan_stdout]. rewrite Hthrow.
    split; reflexivity.
Qed.

Lemma debugSingle_scan_type_error_witness :
  let c := debugSingle JSON_parse_examples ToString_examples replace_first
             default_config wgsl_document
             (Some (webby_runnable ["test"; "--lib"] []))
             (["not-json"; line_other] ++ line_unprintable_reason :: [line_artifact])
             initial_world in
  outcome c = inl TypeError
  /\ trace (world_after c)
     = [] ++ [Spawn "webby" ["test"; "--lib"; "--no-run"; "--message-format=json"]].
Proof.
  exact (proj2 (proj2 (proj2 (proj2 (proj2
           (debugSingle_scan_type_error JSON_parse_examples ToString_examples
              replace_first (Some "lib") None line_unprintable_reason)))))
           default_config wgsl_document (webby_runnable ["test"; "--lib"] [])
           ["not-json"; line_other] [line_artifact] initial_world
           eq_refl eq_refl eq_refl
           (Forall_cons_2 _ "not-json" [line_other] eq_refl
              (Forall_cons_2 _ line_other [] eq_refl (Forall_nil_2 _)))
           eq_refl).
Defined.


(** ** The run-terminal slot *)

Lemma open_terminals_app tr1 tr2 :
  open_terminals (tr1 ++ tr2) = fold_left step_open tr2 (open_terminals tr1).
Proof. unfold open_terminals. apply fold_left_app. Qed.

Lemma disposals_app t tr1 tr2 :
  disposals t (tr1 ++ tr2) = disposals t tr1 + disposals t tr2.
Proof. unfold disposals. now rewrite List.filter_app, length_app. Qed.

Lemma handles_below_mono b b' tr :
  b <= b' -> handles_below b tr -> handles_below b' tr.
Proof.
  intros Hle Hall. unfold handles_below in *.
  eapply Forall_impl; [exact Hall|].
  intros [] ?; simpl in *; lia || exact I.
Qed.

Lemma handles_below_disposals b t tr :
  handles_below b tr -> b <= t -> disposals t tr = 0.
Proof.
  unfold handles_below, disposals. intros Hall Hle.
  induction Hall as [|e tr He _ IH]; [reflexivity|]. simpl.
  destruct e; simpl; try exact IH.
  destruct (Nat.eqb_spec t0 t); [lia | exact IH].
Qed.

Lemma prefix_app_cases {A} (p l k : list A) :
  p `prefix_of` l ++ k ->
  p `prefix_of` l \/ exists q, p = l ++ q /\ q `prefix_of` k.
Proof.
  revert p. induction l as [|x l IH]; intros p Hp.
  - right. now exists p.
  - destruct p as [|y p]; [left; apply prefix_nil|].
    simpl in Hp. pose proof (prefix_cons_inv_1 _ _ _ _ Hp) as ->.
    apply prefix_cons_inv_2 in Hp.
    destruct (IH p Hp) as [Hl | (q & -> & Hq)].
    + left. now apply prefix_cons.
    + right. now exists q.
Qed.

Lemma always_at_most_one_prefix open tr q :
  always_at_most_one open tr -> q `prefix_of` tr ->
  length (fold_left step_open q open) <= 1.
Proof.
  revert open q. induction tr as [|e tr IH]; intros open q [Hopen Hrest] Hq.
  - apply prefix_nil_inv in Hq. now subst q.
  - destruct q as [|e' q]; [exact Hopen|].
    pose proof (prefix_cons_inv_1 _ _ _ _ Hq) as ->.
    apply prefix_cons_inv_2 in Hq. simpl. now apply IH.
Qed.

Lemma filter_out_only (t : Terminal) : filter (fun u => u <> t) [t] = [].
Proof.
  rewrite filter_cons. destruct (decide (t <> t)); [congruence | reflexivity].
Qed.

Lemma run_events_open config r w :
  always_at_most_one (option_list (terminal w)) (run_events config r w)
  /\ fold_left step_open (run_events config r w) (option_list (terminal w))
     = [fresh w].
Proof.
  unfold run_events.
  destruct (terminal w) as [old|], (terminal_startinsert config);
    cbn [option_list option_rect app always_at_most_one fold_left step_open length];
    rewrite ?filter_out_only; cbn [app length]; repeat split; lia || exact I.
Qed.

Lemma run_events_disposals config r w t :
  disposals t (run_events config r w)
  = match terminal w with
    | Some old => if Nat.eqb old t then 1 else 0
    | None => 0
    end.
Proof.
  unfold run_events, disposals.
  destruct (terminal w) as [old|], (terminal_startinsert config); simpl;
    try reflexivity; now destruct (Nat.eqb old t).
Qed.

Lemma run_events_handles config r w :
  (forall t, terminal w = Some t -> t < fresh w) ->
  handles_below (S (fresh w)) (run_events config r w).
Proof.
  intros Hslot. unfold run_events, handles_below.
  destruct (terminal w) as [old|] eqn:Hterminal, (terminal_startinsert config);
    repeat (constructor; simpl; try lia; try exact I);
    specialize (Hslot old eq_refl); lia.
Qed.

Lemma consistent_initial : consistent initial_world.
Proof.
  split; simpl; try easy.
  - constructor.
  - intros p Hp. apply prefix_nil_inv in Hp. subst p.
    unfold open_terminals. simpl. lia.
  - intros t. unfold disposals. simpl. lia.
Qed.

Lemma runSingle_consistent config document runnable w :
  consistent w ->
  consistent (world_after (runSingle config document runnable w)).
Proof.
  intros Hw. destruct runnable as [r|]; [|exact Hw].
  destruct (isWgslDocument document) eqn:Hdoc;
    [|now rewrite (runSingle_not_wgsl _ _ _ _ Hdoc)].
  rewrite (runSingle_wgsl _ _ _ _ Hdoc). cbn [world_after].
  destruct Hw as [Hopen Hslot Hhandles Hprefix Honce Hfresh].
  destruct (run_events_open config r w) as [Halways Hfold].
  split; cbn [terminal fresh trace].
  - rewrite open_terminals_app, Hopen. exact Hfold.
  - intros t [= <-]. lia.
  - apply Forall_app. split.
    + apply (handles_below_mono (fresh w)); [lia | exact Hhandles].
    + now apply run_events_handles.
  - intros p Hp. apply prefix_app_cases in Hp as [Hp | (q & -> & Hq)].
    + now apply Hprefix.
    + rewrite open_terminals_app, Hopen.
      now apply (always_at_most_one_prefix _ (run_events config r w)).
  - intros t. rewrite disposals_app, run_events_disposals.
    destruct (terminal w) as [old|] eqn:Hterminal.
    + destruct (Nat.eqb_spec old t) as [->|_].
      * rewrite (Hfresh t eq_refl). lia.
      * specialize (Honce t). lia.
    + specialize (Honce t). lia.
  - intros t [= <-]. rewrite disposals_app, run_events_disposals.
    rewrite (handles_below_disposals (fresh w)) by (exact Hhandles || lia).
    destruct (terminal w) as [old|] eqn:Hterminal; [|reflexivity].
    specialize (Hslot old eq_refl).
    destruct (Nat.eqb_spec old (fresh w)); [lia | reflexivity].
Qed.

Lemma run_all_consistent invocations w :
  consistent w -> consistent (run_all invocations w).
Proof.
  revert w. induction invocations as [|i invocations IH]; intros w Hw.
  - exact Hw.
  - apply IH. now apply runSingle_consistent.
Qed.

(** X25: as long as invocations of [runSingle] do not overlap, each being
    resumed before the next starts, a run that finds a terminal in the slot
    disposes that terminal, which had not been disposed before and is
    thereby disposed exactly once, then creates the new terminal and stores
    it; at every point of the whole history at most one terminal created by
    [runSingle] is open, and at the end the open terminal is the one in the
    slot. *)
Theorem run_terminal_slot invocations config document r :
  isWgslDocument document = true ->
  let w := run_all invocations initial_world in
  let w' := world_after (runSingle config document (Some r) w) in
  (forall old, terminal w = Some old ->
     exists opt text rest,
       trace w' = trace w ++ TerminalDispose old
                    :: CreateTerminal opt (fresh w)
                    :: TerminalSendText (fresh w) text :: rest
       /\ disposals old (trace w) = 0
       /\ disposals old (trace w') = 1
       /\ old <> fresh w)
  /\ (forall p, p `prefix_of` trace w' -> length (open_terminals p) <= 1)
  /\ terminal w' = Some (fresh w)
  /\ open_terminals (trace w') = [fresh w].
Proof.
  intros Hdoc w w'.
  assert (Hw : consistent w) by apply run_all_consistent, consistent_initial.
  assert (Hw' : consistent w') by now apply runSingle_consistent.
  assert (Hterminal : terminal w' = Some (fresh w))
    by (subst w'; now rewrite (runSingle_wgsl _ _ _ _ Hdoc)).
  split; [|split; [|split]].
  - intros old Hold.
    pose proof (slot_not_disposed _ Hw old Hold) as Hbefore.
    pose proof (slot_allocated _ Hw old Hold) as Hallocated.
    eexists _, _, _. split; [|split; [exact Hbefore|split; [|lia]]].
    + subst w'. rewrite (runSingle_wgsl _ _ _ _ Hdoc). cbn [world_after trace].
      unfold run_events. rewrite Hold. reflexivity.
    + subst w'. rewrite (runSingle_wgsl _ _ _ _ Hdoc). cbn [world_after trace].
      rewrite disposals_app, run_events_disposals, Hold, Hbefore.
      now rewrite Nat.eqb_refl.
  - exact (at_most_one_open _ Hw').
  - exact Hterminal.
  - rewrite (slot_is_open _ Hw'), Hterminal. reflexivity.
Qed.

Lemma run_terminal_slot_witness :
  let w := run_all [invoke default_config (webby_runnable ["run"] [])]
             initial_world in
  let w' := world_after
              (runSingle default_config wgsl_document
                 (Some (shell_runnable "make" ["all"])) w) in
  (forall old, terminal w = Some old ->
     exists opt text rest,
       trace w' = trace w ++ TerminalDispose old
                    :: CreateTerminal opt (fresh w)
                    :: TerminalSendText (fresh w) text :: rest
       /\ disposals old (trace w) = 0
       /\ disposals old (trace w') = 1
       /\ old <> fresh w)
  /\ (forall p, p `prefix_of` trace w' -> length (open_terminals p) <= 1)
  /\ terminal w' = Some (fresh w)
  /\ open_terminals (trace w') = [fresh w].
Proof.
  exact (run_terminal_slot [invoke default_config (webby_runnable ["run"] [])]
           default_config wgsl_document (shell_runnable "make" ["all"]) eq_refl).
Defined.


(** ** Invocations that overlap *)

Lemma runSingle_start_resume config document runnable w :
  world_after (runSingle config document runnable w)
  = match runSingle_start config document runnable w with
    | (Some p, w') => runSingle_resume p w'
    | (None, w') => w'
    end.
Proof.
  unfold runSingle, runSingle_start. destruct runnable as [r|]; [|reflexivity].
  destruct (negb (isWgslDocument document)); [reflexivity|].
  destruct (construct_args r) as [r' args]. reflexivity.
Qed.

Lemma schedule_one_by_one invocations w :
  schedule (one_by_one invocations) w = (run_all invocations w, []).
Proof.
  unfold schedule, run_all, one_by_one. revert w.
  induction invocations as [|i invocations IH]; intros w; [reflexivity|].
  cbn [flat_map app fold_left]. rewrite <- IH. f_equal.
  rewrite runSingle_start_resume. cbn [step].
  destruct (runSingle_start _ _ _ w) as [[p|] w']; reflexivity.
Qed.

(** C8: two invocations of [runSingle] of which the second starts while the
    first is suspended at [await window.createTerminal(opt)].  The second
    finds the slot empty and disposes nothing; when both have been resumed,
    the terminals 0 and 1 are open at the same time and the slot holds 1.
    Terminal 0 is in no slot any more: a later run disposes terminal 1 and
    leaves terminal 0 open. *)
Lemma runSingle_overlapping_invocations :
  let a := invoke default_config (webby_runnable ["run"] []) in
  let b := invoke default_config (shell_runnable "make" ["all"]) in
  let w := fst (schedule [Start a; Start b; Resume 0; Resume 0] initial_world) in
  let w' := world_after (runSingle default_config wgsl_document
                           (Some (webby_runnable ["test"] [])) w) in
  trace w
  = [CreateTerminal {| opt_name := "webby run"; opt_cwd := "/work" |} 0;
     CreateTerminal {| opt_name := "shell"; opt_cwd := "/work" |} 1;
     TerminalSendText 0 "webby run";
     TerminalSendText 1 "shell all"]
  /\ terminal w = Some 1
  /\ open_terminals (trace w) = [0; 1]
  /\ ~ (forall p, p `prefix_of` trace w -> length (open_terminals p) <= 1)
  /\ disposals 0 (trace w') = 0
  /\ disposals 1 (trace w') = 1
  /\ open_terminals (trace w') = [0; 2].
Proof.
  repeat split; try reflexivity.
  intros H.
  match type of H with
  | forall p, p `prefix_of` ?tr -> _ =>
      assert (Hall : tr `prefix_of` tr) by reflexivity;
      specialize (H tr Hall)
  end.
  vm_compute in H. lia.
Qed.


(** ** Further examples *)

Example fetchRunnable_other_document :
  fetchRunnable toml_document (inl TypeError) initial_world = (inr [], initial_world).
Proof. reflexivity. Qed.

Example debugSingle_unknown_runtime :
  let c := debugSingle JSON_parse_examples ToString_examples replace_first
             gdb_config wgsl_document
             (Some (webby_runnable ["test"; "--bin"; "foo"] [])) [line_artifact]
             initial_world in
  outcome c = inl (Error "Invalid debug runtime: gdb")
  /\ trace (world_after c)
     = [Spawn "webby" ["test"; "--bin"; "foo"; "--no-run";
                       "--message-format=json"]].
Proof. split; reflexivity. Qed.

Example debugSingle_nvim_dap :
  let c := debugSingle JSON_parse_examples ToString_examples replace_first
             nvim_dap_config wgsl_document
             (Some (webby_runnable ["run"; "--bin"; "foo"] ["a"; "b"]))
             [line_other; line_artifact] initial_world in
  outcome c = inr tt
  /\ trace (world_after c)
     = [Spawn "webby" ["build"; "--bin"; "foo"; "--"; "'a'"; "b";
                       "--message-format=json"];
        NvimLua ("require(" +:+ double_quoted "dap" +:+ ").run({program="
                 +:+ double_quoted "/x" +:+ ", args={"
                 +:+ double_quoted "'a'" +:+ "," +:+ double_quoted "b"
                 +:+ "}})")].
Proof. split; reflexivity. Qed.

Example runSingle_twice :
  trace (run_all [invoke default_config (webby_runnable ["run"] []);
                  invoke default_config (shell_runnable "make" ["all"])]
           initial_world)
  = [CreateTerminal {| opt_name := "webby run"; opt_cwd := "/work" |} 0;
     TerminalSendText 0 "webby run";
     TerminalDispose 0;
     CreateTerminal {| opt_name := "shell"; opt_cwd := "/work" |} 1;
     TerminalSendText 1 "shell all"].
Proof. reflexivity. Qed.


(** * Further properties of the run and debug commands *)

Lemma join_cons sep x l :
  l <> [] -> join sep (x :: l) = x +:+ sep +:+ join sep l.
Proof. destruct l; [congruence | reflexivity]. Qed.

Lemma quoted_in_place_twice lbl loc a :
  snd (construct_args
         (quoted_in_place {| label := lbl; location := loc; variant := RunnableWebby a |}))
  = match executableArgs a with
    | [] => webbyArgs a
    | first :: others =>
        webbyArgs a ++ "--" :: single_quoted (single_quoted first) :: others
    end.
Proof.
  destruct a as [root exe webby over common].
  destruct exe; reflexivity.
Qed.

(** X1: [runSingle] invoked twice on the same runnable object wraps the
    first executable argument twice: the second command line carries it in
    two pairs of single quotes. *)
Theorem runSingle_twice_quotes_twice config document w lbl loc a first others :
  isWgslDocument document = true ->
  executableArgs a = first :: others ->
  let r := {| label := lbl; location := loc; variant := RunnableWebby a |} in
  let c1 := runSingle config document (Some r) w in
  let c2 := runSingle config document (runnable_after c1) (world_after c1) in
  sent_texts (trace (world_after c2))
  = sent_texts (trace w)
    ++ ["webby " +:+ join " " (webbyArgs a ++ "--" :: single_quoted first :: others);
        "webby " +:+ join " "
          (webbyArgs a ++ "--" :: single_quoted (single_quoted first) :: others)].
Proof.
  intros Hdoc Hexe r c1 c2. subst c2 c1.
  rewrite (runSingle_wgsl _ _ r _ Hdoc). cbn [runnable_after world_after].
  rewrite (runSingle_wgsl _ _ _ _ Hdoc). cbn [world_after trace].
  rewrite !sent_texts_app, !sent_texts_run_events.
  subst r. rewrite quoted_in_place_twice, construct_args_webby, Hexe.
  unfold spec_webby_args, command_line. rewrite Hexe. simpl.
  now rewrite <- app_assoc.
Qed.

Lemma runSingle_twice_quotes_twice_witness :
  let r := webby_runnable ["run"] ["a"; "b"] in
  let c1 := runSingle default_config wgsl_document (Some r) initial_world in
  let c2 := runSingle default_config wgsl_document (runnable_after c1) (world_after c1) in
  sent_texts (trace (world_after c2))
  = [] ++ ["webby run -- 'a' b"; "webby run -- ''a'' b"].
Proof.
  exact (runSingle_twice_quotes_twice default_config wgsl_document initial_world
           "webby run" None
           {| workspaceRoot := None; executableArgs := ["a"; "b"];
              webbyArgs := ["run"]; overrideWebby := None;
              webby_common := common_args |}
           "a" ["b"] eq_refl eq_refl).
Defined.

Lemma echoRunCommandLine_picked document server picked w r w1 :
  pickRunnable document server picked w = (inr (Some r), w1) ->
  echoRunCommandLine document server picked w =
  {| echo_outcome := inr tt;
     echo_lines := [[join " " ("webby" :: snd (construct_args r))]];
     echo_runnable_after := Some (quoted_in_place r);
     echo_world_after := w1 |}.
Proof.
  intros Hpick. unfold echoRunCommandLine. rewrite Hpick.
  rewrite (surjective_pairing (construct_args r)), construct_args_fst.
  reflexivity.
Qed.

(** X2: for the runnable the user picks, [echoRunCommandLine] echoes one
    line, the word [webby] and the constructed arguments joined by spaces,
    whatever the runnable's kind; it leaves the host as the picker left it
    and quotes [executableArgs[0]] in place as [runSingle] does.  For a
    [webby] runnable with at least one constructed argument the echoed line
    is the text [runSingle] types into the terminal; with no argument
    [runSingle] types the runnable's kind followed by a space where the echo
    is the bare word [webby]. *)
Theorem echoRunCommandLine_matches_run config document server picked w r w1 :
  pickRunnable document server picked w = (inr (Some r), w1) ->
  let e := echoRunCommandLine document server picked w in
  let constructed := snd (construct_args r) in
  let typed :=
    sent_texts (trace (world_after (runSingle config document (Some r) w1))) in
  echo_lines e = [[join " " ("webby" :: constructed)]]
  /\ echo_world_after e = w1
  /\ echo_runnable_after e = runnable_after (runSingle config document (Some r) w1)
  /\ (kind r = "webby" -> constructed <> [] ->
      typed = sent_texts (trace w1) ++ concat (echo_lines e))
  /\ (constructed = [] ->
      concat (echo_lines e) = ["webby"]
      /\ typed = sent_texts (trace w1) ++ [kind r +:+ " "]).
Proof.
  intros Hpick e constructed typed.
  assert (Hdoc : isWgslDocument document = true).
  { unfold pickRunnable, fetchRunnable in Hpick.
    destruct (isWgslDocument document); [reflexivity|]. simpl in Hpick.
    discriminate. }
  subst e typed constructed. rewrite (echoRunCommandLine_picked _ _ _ _ _ _ Hpick).
  rewrite (runSingle_wgsl _ _ _ _ Hdoc).
  cbn [echo_lines echo_world_after echo_runnable_after world_after
       runnable_after trace concat].
  rewrite sent_texts_app, sent_texts_run_events. unfold command_line.
  split; [reflexivity|]. split; [reflexivity|]. split; [reflexivity|]. split.
  - intros Hkind Hne. rewrite (join_cons _ _ _ Hne), Hkind. reflexivity.
  - intros ->. split; reflexivity.
Qed.

Lemma echoRunCommandLine_matches_run_witness :
  let r := webby_runnable ["run"; "--bin"; "foo"] ["a"] in
  let w1 := snd (pickRunnable wgsl_document (inr [r]) 0 initial_world) in
  let e := echoRunCommandLine wgsl_document (inr [r]) 0 initial_world in
  let constructed := snd (construct_args r) in
  let typed :=
    sent_texts (trace (world_after
      (runSingle default_config wgsl_document (Some r) w1))) in
  echo_lines e = [["webby run --bin foo -- 'a'"]]
  /\ echo_world_after e = w1
  /\ echo_runnable_after e
     = runnable_after (runSingle default_config wgsl_document (Some r) w1)
  /\ (kind r = "webby" -> constructed <> [] ->
      typed = sent_texts (trace w1) ++ concat (echo_lines e))
  /\ (constructed = [] ->
      concat (echo_lines e) = ["webby"]
      /\ typed = sent_texts (trace w1) ++ [kind r +:+ " "]).
Proof.
  exact (echoRunCommandLine_matches_run default_config wgsl_document
           (inr [webby_runnable ["run"; "--bin"; "foo"] ["a"]]) 0 initial_world
           (webby_runnable ["run"; "--bin"; "foo"] ["a"]) _ eq_refl).
Defined.


Lemma find_first_match {A} (p : A -> bool) (pre : list A) (x : A) (post : list A) :
  forallb (fun y => negb (p y)) pre = true -> p x = true ->
  List.find p (pre ++ x :: post) = Some x.
Proof.
  intros Hpre Hx. induction pre as [|y pre IH]; simpl.
  - now rewrite Hx.
  - simpl in Hpre. apply andb_prop in Hpre as [Hy Hpre].
    apply negb_true_iff in Hy. rewrite Hy. now apply IH.
Qed.

Lemma find_no_match {A} (p : A -> bool) (l : list A) :
  forallb (fun y => negb (p y)) l = true -> List.find p l = None.
Proof.
  induction l as [|y l IH]; [reflexivity|]. simpl. intros H.
  apply andb_prop in H as [Hy Hl]. apply negb_true_iff in Hy.
  rewrite Hy. now apply IH.
Qed.

(** X3: on a WGSL document, [testCurrent] runs the first runnable whose
    label starts with [webby test] and no other: its effect on the host and
    on that runnable is that of [runSingle] on it, started after the fetch;
    the runnables before it are not run. *)
Theorem testCurrent_runs_first_test config document w before test after :
  isWgslDocument document = true ->
  forallb (fun r => negb (is_test_runnable r)) before = true ->
  is_test_runnable test = true ->
  let server := inr (before ++ test :: after) in
  let fetched := snd (fetchRunnable document server w) in
  testCurrent config document server w
    = runSingle config document (Some test) fetched
  /\ sent_texts (trace (world_after (testCurrent config document server w)))
     = sent_texts (trace w) ++ [command_line test (snd (construct_args test))].
Proof.
  intros Hdoc Hbefore Htest server fetched.
  assert (Hrun : testCurrent config document server w
                 = runSingle config document (Some test) fetched).
  { unfold testCurrent. subst fetched server. unfold fetchRunnable.
    rewrite Hdoc. cbn [negb fst snd].
    rewrite length_app. cbn [length].
    replace (length before + S (length after) =? 0)%nat with false
      by (symmetry; apply Nat.eqb_neq; lia).
    now rewrite (find_first_match _ _ _ _ Hbefore Htest). }
  split; [exact Hrun|]. rewrite Hrun.
  rewrite (runSingle_wgsl _ _ _ _ Hdoc). cbn [world_after trace].
  rewrite sent_texts_app, sent_texts_run_events.
  subst fetched. unfold fetchRunnable. rewrite Hdoc. cbn [negb snd emit trace].
  now rewrite !sent_texts_app, !app_nil_r.
Qed.

Lemma testCurrent_runs_first_test_witness :
  let server :=
    inr ([webby_runnable ["run"] []]
           ++ {| label := "webby test --lib"; location := None;
                 variant := variant (webby_runnable ["test"; "--lib"] []) |}
           :: [shell_runnable "make" ["test"]]) in
  let test :=
    {| label := "webby test --lib"; location := None;
       variant := variant (webby_runnable ["test"; "--lib"] []) |} in
  let fetched := snd (fetchRunnable wgsl_document server initial_world) in
  testCurrent default_config wgsl_document server initial_world
    = runSingle default_config wgsl_document (Some test) fetched
  /\ sent_texts (trace (world_after
       (testCurrent default_config wgsl_document server initial_world)))
     = [] ++ ["webby test --lib"].
Proof.
  exact (testCurrent_runs_first_test default_config wgsl_document initial_world
           [webby_runnable ["run"] []]
           {| label := "webby test --lib"; location := None;
              variant := variant (webby_runnable ["test"; "--lib"] []) |}
           [shell_runnable "make" ["test"]] eq_refl eq_refl eq_refl).
Defined.

(** X4: when there is nothing to test, [testCurrent] never touches a
    terminal: if the document is not a WGSL document or the server returns
    no runnable it shows [No runnables found] (on a wrong document without
    asking the server), and if no label starts with [webby test] it does
    nothing after the fetch. *)
Theorem testCurrent_without_test config document server w :
  (isWgslDocument document = false \/ server = inr []
   \/ exists runnables,
        server = inr runnables
        /\ forallb (fun r => negb (is_test_runnable r)) runnables = true) ->
  let c := testCurrent config document server w in
  let fetched := snd (fetchRunnable document server w) in
  outcome c = inr tt
  /\ runnable_after c = None
  /\ terminal (world_after c) = terminal w
  /\ sent_texts (trace (world_after c)) = sent_texts (trace w)
  /\ (isWgslDocument document = false ->
      world_after c = emit (ShowInformationMessage "No runnables found") w)
  /\ (server = inr [] ->
      world_after c = emit (ShowInformationMessage "No runnables found") fetched).
Proof.
  intros Hnone c fetched. subst c fetched.
  unfold testCurrent, fetchRunnable.
  destruct (isWgslDocument document) eqn:Hdoc; cbn [negb fst snd].
  - destruct Hnone as [Hwrong | [-> | (runnables & -> & Hall)]]; [discriminate| |].
    + cbn. repeat split; try reflexivity; try discriminate.
      unfold sent_texts. rewrite <- !app_assoc, omap_app. simpl. apply app_nil_r.
    + destruct runnables as [|r runnables].
      * cbn. repeat split; try reflexivity; try discriminate.
        unfold sent_texts. rewrite <- !app_assoc, omap_app. simpl. apply app_nil_r.
      * cbn [length Nat.eqb].
        assert (Hfind : List.find is_test_runnable (r :: runnables) = None).
        { now apply find_no_match. }
        rewrite Hfind. cbn. repeat split; try reflexivity; try discriminate.
        unfold sent_texts. rewrite <- !app_assoc, omap_app. simpl. apply app_nil_r.
  - cbn. repeat split; try reflexivity; try discriminate.
    unfold sent_texts. rewrite omap_app. simpl. apply app_nil_r.
Qed.

Lemma testCurrent_without_test_witness :
  let c := testCurrent default_config toml_document (inr [webby_runnable ["test"] []])
             initial_world in
  let fetched :=
    snd (fetchRunnable toml_document (inr [webby_runnable ["test"] []])
           initial_world) in
  outcome c = inr tt
  /\ runnable_after c = None
  /\ terminal (world_after c) = None
  /\ sent_texts (trace (world_after c)) = []
  /\ (isWgslDocument toml_document = false ->
      world_after c
      = emit (ShowInformationMessage "No runnables found") initial_world)
  /\ (@inr Exn (list Runnable) [webby_runnable ["test"] []] = inr [] ->
      world_after c = emit (ShowInformationMessage "No runnables found") fetched).
Proof.
  exact (testCurrent_without_test default_config toml_document
           (inr [webby_runnable ["test"] []]) initial_world
           (or_introl eq_refl)).
Defined.


(** ** Further properties of the filter and of the scan *)

Lemma kind_of_flag_tags arg k : kind_of_flag arg = Some k -> In k kind_tags.
Proof.
  unfold kind_of_flag, kind_tags.
  repeat (match goal with |- context [String.eqb ?a ?b] =>
            destruct (String.eqb a b) end;
          [intros [= <-]; simpl; tauto|]).
  discriminate.
Qed.

Lemma kind_scan_tags seed l k :
  (forall k', seed = Some k' -> In k' kind_tags) ->
  fst (kind_scan seed l) = Some k -> In k kind_tags.
Proof.
  revert seed. induction l as [|arg rest IH]; intros seed Hseed; simpl.
  - intros H. now apply Hseed.
  - destruct seed as [k'|]; simpl.
    + intros [= <-]. now apply Hseed.
    + apply IH. intros k'. apply kind_of_flag_tags.
Qed.

Lemma kind_scan_name seed l n :
  snd (kind_scan seed l) = Some n -> In n l.
Proof.
  revert seed. induction l as [|arg rest IH]; intros seed; simpl; [discriminate|].
  destruct seed as [k|]; simpl.
  - destruct (negb (String.eqb k "lib")); [|discriminate].
    intros [= <-]. now left.
  - intros H. right. now apply (IH _ H).
Qed.

Lemma package_scan_name found l n :
  package_scan found l = Some n -> In n l.
Proof.
  revert found. induction l as [|arg rest IH]; intros found; simpl; [discriminate|].
  destruct found.
  - intros [= <-]. now left.
  - intros H. right. now apply (IH _ H).
Qed.

(** X5: whatever the arguments, the expected kind derived by
    [debugSingle] is undefined or one of [bin], [lib], [test], [example],
    [bench], and the expected name, when defined, is one of the tokens of
    [webbyArgs]; an empty [webbyArgs] (in particular a [shell] runnable)
    gives no filter at all. *)
Theorem expected_filter_range (webbyArgs : list string) :
  (forall k, fst (expected_filter webbyArgs) = Some k -> In k kind_tags)
  /\ (forall n, snd (expected_filter webbyArgs) = Some n -> In n webbyArgs)
  /\ expected_filter [] = (None, None)
  /\ (forall lbl loc a,
        expected_filter
          (webbyArgs_or_empty
             {| label := lbl; location := loc; variant := RunnableShell a |})
        = (None, None)).
Proof.
  split; [|split; [|split; reflexivity]].
  - intros k. unfold expected_filter.
    pose proof (kind_scan_tags None webbyArgs k) as Htags.
    destruct (kind_scan None webbyArgs) as [ek [name|]]; simpl in *;
      intros H; apply Htags; congruence.
  - intros n. unfold expected_filter.
    pose proof (kind_scan_name None webbyArgs n) as Hname.
    destruct (kind_scan None webbyArgs) as [ek [name|]]; simpl in *.
    + intros H. now apply Hname.
    + apply package_scan_name.
Qed.

Section ScanPrefix.

Variable JSON_parse : string -> option JSValue.

Lemma scan_stdout_suffix ek en lines executable unread :
  scan_stdout JSON_parse ek en lines = inr (executable, unread) ->
  exists read, lines = read ++ unread.
Proof.
  revert unread. induction lines as [|line rest IH]; intros unread; simpl.
  - intros [= <- <-]. now exists [].
  - destruct (scan_line JSON_parse ek en line) as [e|[|found]]; [discriminate| |].
    + intros H. destruct (IH _ H) as [read ->]. now exists (line :: read).
    + intros [= <- <-]. now exists [line].
Qed.

Lemma scan_stdout_broke ek en lines executable unread more :
  scan_stdout JSON_parse ek en lines = inr (executable, unread) ->
  truthy executable = true ->
  scan_stdout JSON_parse ek en (lines ++ more) = inr (executable, unread ++ more).
Proof.
  revert unread. induction lines as [|line rest IH]; intros unread; simpl.
  - intros [= <- <-]. discriminate.
  - destruct (scan_line JSON_parse ek en line) as [e|[|found]]; [discriminate| |].
    + apply IH.
    + now intros [= <- <-].
Qed.

Lemma scan_stdout_threw ek en lines e more :
  scan_stdout JSON_parse ek en lines = inl e ->
  scan_stdout JSON_parse ek en (lines ++ more) = inl e.
Proof.
  induction lines as [|line rest IH]; simpl; [discriminate|].
  destruct (scan_line JSON_parse ek en line) as [e'|[|found]]; [easy | exact IH | easy].
Qed.

(** X6: the scan stops at the line that decides it.  Once a stream has
    resolved to an executable, whatever the build tool prints afterwards is
    left unread and changes nothing, even lines on which an iteration would
    throw; the unread lines are a suffix of the stream and the executable is
    never an empty value.  Likewise a stream on which the scan threw a
    [TypeError] throws it whatever follows. *)
Theorem resolve_executable_stops ek en lines more :
  (forall executable unread,
     resolve_executable JSON_parse ek en lines = inr (executable, unread) ->
     resolve_executable JSON_parse ek en (lines ++ more)
       = inr (executable, unread ++ more)
     /\ truthy executable = true
     /\ exists read, lines = read ++ unread)
  /\ (resolve_executable JSON_parse ek en lines = inl TypeError ->
      resolve_executable JSON_parse ek en (lines ++ more) = inl TypeError).
Proof.
  unfold resolve_executable. split.
  - intros executable unread.
    destruct (scan_stdout JSON_parse ek en lines) as [e|[found rest]] eqn:Hscan;
      [discriminate|]. cbn [bind_exn fst].
    destruct (truthy found) eqn:Htruthy; [|discriminate].
    intros [= <- <-].
    rewrite (scan_stdout_broke _ _ _ _ _ more Hscan Htruthy).
    cbn [bind_exn fst]. rewrite Htruthy. repeat split.
    now apply (scan_stdout_suffix ek en lines found).
  - destruct (scan_stdout JSON_parse ek en lines) as [e|[found rest]] eqn:Hscan.
    + cbn [bind_exn]. intros [= ->].
      now rewrite (scan_stdout_threw _ _ _ _ more Hscan).
    + cbn [bind_exn fst]. now destruct (truthy found).
Qed.

End ScanPrefix.

Lemma resolve_executable_stops_witness :
  resolve_executable JSON_parse_examples (Some "bin") None
    ([line_other; line_artifact] ++ ["null"; "true"])
    = inr (JString "/x", [] ++ ["null"; "true"])
  /\ truthy (JString "/x") = true
  /\ exists read, [line_other; line_artifact] = read ++ [].
Proof.
  exact (proj1 (resolve_executable_stops JSON_parse_examples (Some "bin") None
                  [line_other; line_artifact] ["null"; "true"])
           (JString "/x") [] eq_refl).
Defined.

Lemma expected_filter_range_witness :
  In "bin" kind_tags /\ In "foo" ["--bin"; "foo"].
Proof.
  split.
  - exact (proj1 (expected_filter_range ["--bin"; "foo"]) "bin" eq_refl).
  - exact (proj1 (proj2 (expected_filter_range ["--bin"; "foo"])) "foo" eq_refl).
Defined.

Lemma debug_args_shape args :
  first_is "run" (debug_args args) = false
  /\ last (debug_args args) = Some "--message-format=json".
Proof.
  rewrite debug_args_rewritten. unfold rewritten, first_is.
  destruct args as [|first others]; [split; reflexivity|].
  split; [|apply last_snoc].
  destruct (String.eqb first "test") eqn:Htest.
  - apply String.eqb_eq in Htest. subst first. reflexivity.
  - destruct (String.eqb first "run") eqn:Hrun; [reflexivity|].
    cbn. exact Hrun.
Qed.

(** X7: [debugSingle] spawns at most one process per invocation, and the
    argument list of that process never begins with [run] (a first token
    [run] has been replaced by [build]) and always ends with
    [--message-format=json].  This is a statement about the list handed to
    [spawn] only: a flag appended behind a [--] separator is, for the build
    tool, an argument of the executable. *)
Theorem debugSingle_never_spawns_run JSON_parse ToString String_replace
    config document runnable stdout w :
  let c := debugSingle JSON_parse ToString String_replace config document
             runnable stdout w in
  spawned (trace (world_after c)) = spawned (trace w)
  \/ exists command args,
       spawned (trace (world_after c)) = spawned (trace w) ++ [(command, args)]
       /\ first_is "run" args = false
       /\ last args = Some "--message-format=json".
Proof.
  intros c. subst c. destruct runnable as [r|]; [|now left].
  destruct (isWgslDocument document) eqn:Hdoc.
  - right. exists (kind r), (debug_args (snd (construct_args r))).
    split; [|apply debug_args_shape].
    rewrite (debugSingle_wgsl _ _ _ _ _ _ _ _ Hdoc).
    destruct (resolve_executable _ _ _ _) as [e|[executable rest]]; simpl.
    + now rewrite spawned_app.
    + destruct (conversion_throws executable); simpl.
      * now rewrite spawned_app.
      * rewrite launch_spawned. simpl. now rewrite spawned_app.
  - left. unfold debugSingle. now rewrite Hdoc.
Qed.

(** ** The arguments handed to nvim-dap *)

Lemma split_spaces_plain a :
  has_space a = false -> split_spaces a = [a].
Proof.
  induction a as [|c a IH]; [reflexivity|]. simpl.
  destruct (Ascii.eqb c " "); [discriminate|]. simpl. intros H.
  now rewrite (IH H).
Qed.

Lemma split_spaces_app a s :
  has_space a = false ->
  split_spaces (a +:+ " " +:+ s) = a :: split_spaces s.
Proof.
  induction a as [|c a IH]; [reflexivity|]. simpl.
  destruct (Ascii.eqb c " "); [discriminate|]. simpl. intros H.
  now rewrite (IH H).
Qed.

Lemma join_split_spaces s : join " " (split_spaces s) = s.
Proof.
  induction s as [|c s IH]; [reflexivity|]. simpl.
  destruct (Ascii.eqb_spec c " ") as [->|Hc].
  - destruct (split_spaces s) as [|word words] eqn:Hsplit.
    + destruct s; simpl in Hsplit; [discriminate|].
      destruct (Ascii.eqb a " "); [discriminate|].
      now destruct (split_spaces s).
    + change (join " " ("" :: word :: words)) with (" " +:+ join " " (word :: words)).
      now rewrite IH.
  - destruct (split_spaces s) as [|word words] eqn:Hsplit.
    + destruct s; simpl in Hsplit; [discriminate|].
      destruct (Ascii.eqb a " "); [discriminate|].
      now destruct (split_spaces s).
    + rewrite <- IH. destruct words; reflexivity.
Qed.

Lemma split_join_plain l :
  forallb plain_token l = true ->
  filter (fun s => s <> "") (split_spaces (join " " l)) = l.
Proof.
  induction l as [|x l IH]; [reflexivity|].
  cbn [forallb]. intros H. apply andb_prop in H as [Hx Hl].
  unfold plain_token in Hx. apply andb_prop in Hx as [Hne Hspace].
  apply negb_true_iff in Hne, Hspace. apply String.eqb_neq in Hne.
  destruct l as [|y l].
  - cbn [join]. rewrite (split_spaces_plain _ Hspace).
    rewrite filter_cons. now destruct (decide (x <> "")).
  - rewrite join_cons by discriminate.
    rewrite (split_spaces_app _ _ Hspace), filter_cons.
    destruct (decide (x <> "")); [|contradiction].
    now rewrite (IH Hl).
Qed.

Lemma single_quoted_plain s :
  has_space s = false -> plain_token (single_quoted s) = true.
Proof.
  intros H. unfold plain_token, single_quoted. simpl.
  apply negb_true_iff.
  induction s as [|c s IH]; [reflexivity|]. simpl in *.
  destruct (Ascii.eqb c " "); [discriminate|]. simpl in *. now apply IH.
Qed.

(** X8: the text that [debugSingle] puts between the braces of the
    replacement for [$args], before [String.prototype.replace] is applied:
    when every element of [executableArgs] is non-empty and free of spaces,
    the join with spaces and the split on spaces in between give the
    elements back, so the text is each element in double quotes, separated
    by commas, the first one still wrapped in the single quotes added
    during argument construction.  Joining the pieces of a split always
    gives the string back.  What [replace] makes of a dollar sign in that
    text is not part of the statement. *)
Theorem nvim_dap_args_round_trip lbl loc a :
  forallb plain_token (executableArgs a) = true ->
  let r := {| label := lbl; location := loc; variant := RunnableWebby a |} in
  nvim_dap_args (joined_executableArgs (fst (construct_args r)))
  = join "," (map double_quoted
                (match executableArgs a with
                 | [] => []
                 | first :: others => single_quoted first :: others
                 end))
  /\ forall s, join " " (split_spaces s) = s.
Proof.
  intros Hplain r. split; [|apply join_split_spaces].
  subst r. rewrite construct_args_webby. cbn [fst].
  unfold nvim_dap_args, joined_executableArgs, quoted_in_place. cbn.
  destruct (executableArgs a) as [|first others] eqn:Hexe; [reflexivity|].
  cbn [quote_first]. rewrite split_join_plain; [reflexivity|].
  cbn [forallb] in *. apply andb_prop in Hplain as [Hfirst Hothers].
  rewrite Hothers, andb_true_r. apply single_quoted_plain.
  unfold plain_token in Hfirst. apply andb_prop in Hfirst as [_ Hspace].
  now apply negb_true_iff in Hspace.
Qed.

Lemma nvim_dap_args_round_trip_witness :
  nvim_dap_args
    (joined_executableArgs
       (fst (construct_args (webby_runnable ["run"] ["--seed"; "7"]))))
  = join "," (map double_quoted ["'--seed'"; "7"])
  /\ forall s, join " " (split_spaces s) = s.
Proof.
  exact (nvim_dap_args_round_trip "webby run" None
           {| workspaceRoot := None; executableArgs := ["--seed"; "7"];
              webbyArgs := ["run"]; overrideWebby := None;
              webby_common := common_args |} eq_refl).
Defined.


(** * Release lookup *)

Lemma endsWith_suffix s suffix :
  Release.endsWith s suffix = true <-> exists before, s = before +:+ suffix.
Proof.
  split.
  - induction s as [|c s IH]; simpl.
    + rewrite orb_false_r. intros H. apply String.eqb_eq in H. subst suffix.
      now exists "".
    + destruct (String.eqb (String c s) suffix) eqn:Heq.
      * intros _. apply String.eqb_eq in Heq. subst suffix. now exists "".
      * simpl. intros H. destruct (IH H) as [before ->].
        now exists (String c before).
  - intros [before ->]. induction before as [|c before IH].
    + change ("" +:+ suffix) with suffix.
      destruct suffix; cbn [Release.endsWith]; now rewrite String.eqb_refl.
    + change (String c before +:+ suffix) with (String c (before +:+ suffix)).
      cbn [Release.endsWith]. rewrite IH. apply orb_true_r.
Qed.

Lemma find_first_split {A} (p : A -> bool) (l : list A) (x : A) :
  List.find p l = Some x ->
  p x = true
  /\ exists before after,
       l = before ++ x :: after /\ forallb (fun y => negb (p y)) before = true.
Proof.
  induction l as [|y l IH]; simpl; [discriminate|].
  destruct (p y) eqn:Hy.
  - intros [= <-]. split; [exact Hy|]. now exists [], l.
  - intros H. destruct (IH H) as (Hx & before & after & -> & Hbefore).
    split; [exact Hx|]. exists (y :: before), after. simpl.
    now rewrite Hy, Hbefore.
Qed.

(** X9: a release returned by [getLatestRelease] always fits the host: its
    asset is the first one of the fetched release whose download URL ends
    with the host's platform triple, a dot and the archive type ([zip] on
    win32, [gz] elsewhere); the URL is that asset's; the executable name is
    [wgsl-analyzer.exe] exactly on win32; and the tag is the release's, with
    the first ten characters of the publication date appended on the
    nightly channel. *)
Theorem getLatestRelease_fits_host h fetch updatesChannel latest :
  Release.getLatestRelease h fetch updatesChannel = inr (Some latest) ->
  exists response release triple a before after,
    fetch (Release.releaseURL updatesChannel) = inr response
    /\ Release.ok response = true
    /\ Release.json response = inr release
    /\ Release.getPlatform h = Some triple
    /\ Release.assets release = before ++ a :: after
    /\ forallb
         (fun val =>
            negb (Release.endsWith (Release.browser_download_url val)
                    (triple +:+ "." +:+ Release.suffix_of h))) before = true
    /\ (exists prefix,
          Release.url latest = prefix +:+ triple +:+ "." +:+ Release.suffix_of h)
    /\ Release.asset latest = Some a
    /\ Release.url latest = Release.browser_download_url a
    /\ Release.name latest
       = (if String.eqb (Release.platform h) "win32"
          then "wgsl-analyzer.exe" else "wgsl-analyzer")
    /\ Release.tag latest
       = (if String.eqb updatesChannel "nightly"
          then Release.tag_name release +:+ " "
               +:+ String.substring 0 10 (Release.published_at release)
          else Release.tag_name release).
Proof.
  unfold Release.getLatestRelease.
  destruct (fetch (Release.releaseURL updatesChannel)) as [e|response] eqn:Hfetch;
    [discriminate|]. cbn [bind_exn].
  destruct (Release.ok response) eqn:Hok;
    [|cbn [negb]; destruct (Release.text response); discriminate]. cbn [negb].
  destruct (Release.json response) as [e|release] eqn:Hjson; [discriminate|].
  cbn [bind_exn].
  destruct (Release.getPlatform h) as [triple|] eqn:Hplatform; [|discriminate].
  destruct (List.find _ (Release.assets release)) as [a|] eqn:Hfind; [|discriminate].
  intros [= <-].
  apply find_first_split in Hfind as (Hends & before & after & Hassets & Hbefore).
  exists response, release, triple, a, before, after.
  repeat split; try assumption; try reflexivity.
  now apply endsWith_suffix.
Qed.

Lemma getLatestRelease_fits_host_witness :
  exists response release triple a before after,
    example_fetch (Release.releaseURL "nightly") = inr response
    /\ Release.ok response = true
    /\ Release.json response = inr release
    /\ Release.getPlatform musl_host = Some triple
    /\ Release.assets release = before ++ a :: after
    /\ forallb
         (fun val =>
            negb (Release.endsWith (Release.browser_download_url val)
                    (triple +:+ "." +:+ Release.suffix_of musl_host))) before = true
    /\ (exists prefix,
          Release.url example_latest
          = prefix +:+ triple +:+ "." +:+ Release.suffix_of musl_host)
    /\ Release.asset example_latest = Some a
    /\ Release.url example_latest = Release.browser_download_url a
    /\ Release.name example_latest
       = (if String.eqb (Release.platform musl_host) "win32"
          then "wgsl-analyzer.exe" else "wgsl-analyzer")
    /\ Release.tag example_latest
       = (if String.eqb "nightly" "nightly"
          then Release.tag_name release +:+ " "
               +:+ String.substring 0 10 (Release.published_at release)
          else Release.tag_name release).
Proof.
  exact (getLatestRelease_fits_host musl_host example_fetch "nightly"
           example_latest eq_refl).
Defined.

(** X10: [getLatestRelease] gives up without a release, and without an
    error, exactly when the response is not ok and its text could be read,
    or the response is ok and decoded and the host's architecture and
    platform are not in the table or no asset of the release has a download
    URL ending with the host's triple and archive type.  An error is that
    of the fetch, of reading the text of a response that is not ok, or of
    decoding a response that is ok. *)
Theorem getLatestRelease_none h fetch updatesChannel :
  (Release.getLatestRelease h fetch updatesChannel = inr None
   <-> exists response,
         fetch (Release.releaseURL updatesChannel) = inr response
         /\ ((Release.ok response = false
              /\ exists body, Release.text response = inr body)
             \/ exists release,
                  Release.ok response = true
                  /\ Release.json response = inr release
                  /\ (Release.getPlatform h = None
                      \/ exists triple,
                           Release.getPlatform h = Some triple
                           /\ forallb
                                (fun val =>
                                   negb (Release.endsWith
                                           (Release.browser_download_url val)
                                           (triple +:+ "." +:+ Release.suffix_of h)))
                                (Release.assets release) = true)))
  /\ (forall e,
        Release.getLatestRelease h fetch updatesChannel = inl e
        <-> fetch (Release.releaseURL updatesChannel) = inl e
            \/ exists response,
                 fetch (Release.releaseURL updatesChannel) = inr response
                 /\ ((Release.ok response = false /\ Release.text response = inl e)
                     \/ (Release.ok response = true
                         /\ Release.json response = inl e))).
Proof.
  unfold Release.getLatestRelease.
  destruct (fetch (Release.releaseURL updatesChannel)) as [e|response] eqn:Hfetch;
    cbn [bind_exn].
  { split; [split; [discriminate|intros (? & [=] & _)]|].
    intros e'. split; [intros [= ->]; now left|].
    intros [[= ->]|(? & [=] & _)]. reflexivity. }
  destruct (Release.ok response) eqn:Hok; cbn [negb].
  2:{ destruct (Release.text response) as [e|body] eqn:Htext; cbn [bind_exn].
      - split.
        + split; [discriminate|].
          intros (r & [= <-] & [[_ [body Hbody]]|(rel & Hrel & _)]); congruence.
        + intros e'. split.
          * intros [= ->]. right. exists response. split; [reflexivity|].
            left. now split.
          * intros [[=]|(r & [= <-] & [[_ Hr]|[Hr _]])]; congruence.
      - split.
        + split; [|reflexivity]. intros _. exists response.
          split; [reflexivity|]. left. split; [exact Hok|now exists body].
        + intros e'. split; [discriminate|].
          intros [[=]|(r & [= <-] & [[_ Hr]|[Hr _]])]; congruence. }
  destruct (Release.json response) as [e|release] eqn:Hjson; cbn [bind_exn].
  { split.
    - split; [discriminate|].
      intros (r & [= <-] & [[Hno _]|(rel & _ & Hrel & _)]); congruence.
    - intros e'. split.
      + intros [= ->]. right. exists response. split; [reflexivity|].
        right. now split.
      + intros [[=]|(r & [= <-] & [[Hr _]|[_ Hr]])]; congruence. }
  split.
  2:{ intros e. split.
      - destruct (Release.getPlatform h); [|discriminate].
        now destruct (List.find _ _).
      - intros [[=]|(r & [= <-] & [[Hr _]|[_ Hr]])]; congruence. }
  destruct (Release.getPlatform h) as [triple|] eqn:Hplatform.
  - destruct (List.find _ (Release.assets release)) as [a|] eqn:Hfind.
    + split; [discriminate|].
      intros (r & [= <-] & [[Hno _]|(rel & _ & Hrel & [Hnone|(t & [= <-] & Hall)])]);
        try congruence.
      assert (rel = release) by congruence. subst rel.
      rewrite (find_no_match _ _ Hall) in Hfind. discriminate.
    + split; [intros _|reflexivity].
      exists response. split; [reflexivity|]. right. exists release.
      repeat split; try assumption. right. exists triple. split; [reflexivity|].
      clear -Hfind. induction (Release.assets release) as [|y l IH]; [reflexivity|].
      simpl in *. destruct (Release.endsWith _ _); [discriminate|]. now apply IH.
  - split; [intros _|reflexivity].
    exists response. split; [reflexivity|]. right. exists release.
    repeat split; try assumption. now left.
Qed.

Lemma key_x64_linux a p :
  a +:+ " " +:+ p = "x64 linux" <-> a = "x64" /\ p = "linux".
Proof.
  split; [|now intros [-> ->]].
  intros H.
  do 3 (destruct a as [|? a]; simpl in H; [discriminate H|];
        injection H as -> H).
  destruct a as [|? a]; simpl in H; [injection H as <-; now split|].
  injection H as -> H.
  do 5 (destruct a as [|? a]; simpl in H; [discriminate H|];
        injection H as -> H).
  now destruct a.
Qed.

(** X11: the musl build is chosen exactly on an x64 linux host whose
    [ldd --version] mentions [musl libc] on its standard error; every other
    host gets the triple of the table, or none when its architecture and
    platform are not listed. *)
Theorem getPlatform_musl h :
  (Release.getPlatform h = Some "x86_64-unknown-linux-musl"
   <-> Release.arch h = "x64" /\ Release.platform h = "linux"
       /\ Release.isMusl h = true)
  /\ (Release.getPlatform h <> Some "x86_64-unknown-linux-musl" ->
      Release.getPlatform h
      = Release.platforms_get (Release.arch h +:+ " " +:+ Release.platform h)).
Proof.
  unfold Release.getPlatform.
  set (key := Release.arch h +:+ " " +:+ Release.platform h).
  assert (Hkey : key = "x64 linux"
                 <-> Release.arch h = "x64" /\ Release.platform h = "linux")
    by apply key_x64_linux.
  assert (Htable :
    (Release.platforms_get key = Some "x86_64-unknown-linux-gnu" <-> key = "x64 linux")
    /\ Release.platforms_get key <> Some "x86_64-unknown-linux-musl").
  { unfold Release.platforms_get, Release.platforms. cbn [List.find fst snd].
    rewrite !(String.eqb_sym _ key).
    repeat (match goal with |- context [String.eqb key ?b] =>
              destruct (String.eqb_spec key b) as [->|?] end;
            [split; [split; [discriminate || reflexivity | discriminate || reflexivity]
                    |discriminate]|]).
    split; [split; [discriminate | congruence]|discriminate]. }
  destruct Htable as [Hgnu Hnot].
  destruct (Release.platforms_get key) as [p|] eqn:Hget.
  - destruct (String.eqb_spec p "x86_64-unknown-linux-gnu") as [->|Hp]; cbn [andb].
    + destruct (Release.isMusl h) eqn:Hmusl.
      * split; [|congruence]. split; [intros _|reflexivity].
        pose proof (proj1 Hkey (proj1 Hgnu eq_refl)) as [Ha Hp]. now repeat split.
      * split; [|reflexivity]. split; [discriminate|]. now intros (_ & _ & [=]).
    + split; [|reflexivity]. split; [congruence|].
      intros (Ha & Hpl & _). exfalso. apply Hp.
      pose proof (proj2 Hgnu (proj2 Hkey (conj Ha Hpl))). congruence.
  - split; [|reflexivity]. split; [discriminate|].
    intros (Ha & Hpl & _).
    pose proof (proj2 Hgnu (proj2 Hkey (conj Ha Hpl))). discriminate.
Qed.


(** * Updates *)

Lemma downloads_app l1 l2 : downloads (l1 ++ l2) = downloads l1 ++ downloads l2.
Proof. unfold downloads. apply omap_app. Qed.

Section UpdateFacts.

Variable h : Release.Host.
Variable fetch : string -> Exn + Release.Response.
Variable download : Release.ReleaseTag -> option Ctx.Failure.

Lemma downloadServer_downloads failed release st :
  downloads (Ctx.log (snd (Ctx.downloadServer h failed release st)))
  = downloads (Ctx.log st) ++ [Release.tag release].
Proof.
  unfold Ctx.downloadServer. destruct failed as [f|]; cbn [snd].
  - cbn. now rewrite downloads_app.
  - destruct (String.eqb (Release.platform h) "win32"); cbn;
      rewrite ?downloads_app; cbn; rewrite ?downloads_app; cbn;
      now rewrite ?app_nil_r.
Qed.

Lemma downloadServer_release failed release st :
  Ctx.stored_release (snd (Ctx.downloadServer h failed release st))
  = match failed with
    | Some _ => Ctx.stored_release st
    | None => if String.eqb (Release.platform h) "win32"
              then Ctx.stored_release st else Some (Release.tag release)
    end.
Proof.
  unfold Ctx.downloadServer. destruct failed as [f|]; [reflexivity|].
  now destruct (String.eqb (Release.platform h) "win32").
Qed.

(** X12: [checkUpdate] starts a download only for a release whose tag
    differs from the stored one, and, when [updates.prompt] is [true], only
    after the user picked the first entry; with [updates.prompt] set to
    [false] or to ['neverDownload'] it downloads without asking.  The
    stored release changes only when that download succeeds, and then to
    the new tag; in every other case nothing is downloaded and the stored
    release is left as it was. *)
Theorem checkUpdate_downloads_on_consent settings picked auto st :
  let st' := snd (Ctx.checkUpdate h fetch download settings picked auto st) in
  (downloads (Ctx.log st') = downloads (Ctx.log st)
   /\ Ctx.stored_release st' = Ctx.stored_release st)
  \/ exists latest,
       Release.getLatestRelease h fetch (Ctx.channel settings) = inr (Some latest)
       /\ Ctx.old_release st <> Release.tag latest
       /\ (Ctx.prompt settings = Ctx.PromptTrue -> picked = 0%Z)
       /\ downloads (Ctx.log st') = downloads (Ctx.log st) ++ [Release.tag latest]
       /\ Ctx.stored_release st'
          = match download latest with
            | Some _ => Ctx.stored_release st
            | None => Some (Release.tag latest)
            end.
Proof.
  intros st'. subst st'. unfold Ctx.checkUpdate.
  destruct (Ctx.set_string (Ctx.serverPath settings) || Ctx.usingSystemServer st);
    [now left|].
  destruct (auto && negb (Ctx.checkOnStartup settings)); [now left|].
  destruct (Release.getLatestRelease h fetch (Ctx.channel settings))
    as [e|[latest|]] eqn:Hlatest.
  1,3: left; cbn; rewrite downloads_app; cbn; now rewrite app_nil_r.
  change (Ctx.old_release (Ctx.emit _ st)) with (Ctx.old_release st).
  destruct (String.eqb_spec (Ctx.old_release st) (Release.tag latest)) as [Hsame|Hnew].
  { left. destruct auto; cbn; rewrite ?downloads_app; cbn;
      rewrite ?downloads_app; cbn; now rewrite ?app_nil_r. }
  set (msg := _ +:+ _).
  assert (Hdownload : forall st1,
    downloads (Ctx.log st1) = downloads (Ctx.log st) ->
    Ctx.stored_release st1 = Ctx.stored_release st ->
    let st2 := if String.eqb (Release.platform h) "win32"
               then Ctx.emit Ctx.ClientStop st1 else st1 in
    let st' :=
      snd (match Ctx.downloadServer h (download latest) latest st2 with
           | (inl failure, st3) =>
               (@inr Exn unit tt,
                Ctx.emit (Ctx.ShowInformationMessage
                            (Ctx.failure_message "Upgrade" failure) (Some "error")) st3)
           | (inr _, st3) =>
               (inr tt,
                Ctx.update_release (Release.tag latest)
                  (Ctx.emit Ctx.ClientStart (Ctx.emit Ctx.ClientStop st3)))
           end) in
    downloads (Ctx.log st') = downloads (Ctx.log st) ++ [Release.tag latest]
    /\ Ctx.stored_release st'
       = match download latest with
         | Some _ => Ctx.stored_release st
         | None => Some (Release.tag latest)
         end).
  { intros st1 Hlog Hrel st2 st''. subst st''.
    assert (Hlog2 : downloads (Ctx.log st2) = downloads (Ctx.log st)).
    { subst st2. destruct (String.eqb (Release.platform h) "win32"); [|exact Hlog].
      cbn. rewrite downloads_app, Hlog. cbn. apply app_nil_r. }
    assert (Hrel2 : Ctx.stored_release st2 = Ctx.stored_release st).
    { subst st2. now destruct (String.eqb (Release.platform h) "win32"). }
    pose proof (downloadServer_downloads (download latest) latest st2) as Hd.
    pose proof (downloadServer_release (download latest) latest st2) as Hr.
    destruct (Ctx.downloadServer h (download latest) latest st2) as [[f|[]] st3] eqn:Hds;
      cbn [snd] in *.
    - unfold Ctx.downloadServer in Hds.
      destruct (download latest); [|discriminate].
      split.
      + cbn. rewrite downloads_app, Hd, Hlog2. cbn. apply app_nil_r.
      + cbn. now rewrite Hr.
    - unfold Ctx.downloadServer in Hds.
      destruct (download latest); [discriminate|].
      split; [|reflexivity].
      cbn. rewrite !downloads_app, Hd, Hlog2. cbn. now rewrite !app_nil_r. }
  destruct (Ctx.prompt settings) eqn:Hprompt.
  - destruct (picked =? 0)%Z eqn:Hpicked.
    + right. exists latest. apply Z.eqb_eq in Hpicked.
      split; [reflexivity|]. split; [exact Hnew|]. split; [now intros _|].
      apply Hdownload; [|reflexivity].
      cbn. rewrite !downloads_app. cbn. now rewrite !app_nil_r.
    + left. destruct (picked =? 1)%Z; cbn; rewrite !downloads_app; cbn;
        rewrite ?downloads_app; cbn; now rewrite ?app_nil_r.
  - right. exists latest.
    split; [reflexivity|]. split; [exact Hnew|]. split; [discriminate|].
    apply Hdownload; [|reflexivity].
    cbn. rewrite downloads_app. cbn. now rewrite app_nil_r.
  - right. exists latest.
    split; [reflexivity|]. split; [exact Hnew|]. split; [discriminate|].
    apply Hdownload; [|reflexivity].
    cbn. rewrite downloads_app. cbn. now rewrite app_nil_r.
Qed.

End UpdateFacts.

Section UpdateSequences.

Variable h : Release.Host.
Variable fetch : string -> Exn + Release.Response.
Variable download : Release.ReleaseTag -> option Ctx.Failure.

Lemma checkUpdate_up_to_date settings picked st latest :
  Release.getLatestRelease h fetch (Ctx.channel settings) = inr (Some latest) ->
  Release.tag latest <> "" ->
  Ctx.set_string (Ctx.serverPath settings) = false ->
  Ctx.usingSystemServer st = false ->
  Ctx.stored_release st = Some (Release.tag latest) ->
  Ctx.checkUpdate h fetch download settings picked false st
  = (inr tt,
     Ctx.emit (Ctx.ShowInformationMessage
                 "Your wgsl-analyzer release is updated" None)
       (Ctx.emit (Ctx.GetLatestRelease (Ctx.channel settings)) st)).
Proof.
  intros Hlatest Htag Hpath Hsystem Hstored.
  unfold Ctx.checkUpdate. rewrite Hpath, Hsystem, Hlatest. cbn [orb andb].
  unfold Ctx.old_release. cbn [Ctx.emit Ctx.stored_release]. rewrite Hstored.
  cbn [Ctx.set_string default].
  apply String.eqb_neq in Htag. rewrite Htag. cbn [negb].
  now rewrite String.eqb_refl.
Qed.

(** X13: after [installServerFromGitHub] has downloaded a release, the
    global state holds its tag, the client was stopped and started again,
    and a manual [checkUpdate] that finds the same release only reports
    [Your wgsl-analyzer release is updated]: it downloads nothing and asks
    nothing.  The tag must not be empty, an empty stored tag counting as
    unknown. *)
Theorem install_then_checkUpdate settings picked st latest :
  Release.getLatestRelease h fetch (Ctx.channel settings) = inr (Some latest) ->
  download latest = None ->
  Release.tag latest <> "" ->
  Ctx.set_string (Ctx.serverPath settings) = false ->
  Ctx.usingSystemServer st = false ->
  let installed := Ctx.installServerFromGitHub h fetch download settings st in
  let st1 := snd installed in
  fst installed = inr tt
  /\ Ctx.stored_release st1 = Some (Release.tag latest)
  /\ (exists before,
        Ctx.log st1
        = before ++ [Ctx.ClientStop; Ctx.ClientStart;
                     Ctx.GlobalStateUpdate (Release.tag latest)])
  /\ Ctx.checkUpdate h fetch download settings picked false st1
     = (inr tt,
        Ctx.emit (Ctx.ShowInformationMessage
                    "Your wgsl-analyzer release is updated" None)
          (Ctx.emit (Ctx.GetLatestRelease (Ctx.channel settings)) st1)).
Proof.
  intros Hlatest Hdownload Htag Hpath Hsystem installed st1.
  assert (Hinstalled :
    installed
    = (inr tt,
       Ctx.update_release (Release.tag latest)
         (Ctx.emit Ctx.ClientStart
            (Ctx.emit Ctx.ClientStop
               (snd (Ctx.downloadServer h None latest
                       (if String.eqb (Release.platform h) "win32"
                        then Ctx.emit Ctx.ClientStop
                               (Ctx.emit (Ctx.GetLatestRelease (Ctx.channel settings)) st)
                        else Ctx.emit (Ctx.GetLatestRelease (Ctx.channel settings)) st))))))).
  { subst installed. unfold Ctx.installServerFromGitHub.
    rewrite Hlatest, Hdownload. reflexivity. }
  subst st1. rewrite Hinstalled. cbn [fst snd].
  split; [reflexivity|]. split; [reflexivity|]. split.
  - cbn [Ctx.update_release Ctx.emit Ctx.log].
    match goal with |- exists before, ((?l ++ _) ++ _) ++ _ = _ => exists l end.
    now rewrite <- !app_assoc.
  - apply (checkUpdate_up_to_date _ _ _ latest); try assumption; [|reflexivity].
    cbn [Ctx.update_release Ctx.emit Ctx.usingSystemServer].
    unfold Ctx.downloadServer.
    now destruct (String.eqb (Release.platform h) "win32").
Qed.

(** X14: when the download fails during [checkUpdate], the error is not
    propagated: the user is told, with the message for a busy executable
    when the error code is [EBUSY], [ETXTBSY] or [EPERM]; the stored
    release is left as it was and the client is not started again, so that
    on win32, where it was stopped before the download, it stays stopped. *)
Theorem checkUpdate_download_fails settings picked auto st latest failure :
  Release.getLatestRelease h fetch (Ctx.channel settings) = inr (Some latest) ->
  download latest = Some failure ->
  Ctx.old_release st <> Release.tag latest ->
  Ctx.set_string (Ctx.serverPath settings) || Ctx.usingSystemServer st = false ->
  auto && negb (Ctx.checkOnStartup settings) = false ->
  (Ctx.prompt settings = Ctx.PromptTrue -> picked = 0%Z) ->
  let result := Ctx.checkUpdate h fetch download settings picked auto st in
  fst result = inr tt
  /\ Ctx.stored_release (snd result) = Ctx.stored_release st
  /\ (exists asked,
        Ctx.log (snd result)
        = Ctx.log st ++ Ctx.GetLatestRelease (Ctx.channel settings) :: asked
          ++ (if String.eqb (Release.platform h) "win32" then [Ctx.ClientStop] else [])
          ++ [Ctx.DownloadServer (Release.tag latest);
              Ctx.ShowInformationMessage
                (if Ctx.busy failure
                 then "Upgrade wgsl-analyzer failed, other Vim instances might be using it, you should close them and try again"
                 else "Upgrade wgsl-analyzer failed, please try again")
                (Some "error")]
        /\ (asked = [] \/ exists items title, asked = [Ctx.ShowQuickpick items title])).
Proof.
  intros Hlatest Hdownload Hnew Hskip Hauto Hpicked result. subst result.
  unfold Ctx.checkUpdate. rewrite Hskip, Hauto, Hlatest.
  change (Ctx.old_release (Ctx.emit _ st)) with (Ctx.old_release st).
  apply String.eqb_neq in Hnew. rewrite Hnew.
  unfold Ctx.downloadServer, Ctx.failure_message. rewrite Hdownload.
  destruct (Ctx.prompt settings) eqn:Hprompt.
  - rewrite (Hpicked eq_refl). cbn [Z.eqb].
    destruct (String.eqb (Release.platform h) "win32"); cbn [fst snd];
      (split; [reflexivity|]); (split; [reflexivity|]);
      match goal with |- context [Ctx.ShowQuickpick ?i ?t] =>
        exists [Ctx.ShowQuickpick i t] end;
      (split; [|right; eexists _, _; reflexivity]);
      cbn [Ctx.emit Ctx.log]; rewrite <- !app_assoc;
      now destruct (Ctx.busy failure).
  - cbn [Z.eqb].
    destruct (String.eqb (Release.platform h) "win32"); cbn [fst snd];
      (split; [reflexivity|]); (split; [reflexivity|]);
      exists []; (split; [|now left]);
      cbn [Ctx.emit Ctx.log]; rewrite <- !app_assoc;
      now destruct (Ctx.busy failure).
  - cbn [Z.eqb].
    destruct (String.eqb (Release.platform h) "win32"); cbn [fst snd];
      (split; [reflexivity|]); (split; [reflexivity|]);
      exists []; (split; [|now left]);
      cbn [Ctx.emit Ctx.log]; rewrite <- !app_assoc;
      now destruct (Ctx.busy failure).
Qed.

(** X15: [resolveBin] prefers the configured or bundled server when it is
    on disk, and then leaves the state alone; when it is not, the only
    server it can return is the one found on the [PATH], and returning it
    marks the system server as in use, after which [checkUpdate] does
    nothing at all: no release is looked up, nothing is asked, nothing is
    downloaded. *)
Theorem resolveBin_system_server_stops_updates fs settings picked auto st :
  let bin := Ctx.candidate h fs settings in
  let resolved := Ctx.resolveBin h fs settings st in
  (Ctx.existsSync fs bin = true -> resolved = (Some bin, st))
  /\ (Ctx.existsSync fs bin = false ->
      forall found,
        fst resolved = Some found ->
        Ctx.which fs (Ctx.executableName h) = Some found
        /\ Ctx.trim fs (Ctx.version_stderr fs found) = ""
        /\ Ctx.usingSystemServer (snd resolved) = true
        /\ Ctx.checkUpdate h fetch download settings picked auto (snd resolved)
           = (inr tt, snd resolved)).
Proof.
  intros bin resolved. subst resolved. unfold Ctx.resolveBin. fold bin.
  split.
  - now intros ->.
  - intros ->.
    destruct (Ctx.which fs (Ctx.executableName h)) as [systemBin|]; [|discriminate].
    destruct (String.eqb systemBin ""); cbn [negb]; [discriminate|].
    destruct (Ctx.trim fs (Ctx.version_stderr fs systemBin)) eqn:Htrim;
      cbn [String.length Nat.ltb Nat.leb]; [|discriminate].
    intros found [= <-]. cbn [snd].
    split; [reflexivity|]. split; [exact Htrim|]. split; [reflexivity|].
    unfold Ctx.checkUpdate. cbn [Ctx.usingSystemServer].
    now rewrite orb_true_r.
Qed.

End UpdateSequences.

Lemma install_then_checkUpdate_witness :
  let installed :=
    Ctx.installServerFromGitHub musl_host example_fetch download_succeeds
      example_settings fresh_state in
  let st1 := snd installed in
  fst installed = inr tt
  /\ Ctx.stored_release st1 = Some (Release.tag example_latest)
  /\ (exists before,
        Ctx.log st1
        = before ++ [Ctx.ClientStop; Ctx.ClientStart;
                     Ctx.GlobalStateUpdate (Release.tag example_latest)])
  /\ Ctx.checkUpdate musl_host example_fetch download_succeeds example_settings
       2 false st1
     = (inr tt,
        Ctx.emit (Ctx.ShowInformationMessage
                    "Your wgsl-analyzer release is updated" None)
          (Ctx.emit (Ctx.GetLatestRelease (Ctx.channel example_settings)) st1)).
Proof.
  exact (install_then_checkUpdate musl_host example_fetch download_succeeds
           example_settings 2 fresh_state example_latest
           eq_refl eq_refl ltac:(discriminate) eq_refl eq_refl).
Defined.

Lemma checkUpdate_download_fails_witness :
  let result :=
    Ctx.checkUpdate musl_host example_fetch download_busy example_settings 0 false
      fresh_state in
  fst result = inr tt
  /\ Ctx.stored_release (snd result) = Ctx.stored_release fresh_state
  /\ (exists asked,
        Ctx.log (snd result)
        = Ctx.log fresh_state
          ++ Ctx.GetLatestRelease (Ctx.channel example_settings) :: asked
          ++ (if String.eqb (Release.platform musl_host) "win32"
              then [Ctx.ClientStop] else [])
          ++ [Ctx.DownloadServer (Release.tag example_latest);
              Ctx.ShowInformationMessage
                (if Ctx.busy {| Ctx.code := Some "ETXTBSY" |}
                 then "Upgrade wgsl-analyzer failed, other Vim instances might be using it, you should close them and try again"
                 else "Upgrade wgsl-analyzer failed, please try again")
                (Some "error")]
        /\ (asked = [] \/ exists items title, asked = [Ctx.ShowQuickpick items title])).
Proof.
  exact (checkUpdate_download_fails musl_host example_fetch download_busy
           example_settings 0 false fresh_state example_latest
           {| Ctx.code := Some "ETXTBSY" |}
           eq_refl eq_refl ltac:(discriminate) eq_refl eq_refl (fun _ => eq_refl)).
Defined.

Lemma resolveBin_system_server_stops_updates_witness :
  Ctx.which system_files (Ctx.executableName musl_host)
    = Some "/usr/bin/wgsl-analyzer"
  /\ Ctx.trim system_files
       (Ctx.version_stderr system_files "/usr/bin/wgsl-analyzer") = ""
  /\ Ctx.usingSystemServer
       (snd (Ctx.resolveBin musl_host system_files example_settings fresh_state))
     = true
  /\ Ctx.checkUpdate musl_host example_fetch download_succeeds example_settings 0
       false (snd (Ctx.resolveBin musl_host system_files example_settings fresh_state))
     = (inr tt,
        snd (Ctx.resolveBin musl_host system_files example_settings fresh_state)).
Proof.
  exact (proj2 (resolveBin_system_server_stops_updates musl_host example_fetch
                  download_succeeds system_files example_settings 0 false
                  fresh_state)
           eq_refl "/usr/bin/wgsl-analyzer" eq_refl).
Defined.


(** * The configuration generator *)

Lemma assign_lookup (k key : string) (v : JSValue) (o : Generate.Settings) :
  key <> "__proto__" \/ is_Some (Generate.own o !! key) ->
  Generate.own (Generate.assign k v o) !! key
  = if decide (k = key) then Some v else Generate.own o !! key.
Proof.
  intros Hkey. unfold Generate.assign.
  assert (Hcreated :
    <[k := v]> (Generate.own o) !! key
    = if decide (k = key) then Some v else Generate.own o !! key).
  { destruct (decide (k = key)) as [->|Hne];
      [apply lookup_insert_eq | now apply lookup_insert_ne]. }
  destruct (String.eqb k "__proto__") eqn:Hk; cbn [negb Generate.own];
    [|exact Hcreated].
  apply String.eqb_eq in Hk. subst k.
  destruct (Generate.own o !! "__proto__") as [x|] eqn:Hown;
    cbn [Generate.own]; [exact Hcreated|].
  destruct (decide ("__proto__" = key)) as [<-|Hne].
  { destruct Hkey as [Hkey|[y Hy]]; congruence. }
  destruct (Generate.shadows_accessor (Generate.prototype o));
    cbn [Generate.own]; [exact Hcreated|].
  destruct (Generate.prototype o); cbn [Generate.own]; try exact Hcreated;
    destruct v; reflexivity.
Qed.

Lemma merge_item_lookup (o : Generate.Settings) (p : gmap string JSValue)
    (key : string) :
  key <> "__proto__" \/ is_Some (Generate.own o !! key) ->
  Generate.own (Generate.merge_item o p) !! key
  = if bool_decide (key ∈ Generate.not_supported) then Generate.own o !! key
    else match p !! key with
         | Some v => Some v
         | None => Generate.own o !! key
         end.
Proof.
  intros Hkey. unfold Generate.merge_item.
  apply (map_fold_weak_ind
           (fun r m =>
              Generate.own r !! key
              = if bool_decide (key ∈ Generate.not_supported)
                then Generate.own o !! key
                else match m !! key with
                     | Some v => Some v
                     | None => Generate.own o !! key
                     end)).
  - rewrite lookup_empty. now destruct (bool_decide _).
  - intros i x m r Hfresh IH.
    assert (Hr : key <> "__proto__" \/ is_Some (Generate.own r !! key)).
    { destruct Hkey as [Hkey|Hsome]; [now left|right].
      rewrite IH. destruct (bool_decide _); [exact Hsome|].
      destruct (m !! key); [now eexists|exact Hsome]. }
    destruct (bool_decide (i ∈ Generate.not_supported)) eqn:Hi.
    + rewrite IH. destruct (bool_decide (key ∈ Generate.not_supported)) eqn:Hkey';
        [reflexivity|].
      destruct (decide (i = key)) as [->|Hne]; [congruence|].
      now rewrite lookup_insert_ne.
    + rewrite (assign_lookup _ _ _ _ Hr).
      destruct (decide (i = key)) as [->|Hne].
      * rewrite lookup_insert_eq, Hi. reflexivity.
      * rewrite lookup_insert_ne by exact Hne. exact IH.
Qed.

Lemma merge_lookup schema (o : Generate.Settings) (key : string) :
  key <> "__proto__" \/ is_Some (Generate.own o !! key) ->
  Generate.own (foldl Generate.merge_item o schema) !! key
  = if bool_decide (key ∈ Generate.not_supported) then Generate.own o !! key
    else foldl (fun found p => match p !! key with Some v => Some v | None => found end)
           (Generate.own o !! key) schema.
Proof.
  revert o. induction schema as [|p schema IH]; intros o Hkey; simpl.
  - now destruct (bool_decide _).
  - rewrite IH.
    + rewrite (merge_item_lookup _ _ _ Hkey). now destruct (bool_decide _).
    + destruct Hkey as [Hkey|Hsome]; [now left|right].
      rewrite (merge_item_lookup _ _ _ (or_intror Hsome)).
      destruct (bool_decide _); [exact Hsome|].
      destruct (p !! key); [now eexists|exact Hsome].
Qed.

Lemma described_or schema (key : string) (seed : option JSValue) :
  foldl (fun found p => match p !! key with Some v => Some v | None => found end)
    seed schema
  = match Generate.described schema key with
    | Some v => Some v
    | None => seed
    end.
Proof.
  unfold Generate.described. revert seed.
  induction schema as [|p schema IH]; intros seed; simpl; [reflexivity|].
  rewrite IH, (IH (match p !! key with Some v => Some v | None => None end)).
  destruct (foldl _ None schema); [reflexivity|].
  now destruct (p !! key).
Qed.

Lemma merge_item_setter (config p : gmap string JSValue) :
  config !! "__proto__" = None ->
  Generate.own
    (Generate.merge_item
       {| Generate.own := config; Generate.prototype := Generate.ObjectPrototype |} p)
    !! "__proto__" = None.
Proof.
  intros Hconfig. unfold Generate.merge_item.
  apply (map_fold_weak_ind
           (fun r m =>
              Generate.own r !! "__proto__" = None
              /\ (m !! "__proto__" = None ->
                  Generate.prototype r = Generate.ObjectPrototype))).
  - split; [exact Hconfig|reflexivity].
  - intros i x m r Hfresh [Hown Hproto].
    destruct (bool_decide (i ∈ Generate.not_supported)).
    + split; [exact Hown|]. intros Hi. apply Hproto.
      destruct (decide (i = "__proto__")) as [->|Hne]; [exact Hfresh|].
      now rewrite lookup_insert_ne in Hi.
    + unfold Generate.assign.
      destruct (String.eqb i "__proto__") eqn:Heq; cbn [negb].
      * apply String.eqb_eq in Heq. subst i.
        rewrite Hown, (Hproto Hfresh). cbn [Generate.shadows_accessor].
        split; [now destruct x|].
        rewrite lookup_insert_eq. discriminate.
      * apply String.eqb_neq in Heq. cbn [Generate.own Generate.prototype].
        rewrite !lookup_insert_ne by exact Heq. split; assumption.
Qed.

(** X16: in the generated settings, a setting listed as not supported is
    never taken from the server's schema: it keeps the description it had,
    or stays absent.  Every other setting gets the description of the last
    schema item that has it, and keeps its own when the schema does not
    know it; this holds of every key but [__proto__], and of [__proto__]
    too when the configuration has a setting of that name.  No setting is
    ever removed.  When the configuration has no [__proto__], a schema of
    one item that describes it adds no setting of that name: the assignment
    reaches the setter of [Object.prototype]. *)
Theorem merge_settings schema (coc_ra_config : gmap string JSValue) (key : string) :
  (key <> "__proto__" \/ is_Some (coc_ra_config !! key) ->
   Generate.merge schema coc_ra_config !! key
   = (if bool_decide (key ∈ Generate.not_supported) then coc_ra_config !! key
      else match Generate.described schema key with
           | Some description => Some description
           | None => coc_ra_config !! key
           end))
  /\ (is_Some (coc_ra_config !! key) ->
      is_Some (Generate.merge schema coc_ra_config !! key))
  /\ (forall p, coc_ra_config !! "__proto__" = None ->
        Generate.merge [p] coc_ra_config !! "__proto__" = None).
Proof.
  assert (Hlookup :
    key <> "__proto__" \/ is_Some (coc_ra_config !! key) ->
    Generate.merge schema coc_ra_config !! key
    = (if bool_decide (key ∈ Generate.not_supported) then coc_ra_config !! key
       else match Generate.described schema key with
            | Some description => Some description
            | None => coc_ra_config !! key
            end)).
  { intros Hkey. unfold Generate.merge.
    rewrite merge_lookup by exact Hkey. cbn [Generate.own].
    now rewrite described_or. }
  split; [exact Hlookup|]. split.
  - intros Hsome. rewrite (Hlookup (or_intror Hsome)).
    destruct (bool_decide _); [exact Hsome|].
    destruct (Generate.described schema key); [now eexists | exact Hsome].
  - intros p Hnone. unfold Generate.merge. cbn [foldl].
    now apply merge_item_setter.
Qed.

Lemma merge_settings_witness :
  Generate.merge example_schema example_configuration !! "wgsl-analyzer.enable"
  = Some (JString "described")
  /\ Generate.merge [example_schema_item] example_configuration !! "__proto__" = None.
Proof.
  destruct (merge_settings example_schema example_configuration "wgsl-analyzer.enable")
    as (Hlookup & _ & Hsetter).
  split.
  - rewrite Hlookup by (left; discriminate). vm_compute. reflexivity.
  - apply Hsetter. vm_compute. reflexivity.
Defined.

(** ** Snippet edits *)

Lemma prefix_split (p s : string) :
  String.prefix p s = true -> exists rest, s = p +:+ rest.
Proof.
  revert s. induction p as [|a p IH]; intros s H.
  - exists s. reflexivity.
  - destruct s as [|b s]; [discriminate|].
    cbn [String.prefix] in H. destruct (ascii_dec a b) as [->|]; [|discriminate].
    destruct (IH s H) as [rest ->]. exists rest. reflexivity.
Qed.

Lemma prefix_app (p rest : string) : String.prefix p (p +:+ rest) = true.
Proof.
  induction p as [|a p IH]; [destruct rest; reflexivity|].
  change (String a p +:+ rest) with (String a (p +:+ rest)).
  cbn [String.prefix]. destruct (ascii_dec a a); [exact IH|congruence].
Qed.

Lemma indexOf_unfold (pattern s : string) :
  Snippet.indexOf pattern s
  = if String.prefix pattern s then Some 0
    else match s with
         | EmptyString => None
         | String _ rest => S <$> Snippet.indexOf pattern rest
         end.
Proof. destruct s; reflexivity. Qed.

Lemma indexOf_split (pattern s : string) (i : nat) :
  Snippet.indexOf pattern s = Some i ->
  exists before after,
    s = before +:+ pattern +:+ after
    /\ String.length before = i
    /\ String.substring 0 i s = before.
Proof.
  revert i. induction s as [|c s IH]; intros i H; rewrite indexOf_unfold in H.
  - destruct (String.prefix pattern "") eqn:Hp; [|discriminate].
    injection H as <-. destruct (prefix_split _ _ Hp) as [rest Hrest].
    exists "", rest. repeat split; exact Hrest.
  - destruct (String.prefix pattern (String c s)) eqn:Hp.
    + injection H as <-. destruct (prefix_split _ _ Hp) as [rest Hrest].
      exists "", rest. repeat split; exact Hrest.
    + destruct (Snippet.indexOf pattern s) as [j|] eqn:Hj; [|discriminate].
      injection H as <-.
      destruct (IH j eq_refl) as (before & after & Hs & Hlen & Hsub).
      exists (String c before), after. repeat split.
      * rewrite Hs. reflexivity.
      * cbn [String.length]. f_equal. exact Hlen.
      * cbn [String.substring]. f_equal. exact Hsub.
Qed.

Lemma indexOf_first (pattern s : string) (i : nat) (before after : string) :
  Snippet.indexOf pattern s = Some i ->
  s = before +:+ pattern +:+ after ->
  i <= String.length before.
Proof.
  revert i before. induction s as [|c s IH]; intros i before H Hs;
    rewrite indexOf_unfold in H.
  - destruct (String.prefix pattern ""); [|discriminate].
    injection H as <-. lia.
  - destruct (String.prefix pattern (String c s)) eqn:Hp.
    + injection H as <-. lia.
    + destruct (Snippet.indexOf pattern s) as [j|] eqn:Hj; [|discriminate].
      injection H as <-. destruct before as [|b before].
      * change (String c s = pattern +:+ after) in Hs.
        rewrite Hs, prefix_app in Hp. discriminate.
      * change (String c s = String b (before +:+ pattern +:+ after)) in Hs.
        injection Hs as _ Hs.
        cbn [String.length]. specialize (IH j before eq_refl Hs). lia.
Qed.

Lemma indexOf_none (pattern s before after : string) :
  Snippet.indexOf pattern s = None -> s <> before +:+ pattern +:+ after.
Proof.
  revert before. induction s as [|c s IH]; intros before H Hs;
    rewrite indexOf_unfold in H.
  - destruct (String.prefix pattern "") eqn:Hp; [discriminate|].
    destruct before; [|discriminate].
    change ("" = pattern +:+ after) in Hs.
    rewrite Hs, prefix_app in Hp. discriminate.
  - destruct (String.prefix pattern (String c s)) eqn:Hp; [discriminate|].
    destruct (Snippet.indexOf pattern s) eqn:Hj; [discriminate|].
    destruct before as [|b before].
    + change (String c s = pattern +:+ after) in Hs.
      rewrite Hs, prefix_app in Hp. discriminate.
    + change (String c s = String b (before +:+ pattern +:+ after)) in Hs.
      injection Hs as _ Hs. exact (IH before eq_refl Hs).
Qed.

Lemma advance_formula (text : string) (p : Position) :
  Snippet.advance p text
  = {| line := line p + Snippet.countLines text;
       character :=
         match Snippet.lastIndexOf_newline text with
         | None => character p + String.length text
         | Some n => String.length text - n - 1
         end |}.
Proof.
  revert p. induction text as [|c text IH]; intros p.
  - destruct p. cbn. f_equal; lia.
  - cbn [Snippet.advance Snippet.countLines Snippet.lastIndexOf_newline String.length].
    rewrite IH.
    destruct (Ascii.eqb c Snippet.newline);
      destruct (Snippet.lastIndexOf_newline text);
      cbn [line character]; f_equal; lia.
Qed.

(** X17: for an edit whose text is ASCII, when the parsed text holds the
    marker [$0], the cursor computed for the edit is where the text before
    the first marker ends when it is typed at the start of the edit's range:
    one line further for each line break, and a column counted from the last
    line break, or from the range's start column when there is none. *)
Theorem cursor_follows_text (indel : Snippet.TextEdit) (index0 : nat) :
  Snippet.ascii_text (Snippet.newText indel) = true ->
  Snippet.indexOf "$0" (Snippet.parsed indel) = Some index0 ->
  exists before after,
    Snippet.parsed indel = before +:+ "$0" +:+ after
    /\ String.length before = index0
    /\ (forall before' after',
           Snippet.parsed indel = before' +:+ "$0" +:+ after' ->
           String.length before <= String.length before')
    /\ Snippet.cursor indel
       = Some (Snippet.advance (range_start (Snippet.range indel)) before).
Proof.
  intros _ H.
  destruct (indexOf_split _ _ _ H) as (before & after & Hs & Hlen & Hsub).
  exists before, after. split; [exact Hs|]. split; [exact Hlen|]. split.
  - intros before' after' Hs'. rewrite Hlen. exact (indexOf_first _ _ _ _ _ H Hs').
  - unfold Snippet.cursor. rewrite H. cbv zeta. rewrite Hsub, advance_formula.
    rewrite Hlen. reflexivity.
Qed.

Lemma cursor_follows_text_witness :
  exists before after,
    Snippet.parsed snippet_edit = before +:+ "$0" +:+ after
    /\ String.length before = 16
    /\ (forall before' after',
           Snippet.parsed snippet_edit = before' +:+ "$0" +:+ after' ->
           String.length before <= String.length before')
    /\ Snippet.cursor snippet_edit
       = Some (Snippet.advance (range_start (Snippet.range snippet_edit)) before).
Proof. exact (cursor_follows_text snippet_edit 16 eq_refl eq_refl). Defined.

Lemma final_position_app (position : option Position) (l1 l2 : list Snippet.TextEdit) :
  Snippet.final_position position (l1 ++ l2)
  = Snippet.final_position (Snippet.final_position position l1) l2.
Proof. unfold Snippet.final_position. apply foldl_app. Qed.

Lemma final_position_no_marker (position : option Position) (l : list Snippet.TextEdit) :
  Forall (fun e => Snippet.cursor e = None) l ->
  Snippet.final_position position l = position.
Proof.
  intros H. revert position. induction H as [|e l He _ IH]; intros position.
  - reflexivity.
  - unfold Snippet.final_position. cbn [foldl]. rewrite He. apply IH.
Qed.

(** X18: of a workspace edit only the first document change is used.  When
    it edits a document, the document is opened first unless it is the
    current one, every edit is applied, and the cursor then moves to the
    position computed for the last edit that holds a marker. *)
Theorem applySnippetWorkspaceEdit_last_marker
    (current uri : string) (earlier later : list Snippet.TextEdit)
    (indel : Snippet.TextEdit) (others : list Snippet.DocumentChange) (p : Position) :
  Snippet.cursor indel = Some p ->
  Forall (fun e => Snippet.cursor e = None) later ->
  Snippet.applySnippetWorkspaceEdit current
    (Some {| Snippet.documentChanges :=
               Some (Snippet.TextDocumentEdit uri (earlier ++ indel :: later) :: others) |})
  = (if String.eqb current uri then [] else [Snippet.LoadFile uri; Snippet.JumpTo uri])
    ++ [Snippet.ApplyEdit uri (map Snippet.new_edit (earlier ++ indel :: later));
        Snippet.MoveTo p]
  /\ map Snippet.range (map Snippet.new_edit (earlier ++ indel :: later))
     = map Snippet.range (earlier ++ indel :: later).
Proof.
  intros Hp Hlater. split.
  - unfold Snippet.applySnippetWorkspaceEdit. cbn [Snippet.documentChanges].
    rewrite final_position_app.
    change (indel :: later) with ([indel] ++ later).
    rewrite final_position_app, (final_position_no_marker _ later Hlater).
    unfold Snippet.final_position at 1. cbn [foldl]. rewrite Hp.
    destruct (String.eqb current uri); reflexivity.
  - rewrite map_map. apply map_ext. intros e. reflexivity.
Qed.

Lemma applySnippetWorkspaceEdit_last_marker_witness :
  Snippet.applySnippetWorkspaceEdit "file:///main.wgsl"
    (Some {| Snippet.documentChanges := Some snippet_changes |})
  = [ Snippet.LoadFile "file:///shader.wgsl"; Snippet.JumpTo "file:///shader.wgsl";
      Snippet.ApplyEdit "file:///shader.wgsl"
        (map Snippet.new_edit [comment_edit; snippet_edit]);
      Snippet.MoveTo {| line := 4; character := 4 |} ].
Proof.
  exact (proj1 (applySnippetWorkspaceEdit_last_marker
                  "file:///main.wgsl" "file:///shader.wgsl"
                  [comment_edit] [] snippet_edit [Snippet.FileOperation "create"]
                  {| line := 4; character := 4 |} eq_refl (Forall_nil_2 _))).
Defined.

Lemma prefix_absent (a : ascii) (pattern s : string) :
  has_char a s = false -> String.prefix (String a pattern) s = false.
Proof.
  destruct s as [|c s]; [reflexivity|].
  cbn [has_char String.prefix]. intros H.
  apply orb_false_elim in H as [H _].
  destruct (ascii_dec a c) as [->|]; [|reflexivity].
  rewrite Ascii.eqb_refl in H. discriminate.
Qed.

Lemma replaceAll_absent (a : ascii) (pattern replacement s : string) :
  has_char a s = false ->
  Snippet.replaceAll (String a pattern) replacement s = s.
Proof.
  unfold Snippet.replaceAll. induction s as [|c s IH]; intros H; [reflexivity|].
  cbn [Snippet.replaceAll_from]. rewrite (prefix_absent _ _ _ H).
  cbn [has_char] in H. apply orb_false_elim in H as [_ H].
  rewrite (IH H). reflexivity.
Qed.

Lemma strip_placeholders_absent (s : string) :
  has_char "$" s = false -> Snippet.strip_placeholders s = s.
Proof.
  unfold Snippet.strip_placeholders. induction s as [|c s IH]; intros H; [reflexivity|].
  cbn [has_char] in H. apply orb_false_elim in H as [Hc H].
  cbn [Snippet.strip_placeholders_from].
  assert (Snippet.placeholder (String c s) = None) as ->.
  { unfold Snippet.placeholder. destruct s; [reflexivity|]. rewrite Hc. reflexivity. }
  rewrite (IH H). reflexivity.
Qed.

Lemma indexOf_absent (a : ascii) (pattern s : string) :
  has_char a s = false -> Snippet.indexOf (String a pattern) s = None.
Proof.
  induction s as [|c s IH]; intros H; rewrite indexOf_unfold, (prefix_absent _ _ _ H).
  - reflexivity.
  - cbn [has_char] in H. apply orb_false_elim in H as [_ H].
    rewrite (IH H). reflexivity.
Qed.

Lemma plain_edit (e : Snippet.TextEdit) :
  has_char "$" (Snippet.newText e) = false ->
  has_char "\" (Snippet.newText e) = false ->
  Snippet.new_edit e = e /\ Snippet.cursor e = None.
Proof.
  intros Hdollar Hback.
  assert (Snippet.parsed e = Snippet.newText e) as Hparsed.
  { unfold Snippet.parsed.
    rewrite (replaceAll_absent _ _ _ _ Hback).
    apply strip_placeholders_absent, Hdollar. }
  split.
  - unfold Snippet.new_edit. rewrite Hparsed, (replaceAll_absent _ _ _ _ Hdollar).
    destruct e; reflexivity.
  - unfold Snippet.cursor. rewrite Hparsed, (indexOf_absent _ _ _ Hdollar).
    reflexivity.
Qed.

(** X19: edits whose text holds neither a dollar sign nor a backslash are
    applied as they are, and the cursor is not moved. *)
Theorem applySnippetWorkspaceEdit_plain_edits
    (current uri : string) (edits : list Snippet.TextEdit)
    (others : list Snippet.DocumentChange) :
  Forall (fun e => has_char "$" (Snippet.newText e) = false
                   /\ has_char "\" (Snippet.newText e) = false) edits ->
  Snippet.applySnippetWorkspaceEdit current
    (Some {| Snippet.documentChanges :=
               Some (Snippet.TextDocumentEdit uri edits :: others) |})
  = (if String.eqb current uri then [] else [Snippet.LoadFile uri; Snippet.JumpTo uri])
    ++ [Snippet.ApplyEdit uri edits].
Proof.
  intros H. unfold Snippet.applySnippetWorkspaceEdit. cbn [Snippet.documentChanges].
  assert (map Snippet.new_edit edits = edits) as ->.
  { induction H as [|e l [H1 H2] _ IH]; [reflexivity|].
    cbn [map]. rewrite IH, (proj1 (plain_edit e H1 H2)). reflexivity. }
  rewrite final_position_no_marker.
  - destruct (String.eqb current uri); reflexivity.
  - eapply Forall_impl; [exact H|]. intros e [H1 H2]. exact (proj2 (plain_edit e H1 H2)).
Qed.

Lemma applySnippetWorkspaceEdit_plain_edits_witness :
  Snippet.applySnippetWorkspaceEdit "file:///shader.wgsl"
    (Some {| Snippet.documentChanges :=
               Some [Snippet.TextDocumentEdit "file:///shader.wgsl" [comment_edit]] |})
  = [Snippet.ApplyEdit "file:///shader.wgsl" [comment_edit]].
Proof.
  exact (applySnippetWorkspaceEdit_plain_edits
           "file:///shader.wgsl" "file:///shader.wgsl" [comment_edit] []
           (Forall_cons_2 _ comment_edit [] (conj eq_refl eq_refl) (Forall_nil_2 _))).
Defined.

(** ** Explaining a diagnostic *)

Lemma split_from_nonempty (sep : string) (skip : nat) (s : string) :
  Explain.split_from sep skip s <> [].
Proof.
  revert skip. induction s as [|c s IH]; intros skip; [discriminate|].
  cbn [Explain.split_from]. destruct skip as [|k]; [|apply IH].
  destruct (String.prefix sep (String c s)); [discriminate|].
  destruct (Explain.split_from sep 0 s); discriminate.
Qed.

Lemma split_from_skip (sep pre rest : string) :
  Explain.split_from sep (String.length pre) (pre +:+ rest)
  = Explain.split_from sep 0 rest.
Proof.
  induction pre as [|a pre IH]; [reflexivity|].
  change (String a pre +:+ rest) with (String a (pre +:+ rest)).
  cbn [String.length Explain.split_from]. exact IH.
Qed.

Lemma join_first_char (sep : string) (c : ascii) (piece : string) (more : list string) :
  join sep (String c piece :: more) = String c (join sep (piece :: more)).
Proof. destruct more; reflexivity. Qed.

Lemma string_length_app (s1 s2 : string) :
  String.length (s1 +:+ s2) = String.length s1 + String.length s2.
Proof.
  induction s1 as [|a s1 IH]; [reflexivity|].
  change (String a s1 +:+ s2) with (String a (s1 +:+ s2)).
  cbn [String.length]. now rewrite IH.
Qed.

Lemma join_split_length (sep : string) (n : nat) (s : string) :
  sep <> "" -> String.length s <= n -> join sep (Explain.split sep s) = s.
Proof.
  intros Hsep. unfold Explain.split. revert s.
  induction n as [|n IH]; intros s Hn.
  - destruct s; [reflexivity|cbn [String.length] in Hn; lia].
  - destruct s as [|c s]; [reflexivity|].
    cbn [String.length] in Hn. cbn [Explain.split_from].
    destruct (String.prefix sep (String c s)) eqn:Hp.
    + destruct (prefix_split _ _ Hp) as [rest Hrest].
      destruct sep as [|a sep']; [congruence|].
      change (String c s = String a (sep' +:+ rest)) in Hrest.
      injection Hrest as -> ->.
      cbn [String.length].
      replace (S (String.length sep') - 1) with (String.length sep') by lia.
      rewrite split_from_skip, join_cons by apply split_from_nonempty.
      rewrite IH; [reflexivity|].
      rewrite string_length_app in Hn. lia.
    + specialize (IH s ltac:(lia)).
      destruct (Explain.split_from sep 0 s) as [|piece more] eqn:Hsplit.
      * now apply split_from_nonempty in Hsplit.
      * rewrite join_first_char, IH. reflexivity.
Qed.

Lemma join_split (sep s : string) :
  sep <> "" -> join sep (Explain.split sep s) = s.
Proof. intros Hsep. exact (join_split_length sep _ s Hsep (le_n _)). Qed.

Lemma documentation_content (isCode : bool) (parts : list string) :
  map Explain.content (Explain.documentation isCode parts) = parts.
Proof.
  revert isCode. induction parts as [|part parts IH]; intros isCode; [reflexivity|].
  cbn [Explain.documentation map Explain.content]. now rewrite IH.
Qed.

Lemma documentation_filetype (isCode : bool) (parts : list string) (i : nat)
    (d : Explain.Documentation) :
  Explain.documentation isCode parts !! i = Some d ->
  Explain.filetype d = if xorb isCode (Nat.odd i) then "wgsl" else "markdown".
Proof.
  revert isCode i. induction parts as [|part parts IH]; intros isCode i H;
    [discriminate|].
  destruct i as [|i].
  - injection H as <-. destruct isCode; reflexivity.
  - cbn [Explain.documentation] in H. change (Explain.documentation (negb isCode) parts !! i = Some d) in H.
    rewrite (IH _ _ H), Nat.odd_succ, <- Nat.negb_odd.
    destruct isCode, (Nat.odd i); reflexivity.
Qed.

(** X20: when a diagnostic with a truthy code is found under the cursor and
    [wgpu --explain] prints an explanation, the explanation is shown in
    pieces: put together again with the fence between them the pieces give
    the explanation back, and they are marked markdown and wgsl in turn,
    starting with markdown. *)
Theorem explainError_documentation
    (ToString : JSValue -> string) (stdout : list string -> option string)
    (document : TextDocument) (position : Position)
    (all : list Explain.Diagnostic) (diag : Explain.Diagnostic)
    (c : JSValue) (explanation : string) :
  isWgslDocument document = true ->
  List.find (fun d => Explain.isInRange (Explain.range d) position) all = Some diag ->
  Explain.code diag = Some c ->
  truthy c = true ->
  stdout ["--explain"; Explain.code_text ToString c] = Some explanation ->
  exists docs,
    Explain.explainError ToString stdout document position (Some all)
    = ([Explain.SpawnSync "wgpu" ["--explain"; Explain.code_text ToString c];
        Explain.FloatShow docs], None)
    /\ join Explain.fence (map Explain.content docs) = explanation
    /\ forall i d, docs !! i = Some d ->
                   Explain.filetype d = if Nat.even i then "markdown" else "wgsl".
Proof.
  intros Hwgsl Hfind Hcode Htruthy Hout.
  exists (Explain.documentation false (Explain.split Explain.fence explanation)).
  split; [|split].
  - unfold Explain.explainError. rewrite Hwgsl. cbn [negb].
    rewrite Hfind, Hcode, Htruthy. cbv zeta. rewrite Hout. reflexivity.
  - rewrite documentation_content. apply join_split. discriminate.
  - intros i d H. rewrite (documentation_filetype _ _ _ _ H), <- Nat.negb_odd.
    cbn [xorb]. destruct (Nat.odd i); reflexivity.
Qed.

Lemma explainError_documentation_witness :
  exists docs,
    Explain.explainError (fun _ => "") (fun _ => Some example_explanation)
      wgsl_document {| line := 2; character := 1 |} (Some [low_diagnostic])
    = ([Explain.SpawnSync "wgpu" ["--explain"; "E0308"]; Explain.FloatShow docs], None)
    /\ join Explain.fence (map Explain.content docs) = example_explanation
    /\ forall i d, docs !! i = Some d ->
                   Explain.filetype d = if Nat.even i then "markdown" else "wgsl".
Proof.
  exact (explainError_documentation (fun _ => "") (fun _ => Some example_explanation)
           wgsl_document {| line := 2; character := 1 |} [low_diagnostic]
           low_diagnostic (JString "E0308") example_explanation
           eq_refl eq_refl eq_refl eq_refl eq_refl).
Defined.

(** X21: a diagnostic is taken to be under the cursor only if the cursor's
    column is at most the range's end line; the end column of the range is
    not consulted.  With the cursor in a column beyond the end line of
    every diagnostic, nothing is spawned and nothing is shown. *)
Theorem explainError_column_beyond_end_line
    (ToString : JSValue -> string) (stdout : list string -> option string)
    (document : TextDocument) (position : Position) (all : list Explain.Diagnostic) :
  Forall (fun d => line (range_end (Explain.range d)) < character position) all ->
  Explain.explainError ToString stdout document position (Some all) = ([], None).
Proof.
  intros H. unfold Explain.explainError.
  destruct (negb (isWgslDocument document)); [reflexivity|].
  assert (List.find (fun d => Explain.isInRange (Explain.range d) position) all = None)
    as ->; [|reflexivity].
  induction H as [|d l Hd _ IH]; [reflexivity|].
  cbn [List.find]. rewrite IH.
  unfold Explain.isInRange.
  destruct (Nat.leb_spec (character position) (line (range_end (Explain.range d))));
    [lia|].
  now rewrite !andb_false_r.
Qed.

Lemma explainError_column_beyond_end_line_witness :
  Explain.explainError (fun _ => "") (fun _ => Some example_explanation)
    wgsl_document {| line := 2; character := 7 |} (Some [example_diagnostic])
  = ([], None).
Proof.
  apply explainError_column_beyond_end_line.
  apply Forall_cons_2; [cbn; lia | apply Forall_nil_2].
Defined.

(** ** Resolving a code action *)

Lemma applySnippetWorkspaceEdit_first (current : string)
    (first : Snippet.DocumentChange) (others : list Snippet.DocumentChange) :
  Snippet.applySnippetWorkspaceEdit current
    (Some {| Snippet.documentChanges := Some (first :: others) |})
  = Snippet.applySnippetWorkspaceEdit current
      (Some {| Snippet.documentChanges := Some [first] |}).
Proof. destruct first; reflexivity. Qed.

(** X22: of a resolved code action every file operation is applied, in
    order and before any text edit, and the text edits of the first
    document change are applied after them; the text edits of any later
    document change are dropped. *)
Theorem resolveCodeAction_text_edits
    (current : string) (first : Snippet.DocumentChange)
    (others : list Snippet.DocumentChange) :
  Resolve.resolveCodeAction current
    (Some {| Resolve.edit :=
               Some {| Snippet.documentChanges := Some (first :: others) |} |})
  = [ Resolve.SendRequest "codeAction/resolve";
      Resolve.WorkspaceApplyEdit
        (Some (List.filter Resolve.has_kind (first :: others))) ]
    ++ map Resolve.Snippet
         (Snippet.applySnippetWorkspaceEdit current
            (Some {| Snippet.documentChanges := Some [first] |}))
  /\ Resolve.resolveCodeAction current
       (Some {| Resolve.edit :=
                  Some {| Snippet.documentChanges := Some (first :: others) |} |})
     = Resolve.resolveCodeAction current
         (Some {| Resolve.edit :=
                    Some {| Snippet.documentChanges :=
                              Some (first :: List.filter Resolve.has_kind others) |} |})
  /\ Forall (fun change => Resolve.has_kind change = true)
            (List.filter Resolve.has_kind (first :: others)).
Proof.
  split; [|split].
  - unfold Resolve.resolveCodeAction. cbn [Resolve.edit Snippet.documentChanges fmap option_fmap option_map].
    rewrite applySnippetWorkspaceEdit_first. reflexivity.
  - unfold Resolve.resolveCodeAction. cbn [Resolve.edit Snippet.documentChanges fmap option_fmap option_map].
    rewrite (applySnippetWorkspaceEdit_first current first others).
    rewrite (applySnippetWorkspaceEdit_first current first (List.filter Resolve.has_kind others)).
    do 4 f_equal. cbn [List.filter].
    assert (List.filter Resolve.has_kind (List.filter Resolve.has_kind others)
            = List.filter Resolve.has_kind others) as Hidem.
    { induction others as [|o l IH]; [reflexivity|].
      cbn [List.filter]. destruct (Resolve.has_kind o) eqn:Ho; [|exact IH].
      cbn [List.filter]. rewrite Ho, IH. reflexivity. }
    destruct (Resolve.has_kind first); now rewrite Hidem.
  - apply List.Forall_forall. intros change Hin.
    apply List.filter_In in Hin. exact (proj2 Hin).
Qed.

(** ** Configuration changes *)

Lemma find_in_requiresReloadOpts (affects : string -> bool) (option : string) :
  List.find affects Configuration.requiresReloadOpts = Some option ->
  In option Configuration.requiresReloadOpts /\ affects option = true.
Proof. apply List.find_some. Qed.

(** X23: after a configuration change the reload command is executed exactly
    when the change affects one of the six sections that require a reload
    and either the restart setting is on or the user accepts the prompt; the
    prompt is shown exactly when such a section is affected and the restart
    setting is not on, at most once, and before the reload. *)
Theorem onConfigChange_reload
    (affects : string -> bool) (restart : option bool) (answer : string -> bool) :
  (In (Configuration.ExecuteCommand "wgsl-analyzer.reload")
      (Configuration.onConfigChange affects restart answer)
   <-> existsb affects Configuration.requiresReloadOpts = true
       /\ (restart = Some true
           \/ exists title,
                In (Configuration.ShowPrompt title)
                   (Configuration.onConfigChange affects restart answer)
                /\ answer title = true))
  /\ ((exists title, In (Configuration.ShowPrompt title)
                        (Configuration.onConfigChange affects restart answer))
      <-> existsb affects Configuration.requiresReloadOpts = true
          /\ restart <> Some true)
  /\ (exists asked reloaded,
         Configuration.onConfigChange affects restart answer = asked ++ reloaded
         /\ (asked = [] \/ exists title, asked = [Configuration.ShowPrompt title])
         /\ (reloaded = []
             \/ reloaded = [Configuration.ExecuteCommand "wgsl-analyzer.reload"])).
Proof.
  unfold Configuration.onConfigChange.
  destruct (List.find affects Configuration.requiresReloadOpts) as [option|] eqn:Hfind.
  - assert (existsb affects Configuration.requiresReloadOpts = true) as ->.
    { apply find_in_requiresReloadOpts in Hfind as [Hin Haff].
      apply List.existsb_exists. exists option. split; assumption. }
    cbv zeta.
    set (title := _ +:+ _).
    split; [|split].
    + destruct restart as [[|]|]; destruct (answer title) eqn:Hans;
        cbn [app In]; split; intros H;
        try (split; [reflexivity|]); try (left; reflexivity); try (right; left; reflexivity).
      * right. exists title. split; [left; reflexivity|exact Hans].
      * destruct H as [H|[]]. discriminate.
      * destruct H as [_ [H|[t [[H|[]] Ht]]]]; [discriminate|].
        injection H as <-. congruence.
      * right. exists title. split; [left; reflexivity|exact Hans].
      * destruct H as [H|[]]. discriminate.
      * destruct H as [_ [H|[t [[H|[]] Ht]]]]; [discriminate|].
        injection H as <-. congruence.
    + destruct restart as [[|]|]; destruct (answer title);
        cbn [app In]; split; intros H;
        try (split; [reflexivity|discriminate]);
        try (exists title; left; reflexivity).
      * destruct H as [t [H|[]]]. discriminate.
      * destruct H as [_ H]. congruence.
      * destruct H as [t [H|[]]]. discriminate.
      * destruct H as [_ H]. congruence.
    + eexists _, _. split; [reflexivity|]. split.
      * destruct restart as [[|]|]; [left; reflexivity|right; eexists; reflexivity..].
      * match goal with |- (if ?b then _ else _) = _ \/ _ => destruct b end;
          [right|left]; reflexivity.
  - assert (existsb affects Configuration.requiresReloadOpts = false) as ->.
    { apply not_true_is_false. intros H.
      apply List.existsb_exists in H as (o & Hin & Ho).
      rewrite (List.find_none _ _ Hfind o Hin) in Ho. discriminate. }
    split; [|split].
    + split; [intros []|intros [H _]; discriminate].
    + split; [intros [t []]|intros [H _]; discriminate].
    + exists [], []. split; [reflexivity|]. split; left; reflexivity.
Qed.
